(** * Carrom Arena: the game service, its validators and the fraud service

    A shallow embedding of the TypeScript sources, namely [GameService]
    (game creation, joining, start, move processing, prize distribution),
    the input validators, [FraudDetectionService], the two rate limiters
    and the security middleware (CSRF protection, fraud detection,
    authentication and the stack that chains them).

    Conventions of the embedding:
    - a JavaScript [number] on which the source does real arithmetic or
      threshold comparisons (stakes, prize pools, fraud scores, time
      intervals) is an IEEE 754 binary64 value, Rocq's primitive [float];
    - a [number] that only ever holds an array length, an index or a small
      literal counter is a [Z];
    - a [Date] is its time value in milliseconds;
    - an exception is a [Throw] result; a [try { } catch] that rethrows
      wraps the cause;
    - the database, wallet, timer and notification methods of the service
      have empty bodies in the source ("implement based on your system"):
      here each invocation is recorded in a log, the two storage methods
      write a table that [getGameById] reads, and an oracle says which
      invocation throws;
    - Redis is a map from keys to values with an optional expiry, read
      and written through [RedisManager]'s [get] and [set]; an oracle says
      which command fails, and the token verifier and the digest of a
      token are parameters. *)

From Stdlib Require Import ZArith Floats Uint63 DecimalString Bool.
From stdpp Require Import gmap strings list.

Set Warnings "-inexact-float".
Open Scope Z_scope.

(** * The embedding *)

(** ** JavaScript numbers *)

Definition number := float.
Bind Scope float_scope with number.

(** An integer as a [number]; exact for magnitudes below 2^53. *)
Definition of_Z (z : Z) : number :=
  if (z <? 0)%Z then PrimFloat.opp (PrimFloat.of_uint63 (Uint63.of_Z (- z)))
  else PrimFloat.of_uint63 (Uint63.of_Z z).

(** [Math.floor]: a finite value with a negative binary exponent is
    [m * 2^e]; shifting the signed mantissa right rounds towards minus
    infinity. Integers, zeros, infinities and NaN are returned as they are. *)
Definition Math_floor (x : number) : number :=
  match Prim2SF x with
  | S754_finite s m e =>
      if (0 <=? e)%Z then x
      else of_Z (Z.shiftr (if s then Z.neg m else Z.pos m) (- e))
  | _ => x
  end.

(** [Math.pow(x, 2)]. *)
Definition Math_pow2 (x : number) : number := (x * x)%float.

Definition is_nan (x : number) : bool := negb (x =? x)%float.

(** Decimal rendering of an integer, as in a template string. *)
Definition show_Z (z : Z) : string := NilZero.string_of_int (Z.to_int z).

Definition Date := Z.

(** [date.getTime()] *)
Definition getTime (d : Date) : number := of_Z d.

(** ** Errors and the service monad *)

Inductive Error :=
| ZodError (issues : list string)          (* schema.parse: the rejected fields *)
| Error_ (message : string)                (* new Error(message) *)
| TypeError (message : string)             (* property read on undefined *)
| Wrapped (prefix : string) (cause : Error). (* new Error(`prefix${cause}`) *)

Inductive Res (A : Type) :=
| Ok (a : A)
| Throw (e : Error).
Arguments Ok {A} a.
Arguments Throw {A} e.

(** A computation over a mutable state [S] that returns or throws. The
    state is kept on a throw: JavaScript rolls nothing back. *)
Definition ST (S A : Type) := S -> Res A * S.

Definition ret {S A} (a : A) : ST S A := fun s => (Ok a, s).
Definition throw {S A} (e : Error) : ST S A := fun s => (Throw e, s).
Definition bind {S A B} (m : ST S A) (k : A -> ST S B) : ST S B :=
  fun s => match m s with
           | (Ok a, s') => k a s'
           | (Throw e, s') => (Throw e, s')
           end.
Definition get {S} : ST S S := fun s => (Ok s, s).
Definition modify {S} (f : S -> S) : ST S unit := fun s => (Ok tt, f s).
Definition of_res {S A} (r : Res A) : ST S A := fun s => (r, s).

(** [try { m } catch (error) { throw new Error(`prefix${error}`) }] *)
Definition try_catch {S A} (prefix : string) (m : ST S A) : ST S A :=
  fun s => match m s with
           | (Throw e, s') => (Throw (Wrapped prefix e), s')
           | r => r
           end.

Declare Scope st_scope.
Delimit Scope st_scope with st.
Notation "'do' x <- m ; k" := (bind m (fun x => k))
  (at level 10, x name, m at level 100, k at level 200) : st_scope.
Notation "'run' m ; k" := (bind m (fun _ => k))
  (at level 10, m at level 100, k at level 200) : st_scope.
Open Scope st_scope.

(** [for (const x of xs) await f(x)] *)
Fixpoint for_of {S A} (xs : list A) (f : A -> ST S unit) : ST S unit :=
  match xs with
  | [] => ret tt
  | x :: rest => run f x; for_of rest f
  end.

(** ** Data model (the interfaces of the game service) *)

Inductive GameMode := CLASSIC | BLITZ | TOURNAMENT.
Inductive GameStatus := WAITING | STARTING | IN_PROGRESS | FINISHED | CANCELLED.
Inductive SkillLevel := BEGINNER | INTERMEDIATE | ADVANCED | PRO.
Inductive GamePhase := PLACEMENT | PLAYING | PHASE_FINISHED.
Inductive MoveType := STRIKE | POSITION | FOUL | TIMEOUT.
Inductive MoveResult := SUCCESS | MISS | RESULT_FOUL.
Inductive CoinType := WHITE | BLACK | QUEEN.

Record Point := { pt_x : number; pt_y : number }.
Record Pocket := { pocket_x : number; pocket_y : number; radius : number }.
Record Coin := {
  coin_id : string; coin_type : CoinType; coin_x : number; coin_y : number;
  owner : option string; isPocketed : bool }.

Record BoardState := {
  striker : Point;
  board_coins : list Coin;
  pockets : list Pocket }.

Record GamePlayer := {
  userId : string;
  name : string;
  avatar : option string;
  skillLevel : SkillLevel;
  coins : list string;
  score : Z;
  isReady : bool;
  isActive : bool;
  joinedAt : Date }.

Record GameState := {
  currentPlayer : string;
  turnNumber : Z;
  board : BoardState;
  gamePhase : GamePhase;
  timeRemaining : Z;
  lastMoveAt : Date }.

Record MoveRecordData := {
  strikerPosition : Point;
  targetCoins : list string;
  force : number;
  angle : number;
  result : MoveResult }.

Record GameMove := {
  move_id : string;
  gameId : string;
  playerId : string;
  moveNumber : Z;
  move_type : MoveType;
  data : MoveRecordData;
  timestamp : Date }.

Record Game := {
  game_id : string;
  roomId : string;
  gameMode : GameMode;
  players : list GamePlayer;
  stakeAmount : number;
  prizePool : number;
  status : GameStatus;
  gameState : GameState;
  startTime : option Date;
  endTime : option Date;
  winner : option string;
  moves : list GameMove;
  createdAt : Date }.

(** Field assignments on a [Game] object. *)
Definition set_players (v : list GamePlayer) (g : Game) : Game :=
  {| game_id := game_id g; roomId := roomId g; gameMode := gameMode g;
     players := v; stakeAmount := stakeAmount g; prizePool := prizePool g;
     status := status g; gameState := gameState g; startTime := startTime g;
     endTime := endTime g; winner := winner g; moves := moves g;
     createdAt := createdAt g |}.
Definition set_status (v : GameStatus) (g : Game) : Game :=
  {| game_id := game_id g; roomId := roomId g; gameMode := gameMode g;
     players := players g; stakeAmount := stakeAmount g; prizePool := prizePool g;
     status := v; gameState := gameState g; startTime := startTime g;
     endTime := endTime g; winner := winner g; moves := moves g;
     createdAt := createdAt g |}.
Definition set_gameState (v : GameState) (g : Game) : Game :=
  {| game_id := game_id g; roomId := roomId g; gameMode := gameMode g;
     players := players g; stakeAmount := stakeAmount g; prizePool := prizePool g;
     status := status g; gameState := v; startTime := startTime g;
     endTime := endTime g; winner := winner g; moves := moves g;
     createdAt := createdAt g |}.
Definition set_startTime (v : option Date) (g : Game) : Game :=
  {| game_id := game_id g; roomId := roomId g; gameMode := gameMode g;
     players := players g; stakeAmount := stakeAmount g; prizePool := prizePool g;
     status := status g; gameState := gameState g; startTime := v;
     endTime := endTime g; winner := winner g; moves := moves g;
     createdAt := createdAt g |}.
Definition set_endTime (v : option Date) (g : Game) : Game :=
  {| game_id := game_id g; roomId := roomId g; gameMode := gameMode g;
     players := players g; stakeAmount := stakeAmount g; prizePool := prizePool g;
     status := status g; gameState := gameState g; startTime := startTime g;
     endTime := v; winner := winner g; moves := moves g;
     createdAt := createdAt g |}.
Definition set_winner (v : option string) (g : Game) : Game :=
  {| game_id := game_id g; roomId := roomId g; gameMode := gameMode g;
     players := players g; stakeAmount := stakeAmount g; prizePool := prizePool g;
     status := status g; gameState := gameState g; startTime := startTime g;
     endTime := endTime g; winner := v; moves := moves g;
     createdAt := createdAt g |}.
Definition set_moves (v : list GameMove) (g : Game) : Game :=
  {| game_id := game_id g; roomId := roomId g; gameMode := gameMode g;
     players := players g; stakeAmount := stakeAmount g; prizePool := prizePool g;
     status := status g; gameState := gameState g; startTime := startTime g;
     endTime := endTime g; winner := winner g; moves := v;
     createdAt := createdAt g |}.

Definition set_board (v : BoardState) (s : GameState) : GameState :=
  {| currentPlayer := currentPlayer s; turnNumber := turnNumber s; board := v;
     gamePhase := gamePhase s; timeRemaining := timeRemaining s;
     lastMoveAt := lastMoveAt s |}.
Definition set_currentPlayer (v : string) (s : GameState) : GameState :=
  {| currentPlayer := v; turnNumber := turnNumber s; board := board s;
     gamePhase := gamePhase s; timeRemaining := timeRemaining s;
     lastMoveAt := lastMoveAt s |}.
Definition set_gamePhase (v : GamePhase) (s : GameState) : GameState :=
  {| currentPlayer := currentPlayer s; turnNumber := turnNumber s; board := board s;
     gamePhase := v; timeRemaining := timeRemaining s;
     lastMoveAt := lastMoveAt s |}.
Definition set_coins (v : list string) (p : GamePlayer) : GamePlayer :=
  {| userId := userId p; name := name p; avatar := avatar p;
     skillLevel := skillLevel p; coins := v; score := score p;
     isReady := isReady p; isActive := isActive p; joinedAt := joinedAt p |}.

(** The argument of [createGame]. *)
Record GameData := {
  hostId : string;
  gd_gameMode : GameMode;
  gd_stakeAmount : number;
  isPrivate : bool;
  maxPlayers : number;
  timeLimit : number }.

(** The argument of [processMove]. *)
Record MoveInput := {
  mi_strikerPosition : Point;
  mi_force : number;
  mi_angle : number;
  mi_targetCoins : option (list string) }.

(** ** Input validation *)

(** [validateStakeAmount] of the validation utilities. *)
Definition validateStakeAmount (amount : number) : bool :=
  (10 <=? amount)%float && (amount <=? 2000)%float.

(** zod's [z.number().min(lo).max(hi)]: NaN is not a number for zod; [min]
    raises the issue [too_small] when [x < lo] and [max] raises [too_big]
    when [x > hi] (both bounds inclusive). *)
Definition z_number_min_max (lo hi x : number) : bool :=
  negb (is_nan x) && negb (x <? lo)%float && negb (hi <? x)%float.

(** zod's [z.string().min(n)]. *)
Definition z_string_min (n : nat) (x : string) : bool :=
  negb (String.length x <? n)%nat.

Definition issue (path : string) (ok : bool) : list string :=
  if ok then [] else [path].

(** [validateGameCreation]: [schema.parse(data)] returns the data or throws
    a [ZodError] listing every field that failed. [gameMode] and [isPrivate]
    are of their types by the typing of [GameData]. *)
Definition validateGameCreation (data : GameData) : Res GameData :=
  let issues :=
    issue "hostId" (z_string_min 1 (hostId data)) ++
    issue "stakeAmount" (z_number_min_max 10 2000 (gd_stakeAmount data)) ++
    issue "maxPlayers" (z_number_min_max 2 4 (maxPlayers data)) ++
    issue "timeLimit" (z_number_min_max 5 30 (timeLimit data)) in
  match issues with
  | [] => Ok data
  | _ => Throw (ZodError issues)
  end.

(** ** Pure helpers of the game service *)

(** What a call reads from its environment: the clock, read once per call,
    and [Math.random], already rendered in base 36 and cut as the
    generators do. *)
Record Env := {
  now : Date;
  random_game : string;
  random_room : string;
  random_move : string }.

Definition generateGameId (env : Env) : string :=
  "game_" +:+ show_Z (now env) +:+ "_" +:+ random_game env.
Definition generateRoomId (env : Env) : string :=
  "room_" +:+ show_Z (now env) +:+ "_" +:+ random_room env.
Definition generateMoveId (env : Env) : string :=
  "move_" +:+ show_Z (now env) +:+ "_" +:+ random_move env.

Definition calculatePrizePool (stakeAmount playerCount : number) : number :=
  let totalStakes := (stakeAmount * playerCount)%float in
  let serverFee := (totalStakes * 0.05)%float in (* 5% server fee *)
  Math_floor (totalStakes - serverFee)%float.

Definition corner_pockets : list Pocket :=
  [ {| pocket_x := 50; pocket_y := 50; radius := 15 |};
    {| pocket_x := 450; pocket_y := 50; radius := 15 |};
    {| pocket_x := 450; pocket_y := 450; radius := 15 |};
    {| pocket_x := 50; pocket_y := 450; radius := 15 |} ]%float.

Definition createInitialGameState (env : Env) : GameState :=
  {| currentPlayer := "";
     turnNumber := 1;
     board := {| striker := {| pt_x := 0; pt_y := 0 |};
                 board_coins := [];
                 pockets := corner_pockets |};
     gamePhase := PLACEMENT;
     timeRemaining := 300;
     lastMoveAt := now env |}.

Record Eligibility := { eligible : bool; eligible_reason : string }.
Definition checkPlayerEligibility (playerId : string) (amount : number) : Eligibility :=
  {| eligible := true; eligible_reason := "" |}.

Definition createGamePlayer (env : Env) (playerId role : string) : GamePlayer :=
  {| userId := playerId;
     name := "Player Name";
     avatar := None;
     skillLevel := INTERMEDIATE;
     coins := [];
     score := 0;
     isReady := false;
     isActive := true;
     joinedAt := now env |}.

Record JoinCheck := { allowed : bool; join_reason : string }.
Definition canPlayerJoinGame (game : Game) (playerId : string) : JoinCheck :=
  {| allowed := true; join_reason := "" |}.

Definition isGameReadyToStart (game : Game) : bool :=
  (2 <=? length (players game))%nat.

Definition status_eqb (a b : GameStatus) : bool :=
  match a, b with
  | WAITING, WAITING | STARTING, STARTING | IN_PROGRESS, IN_PROGRESS
  | FINISHED, FINISHED | CANCELLED, CANCELLED => true
  | _, _ => false
  end.

Definition canStartGame (game : Game) : bool :=
  status_eqb (status game) WAITING && (2 <=? length (players game))%nat.

(** [Array.from({ length: 9 }, (_, i) => `white_${i + 1}`)] *)
Definition whiteCoins : list string :=
  map (fun i => "white_" +:+ show_Z (Z.of_nat i + 1)) (seq 0 9).
Definition blackCoins : list string :=
  map (fun i => "black_" +:+ show_Z (Z.of_nat i + 1)) (seq 0 9).

Definition assignCoinsToPlayers (players : list GamePlayer) : list GamePlayer :=
  imap (fun index player =>
          set_coins (if (index mod 2 =? 0)%nat then whiteCoins else blackCoins) player)
       players.

Definition setupInitialBoard : BoardState :=
  {| striker := {| pt_x := 250; pt_y := 400 |};
     board_coins := [];
     pockets := corner_pockets |}.

Definition undefined_read (property : string) : Error :=
  TypeError ("Cannot read properties of undefined (reading '" +:+ property +:+ "')").

(** [players[0].userId] *)
Definition determineFirstPlayer (players : list GamePlayer) : Res string :=
  match players !! 0%nat with
  | Some p => Ok (userId p)
  | None => Throw (undefined_read "userId")
  end.

Record MoveValidation := { valid : bool; move_reason : string }.
Definition validateMove (game : Game) (playerId : string) (moveData : MoveInput)
  : MoveValidation :=
  {| valid := true; move_reason := "" |}.

Record PhysicsResult := {
  physics_result : MoveResult;
  updatedBoard : BoardState;
  coinsPocketed : list string;
  scoreChange : Z }.

Record Trajectory := { path : list Point; endPosition : Point }.
Definition calculateTrajectory (position : Point) (force angle : number)
  : Trajectory :=
  {| path := []; endPosition := {| pt_x := 0; pt_y := 0 |} |}.

Definition detectCollisions (trajectory : Trajectory) (coins : list Coin)
  : list Coin := [].

Record CollisionEffects := {
  newBoard : BoardState; pocketedCoins : list string; effects_scoreChange : Z }.
Definition processCollisionEffects (collisions : list Coin) (board : BoardState)
  : CollisionEffects :=
  {| newBoard := board; pocketedCoins := []; effects_scoreChange := 0 |}.

Record MoveOutcome := { success : bool; foul : bool }.
Definition determineMoveResult (effects : CollisionEffects) : MoveOutcome :=
  {| success := true; foul := false |}.

Definition simulateMove (board : BoardState) (moveData : MoveInput) : PhysicsResult :=
  let trajectory :=
    calculateTrajectory (mi_strikerPosition moveData) (mi_force moveData)
                        (mi_angle moveData) in
  let collisions := detectCollisions trajectory (board_coins board) in
  let afterEffects := processCollisionEffects collisions board in
  let r := determineMoveResult afterEffects in
  {| physics_result := if success r then SUCCESS else if foul r then RESULT_FOUL else MISS;
     updatedBoard := newBoard afterEffects;
     coinsPocketed := pocketedCoins afterEffects;
     scoreChange := effects_scoreChange afterEffects |}.

(** Returns the state object it was given (no copy is made). *)
Definition updateGameStateFromMove (currentState : GameState) (move : GameMove)
    (physicsResult : PhysicsResult) : GameState :=
  currentState.

Record WinCheck := { hasWinner : bool; win_winner : string }.
Definition checkWinCondition (state : GameState) (players : list GamePlayer) : WinCheck :=
  {| hasWinner := false; win_winner := "" |}.

(** [Array.prototype.findIndex]: the first index whose element satisfies
    the predicate, [-1] when there is none. *)
Fixpoint findIndex_from {A} (p : A -> bool) (l : list A) (i : Z) : Z :=
  match l with
  | [] => -1
  | a :: rest => if p a then i else findIndex_from p rest (i + 1)
  end.
Definition findIndex {A} (p : A -> bool) (l : list A) : Z := findIndex_from p l 0.

(** [players[(currentIndex + 1) % players.length].userId]. On an empty
    array the remainder is NaN, the element is undefined and the property
    read throws. *)
Definition getNextPlayer (players : list GamePlayer) (currentPlayerId : string)
  : Res string :=
  let currentIndex := findIndex (fun p => String.eqb (userId p) currentPlayerId) players in
  let len := Z.of_nat (length players) in
  if len =? 0 then Throw (undefined_read "userId")
  else match players !! Z.to_nat (Z.rem (currentIndex + 1) len) with
       | Some p => Ok (userId p)
       | None => Throw (undefined_read "userId")
       end.

Record Prize := { prize_playerId : string; amount : number }.

(** [!game.winner] is true for an absent winner and for the empty string. *)
Definition no_winner (game : Game) : bool :=
  match winner game with
  | Some w => String.eqb w ""
  | None => true
  end.

(** [game.winner!] is read after [no_winner] was tested. *)
Definition calculatePrizeDistribution (game : Game) : list Prize :=
  [ {| prize_playerId := default "" (winner game);
       amount := Math_floor (prizePool game * 0.9)%float |} ].

(** ** The collaborators: storage, wallet, timers, notifications *)

(** Modelled from the spec: the collaborators behind the storage, wallet,
    timer and notification methods of the service, whose bodies the source
    leaves empty. The spec has storage keep a snapshot of the current match
    state, written by every state-changing operation: here [storeGame] and
    [updateGame] save the game under its id, [getGameById] reads it back,
    and every invocation is logged with its arguments, one constructor per
    method. *)
Inductive Call :=
| GetGameById (gameId : string)
| StoreGame (game : Game)
| UpdateGame (game : Game)
| LockPlayerStake (playerId gameId : string) (amount : number)
| ReleaseAllStakes (gameId : string)
| TransferPrize (playerId : string) (amount : number) (gameId : string)
| UpdatePlayerStats (game : Game)
| RecordGameCompletion (game : Game)
| LogGameMove (move : GameMove) (state : GameState)
| StartGameTimer (gameId : string)
| NotifyGameStarted (game : Game)
| SetTimeout_startGame (gameId : string) (delay : Z).

(** The games as last stored, and every invocation so far, oldest first. *)
Record World := {
  db : gmap string Game;
  calls : list Call }.

Definition empty_world : World := {| db := ∅; calls := [] |}.

Definition record_call (c : Call) (w : World) : World :=
  {| db := match c with
           | StoreGame game | UpdateGame game => <[game_id game := game]> (db w)
           | _ => db w
           end;
     calls := calls w ++ [c] |}.

(** A method working on a [Game] object it holds: the object and the world. *)
Definition Frame : Type := Game * World.

Definition this : ST Frame Game := fun s => (Ok (fst s), s).
Definition assign (f : Game -> Game) : ST Frame unit :=
  fun s => (Ok tt, (f (fst s), snd s)).
Definition lift {A} (m : ST World A) : ST Frame A :=
  fun s => match m (snd s) with (r, w') => (r, (fst s, w')) end.
(** Runs a method body on the object; the caller sees the world only. *)
Definition with_object {A} (game : Game) (m : ST Frame A) : ST World A :=
  fun w => match m (game, w) with (r, s') => (r, snd s') end.

Record JoinResult := { join_success : bool; join_game : Game }.
Record MoveResponse := {
  move_success : bool; move_result : MoveResult; newState : GameState }.

Section GameService.

(** Which invocation of a collaborator throws, and what. *)
Variable fault : Call -> World -> option Error.
(** The clock and random source read by the call. *)
Variable env : Env.

Definition call (c : Call) : ST World unit :=
  fun w => match fault c w with
           | Some e => (Throw e, w)
           | None => (Ok tt, record_call c w)
           end.

Definition getGameById (gameId : string) : ST World (option Game) :=
  run call (GetGameById gameId);
  do w <- get;
  ret (db w !! gameId).
Definition storeGame (game : Game) := call (StoreGame game).
Definition updateGame (game : Game) := call (UpdateGame game).
Definition lockPlayerStake (playerId gameId : string) (amount : number) :=
  call (LockPlayerStake playerId gameId amount).
Definition releaseAllStakes (gameId : string) := call (ReleaseAllStakes gameId).
Definition transferPrize (playerId : string) (amount : number) (gameId : string) :=
  call (TransferPrize playerId amount gameId).
Definition updatePlayerStats (game : Game) := call (UpdatePlayerStats game).
Definition recordGameCompletion (game : Game) := call (RecordGameCompletion game).
Definition logGameMove (move : GameMove) (state : GameState) :=
  call (LogGameMove move state).
Definition startGameTimer (gameId : string) := call (StartGameTimer gameId).
Definition notifyGameStarted (game : Game) := call (NotifyGameStarted game).

(** [setTimeout(() => this.startGame(game.id), 3000)]: the countdown is
    registered; [startGame] runs later, as an operation of its own. *)
Definition initiateGameStart (game : Game) : ST World unit :=
  modify (record_call (SetTimeout_startGame (game_id game) 3000)).

Definition createGame (gameData : GameData) : ST World Game :=
  try_catch "Game creation failed: " (
    do validatedData <- of_res (validateGameCreation gameData);
    let hostEligible :=
      checkPlayerEligibility (hostId validatedData) (gd_stakeAmount validatedData) in
    if negb (eligible hostEligible) then throw (Error_ (eligible_reason hostEligible))
    else
      let prizePool :=
        calculatePrizePool (gd_stakeAmount validatedData) (maxPlayers validatedData) in
      let roomId := generateRoomId env in
      let gameId := generateGameId env in
      let initialGameState := createInitialGameState env in
      let game :=
        {| game_id := gameId; roomId := roomId;
           gameMode := gd_gameMode validatedData;
           players := [];
           stakeAmount := gd_stakeAmount validatedData;
           prizePool := prizePool;
           status := WAITING;
           gameState := initialGameState;
           startTime := None; endTime := None; winner := None;
           moves := [];
           createdAt := now env |} in
      let hostPlayer := createGamePlayer env (hostId validatedData) "HOST" in
      let game := set_players (players game ++ [hostPlayer]) game in
      run storeGame game;
      run lockPlayerStake (hostId validatedData) gameId (gd_stakeAmount validatedData);
      ret game).

(** The body of [joinGame] once the game object is fetched. *)
Definition joinGame_body (gameId playerId : string) : ST Frame JoinResult :=
  do game <- this;
  let canJoin := canPlayerJoinGame game playerId in
  if negb (allowed canJoin) then throw (Error_ (join_reason canJoin))
  else
    let eligibility := checkPlayerEligibility playerId (stakeAmount game) in
    if negb (eligible eligibility) then throw (Error_ (eligible_reason eligibility))
    else
      let player := createGamePlayer env playerId "PLAYER" in
      run assign (fun g => set_players (players g ++ [player]) g);
      do game <- this;
      run lift (lockPlayerStake playerId gameId (stakeAmount game));
      run lift (updateGame game);
      run (if isGameReadyToStart game then lift (initiateGameStart game) else ret tt);
      ret {| join_success := true; join_game := game |}.

Definition joinGame (gameId playerId : string) : ST World JoinResult :=
  try_catch "Failed to join game: " (
    do found <- getGameById gameId;
    match found with
    | None => throw (Error_ "Game not found")
    | Some game => with_object game (joinGame_body gameId playerId)
    end).

Definition startGame_body (gameId : string) : ST Frame Game :=
  do game <- this;
  if negb (canStartGame game) then throw (Error_ "Game cannot be started")
  else
    let coinAssignment := assignCoinsToPlayers (players game) in
    run assign (set_players coinAssignment);
    run assign (set_gameState (createInitialGameState env));
    run assign (fun g => set_gameState (set_board setupInitialBoard (gameState g)) g);
    run assign (set_status IN_PROGRESS);
    run assign (set_startTime (Some (now env)));
    do game <- this;
    do first <- of_res (determineFirstPlayer (players game));
    run assign (fun g => set_gameState (set_currentPlayer first (gameState g)) g);
    do game <- this;
    run lift (updateGame game);
    run lift (startGameTimer gameId);
    run lift (notifyGameStarted game);
    ret game.

Definition startGame (gameId : string) : ST World Game :=
  try_catch "Failed to start game: " (
    do found <- getGameById gameId;
    match found with
    | None => throw (Error_ "Game not found")
    | Some game => with_object game (startGame_body gameId)
    end).

Definition distributePrizes (game : Game) : ST World unit :=
  try_catch "Failed to distribute prizes: " (
    if no_winner game then throw (Error_ "No winner determined")
    else
      let prizeDistribution := calculatePrizeDistribution game in
      run for_of prizeDistribution (fun prize =>
            transferPrize (prize_playerId prize) (amount prize) (game_id game));
      run releaseAllStakes (game_id game);
      run updatePlayerStats game;
      recordGameCompletion game).

Definition processMove_body (gameId playerId : string) (moveData : MoveInput)
  : ST Frame MoveResponse :=
  do game <- this;
  let moveValidation := validateMove game playerId moveData in
  if negb (valid moveValidation) then throw (Error_ (move_reason moveValidation))
  else
    let physicsResult := simulateMove (board (gameState game)) moveData in
    let move :=
      {| move_id := generateMoveId env;
         gameId := gameId;
         playerId := playerId;
         moveNumber := Z.of_nat (length (moves game)) + 1;
         move_type := STRIKE;
         data := {| strikerPosition := mi_strikerPosition moveData;
                    targetCoins := default [] (mi_targetCoins moveData);
                    force := mi_force moveData;
                    angle := mi_angle moveData;
                    result := physics_result physicsResult |};
         timestamp := now env |} in
    (* the object returned is game.gameState itself: writes to it are
       writes to the game *)
    let newGameState := updateGameStateFromMove (gameState game) move physicsResult in
    let winCheck := checkWinCondition newGameState (players game) in
    do newGameState <-
      (if hasWinner winCheck then
         let finished := set_gamePhase PHASE_FINISHED newGameState in
         run assign (set_gameState finished);
         run assign (set_status FINISHED);
         run assign (set_winner (Some (win_winner winCheck)));
         run assign (set_endTime (Some (now env)));
         do game <- this;
         run lift (distributePrizes game);
         ret finished
       else
         do next <- of_res (getNextPlayer (players game) playerId);
         let switched := set_currentPlayer next newGameState in
         run assign (set_gameState switched);
         ret switched);
    run assign (fun g => set_moves (moves g ++ [move]) g);
    run assign (set_gameState newGameState);
    do game <- this;
    run lift (updateGame game);
    run lift (logGameMove move newGameState);
    ret {| move_success := true;
           move_result := physics_result physicsResult;
           newState := newGameState |}.

Definition processMove (gameId playerId : string) (moveData : MoveInput)
  : ST World MoveResponse :=
  try_catch "Failed to process move: " (
    do found <- getGameById gameId;
    match found with
    | None => throw (Error_ "Game not found")
    | Some game => with_object game (processMove_body gameId playerId moveData)
    end).

End GameService.

(** ** The service as a transition system *)

(** The public operations that act on games. ([findMatch] finds no
    available game and its auto-match creates none: it returns null
    without an effect, and is left out.) *)
Inductive Op :=
| OpCreateGame (gameData : GameData)
| OpJoinGame (gameId playerId : string)
| OpStartGame (gameId : string)
| OpProcessMove (gameId playerId : string) (moveData : MoveInput)
| OpDistributePrizes (game : Game).

(** The world an operation leaves, whether it returned or threw. *)
Definition exec (fault : Call -> World -> option Error) (env : Env) (op : Op)
    (w : World) : World :=
  match op with
  | OpCreateGame gameData => snd (createGame fault env gameData w)
  | OpJoinGame gameId playerId => snd (joinGame fault env gameId playerId w)
  | OpStartGame gameId => snd (startGame fault env gameId w)
  | OpProcessMove gameId playerId moveData =>
      snd (processMove fault env gameId playerId moveData w)
  | OpDistributePrizes game => snd (distributePrizes fault game w)
  end.

(** The worlds the service can be in: any operations, under any clock,
    random source and faults of the collaborators. *)
Inductive reachable : World -> Prop :=
| reachable_init : reachable empty_world
| reachable_step w fault env op :
    reachable w -> reachable (exec fault env op w).

(** No collaborator ever throws. *)
Definition no_fault : Call -> World -> option Error := fun _ _ => None.

(** ** The fraud detection service *)

Inductive Severity := HIGH | MEDIUM.
Inductive AlertAction := INVESTIGATE | MONITOR.

Record FraudAlert := {
  alert_userId : string;
  alert_gameId : string;
  fraudScore : number;
  severity : Severity;
  action : AlertAction;
  description : string }.

(** Modelled from the spec: [createFraudAlert] and [temporaryRestriction],
    which [flagSuspiciousActivity] calls and the source does not define;
    alerts are append-only and consumed elsewhere, so an invocation is
    logged with its arguments. *)
Inductive FraudCall :=
| CreateFraudAlert (alert : FraudAlert)
| TemporaryRestriction (userId reason : string).

(** What the fraud service acts on: its own collaborators. The games are
    carried along to show that they are out of its reach. *)
Record FraudWorld := {
  games : World;
  fraud_calls : list FraudCall }.

Definition fraud_call (c : FraudCall) : ST FraudWorld unit :=
  modify (fun w => {| games := games w; fraud_calls := fraud_calls w ++ [c] |}).

Definition flagSuspiciousActivity (userId : string) (fraudScore : number)
    (gameId : string) : ST FraudWorld unit :=
  if (75 <? fraudScore)%float then
    (* High fraud score - immediate action *)
    run fraud_call (CreateFraudAlert
          {| alert_userId := userId; alert_gameId := gameId;
             fraudScore := fraudScore; severity := HIGH; action := INVESTIGATE;
             description := "Suspicious gameplay patterns detected" |});
    (* Temporarily restrict user *)
    fraud_call (TemporaryRestriction userId "SUSPECTED_FRAUD")
  else if (50 <? fraudScore)%float then
    (* Medium fraud score - monitor closely *)
    fraud_call (CreateFraudAlert
          {| alert_userId := userId; alert_gameId := gameId;
             fraudScore := fraudScore; severity := MEDIUM; action := MONITOR;
             description := "Unusual gameplay patterns detected" |})
  else ret tt.

(** [history.slice(-n)]: the last [n] elements, all of them when there
    are fewer. *)
Definition slice_last {A} (n : nat) (l : list A) : list A :=
  drop (length l - n) l.

(** The loop [for (i = 1; i < recentMoves.length; i++)] pushing
    [recentMoves[i].timestamp - recentMoves[i-1].timestamp]. *)
Fixpoint intervals_of (recentMoves : list GameMove) : list number :=
  match recentMoves with
  | previous :: ((current :: _) as rest) =>
      (getTime (timestamp current) - getTime (timestamp previous))%float
        :: intervals_of rest
  | _ => []
  end.

(** [intervals.reduce((a, b) => a + b, 0) / intervals.length] *)
Definition avgInterval_of (intervals : list number) : number :=
  (fold_left (fun a b => a + b) intervals 0
   / of_Z (Z.of_nat (length intervals)))%float.

(** [intervals.reduce((acc, interval) =>
       acc + Math.pow(interval - avgInterval, 2), 0) / intervals.length] *)
Definition variance_of (intervals : list number) : number :=
  let avgInterval := avgInterval_of intervals in
  (fold_left (fun acc interval => acc + Math_pow2 (interval - avgInterval))
             intervals 0
   / of_Z (Z.of_nat (length intervals)))%float.

Definition analyzeTimingPatterns (move : GameMove) (history : list GameMove)
  : number :=
  let recentMoves := slice_last 10 history in
  if (length recentMoves <? 3)%nat then 0%float
  else
    let intervals := intervals_of recentMoves in
    let avgInterval := avgInterval_of intervals in
    let variance := variance_of intervals in
    (* Low variance + fast moves = suspicious *)
    if (variance <? 100)%float && (avgInterval <? 2000)%float then 40%float
    (* Extremely fast moves *)
    else if (avgInterval <? 500)%float then 60%float
    else 0%float.

(** ** The fraud detection service: accuracy and the total score *)

(** A move result is a non-empty string, hence truthy. *)
Definition truthy_result (r : MoveResult) : bool := true.

Definition is_success (r : MoveResult) : bool :=
  match r with SUCCESS => true | _ => false end.

Definition analyzeAccuracyPatterns (move : GameMove) (history : list GameMove)
  : number :=
  let recentResults :=
    List.filter (fun m => truthy_result (result (data m))) (slice_last 20 history) in
  if (length recentResults <? 10)%nat then 0%float
  else
    let successCount :=
      length (List.filter (fun m => is_success (result (data m))) recentResults) in
    let successRate :=
      (of_Z (Z.of_nat successCount) / of_Z (Z.of_nat (length recentResults)))%float in
    (* Unnaturally high success rate *)
    if (0.95 <? successRate)%float then 50%float
    else if (0.85 <? successRate)%float then 30%float
    else 0%float.

(** [Math.min] of two numbers: NaN when either is NaN, and -0 below +0. *)
Definition Math_min (a b : number) : number :=
  if is_nan a || is_nan b then nan
  else if (a <? b)%float then a
  else if (b <? a)%float then b
  else match classify a with
       | NZero => a
       | _ => b
       end.

Section FraudScore.

(** The three components the source calls and does not define. *)
Variable validatePhysicsRealism : GameMove -> number.
Variable analyzeBehavioralPatterns : string -> list GameMove -> number.
Variable checkDeviceConsistency : string -> number.

Definition analyzeMoveForFraud (move : GameMove) (gameHistory : list GameMove)
  : number :=
  let fraudScore := 0%float in
  (* Analyze timing patterns *)
  let fraudScore := (fraudScore + analyzeTimingPatterns move gameHistory)%float in
  (* Analyze accuracy patterns *)
  let fraudScore := (fraudScore + analyzeAccuracyPatterns move gameHistory)%float in
  (* Check for impossible moves *)
  let fraudScore := (fraudScore + validatePhysicsRealism move)%float in
  (* Analyze behavioral patterns *)
  let fraudScore :=
    (fraudScore + analyzeBehavioralPatterns (playerId move) gameHistory)%float in
  (* Device consistency check *)
  let fraudScore := (fraudScore + checkDeviceConsistency (playerId move))%float in
  Math_min fraudScore 100.

End FraudScore.

(** ** The in-memory rate limiter *)

(** Counts and instants in milliseconds are whole numbers. *)
Record RateLimitConfig := {
  windowMs : Z;
  maxRequests : Z;
  limit_message : string }.

Record RateRecord := { count : Z; resetTime : Z }.

Record LimitResult := { limit_allowed : bool; remaining : Z }.

(** [checkLimit]; [now] is the reading of [Date.now()], and the map is the
    limiter's [requests]. The record found is updated in place. *)
Definition checkLimit (key : string) (config : RateLimitConfig) (now : Z)
    (requests : gmap string RateRecord)
  : LimitResult * gmap string RateRecord :=
  let first_or_expired :=
    ({| limit_allowed := true; remaining := maxRequests config - 1 |},
     <[key := {| count := 1; resetTime := now + windowMs config |}]> requests) in
  match requests !! key with
  | None => first_or_expired
  | Some record =>
      if resetTime record <? now then first_or_expired
      else if maxRequests config <=? count record then
        (* Rate limit exceeded *)
        ({| limit_allowed := false; remaining := 0 |}, requests)
      else
        (* Increment counter *)
        let record' := {| count := count record + 1; resetTime := resetTime record |} in
        ({| limit_allowed := true;
            remaining := maxRequests config - count record' |},
         <[key := record']> requests)
  end.

(** ** Requests, and JavaScript strings *)

(** A request as the middleware reads it. Header names are lower case, as
    the lookups are; a URL is serialised in ASCII. *)
Record Request := {
  method : string;
  url : string;
  pathname : string;
  ip : option string;
  headers : gmap string string }.

(** [request.headers.get(name)] *)
Definition headers_get (request : Request) (name : string) : option string :=
  headers request !! name.

(** Truthiness of a [string | null]: null and the empty string are falsy. *)
Definition truthy (v : option string) : bool :=
  match v with
  | Some s => negb (String.eqb s "")
  | None => false
  end.

(** [v || d] on strings *)
Definition or_string (v : option string) (d : string) : string :=
  match v with
  | Some s => if String.eqb s "" then d else s
  | None => d
  end.

(** [s.startsWith(p)] *)
Fixpoint startsWith (s p : string) : bool :=
  match p, s with
  | EmptyString, _ => true
  | String c p', String d s' => Ascii.eqb c d && startsWith s' p'
  | String _ _, EmptyString => false
  end.

(** [s.includes(p)] *)
Fixpoint includes (s p : string) : bool :=
  startsWith s p ||
  match s with
  | EmptyString => false
  | String _ s' => includes s' p
  end.

Definition lower_char (c : Ascii.ascii) : Ascii.ascii :=
  let n := Ascii.nat_of_ascii c in
  if (65 <=? n)%nat && (n <=? 90)%nat then Ascii.ascii_of_nat (n + 32) else c.

(** [s.toLowerCase()] on an ASCII string *)
Fixpoint toLowerCase (s : string) : string :=
  match s with
  | EmptyString => EmptyString
  | String c s' => String (lower_char c) (toLowerCase s')
  end.

(** ** The fraud detection middleware: the suspicion score *)

Record FraudMetrics := {
  requestCount : Z;
  failedAttempts : Z;
  metrics_patterns : list string;
  lastActivity : Z }.

Definition suspiciousPatterns : list string :=
  ["script"; "alert"; "javascript:"; "data:"; "vbscript:";
   "onload"; "onerror"; "onclick"; "<script"; "</script"].

Definition calculateSuspiciousScore (request : Request) (metrics : FraudMetrics)
  : Z :=
  let score := 0 in
  (* High request frequency *)
  let score :=
    if 100 <? requestCount metrics then score + 30
    else if 50 <? requestCount metrics then score + 15
    else score in
  (* Multiple failed attempts *)
  let score :=
    if 10 <? failedAttempts metrics then score + 40
    else if 5 <? failedAttempts metrics then score + 20
    else score in
  (* Suspicious user agent *)
  let userAgent := or_string (headers_get request "user-agent") "" in
  let score :=
    if String.eqb userAgent "" || (String.length userAgent <? 10)%nat
    then score + 20 else score in
  (* Missing common headers *)
  let score :=
    if negb (truthy (headers_get request "accept-language"))
    then score + 10 else score in
  let score :=
    if negb (truthy (headers_get request "accept-encoding"))
    then score + 10 else score in
  (* Suspicious patterns in URL: the first match adds 25 and ends the loop *)
  let score :=
    if existsb (fun pattern => includes (toLowerCase (url request)) pattern)
               suspiciousPatterns
    then score + 25 else score in
  Z.min score 100.

(** [s.split(sep)] for a one-character separator: the pieces between the
    separators, [[""]] for the empty string. *)
Fixpoint split_at (sep : Ascii.ascii) (s : string) : list string :=
  match s with
  | EmptyString => [EmptyString]
  | String c rest =>
      if Ascii.eqb c sep then EmptyString :: split_at sep rest
      else match split_at sep rest with
           | first :: others => String c first :: others
           | [] => [String c EmptyString]
           end
  end.

(** ** Redis, as [RedisManager] uses it *)

(** Values are stored as JSON and parsed back; for the records of numbers
    and strings kept here that is the identity. An entry set with a time
    to live is gone once the clock has passed its expiry; the service's
    [Date.now()] stands for the clock. *)
Record RedisEntry (V : Type) := {
  entry_value : V;
  expires_at : option Z }.
Arguments entry_value {V} _.
Arguments expires_at {V} _.

Inductive RedisOp :=
| RedisGet (key : string)
| RedisSet (key : string).

Section RedisManager.

Context {V : Type}.
(** Which command fails (connection lost, retries exhausted), and how. *)
Variable down : RedisOp -> Z -> option Error.

(** [set]: [if (ttlSeconds)] sends [EX ttlSeconds], which Redis refuses for
    a negative time; a missing or zero time to live stores for good. *)
Definition redis_set (key : string) (value : V) (ttlSeconds : option Z) (now : Z)
  : ST (gmap string (RedisEntry V)) unit :=
  fun store =>
    match down (RedisSet key) now with
    | Some e => (Throw e, store)
    | None =>
        match ttlSeconds with
        | Some ttl =>
            if ttl =? 0 then
              (Ok tt, <[key := {| entry_value := value; expires_at := None |}]> store)
            else if ttl <? 0 then
              (Throw (Error_ "ERR invalid expire time in 'set' command"), store)
            else
              (Ok tt, <[key := {| entry_value := value;
                                  expires_at := Some (now + 1000 * ttl) |}]> store)
        | None =>
            (Ok tt, <[key := {| entry_value := value; expires_at := None |}]> store)
        end
    end.

(** The value a key holds at [now]. *)
Definition redis_live (key : string) (now : Z) (store : gmap string (RedisEntry V))
  : option V :=
  match store !! key with
  | Some entry =>
      match expires_at entry with
      | Some expiry => if expiry <? now then None else Some (entry_value entry)
      | None => Some (entry_value entry)
      end
  | None => None
  end.

(** [get] *)
Definition redis_get (key : string) (now : Z)
  : ST (gmap string (RedisEntry V)) (option V) :=
  fun store =>
    match down (RedisGet key) now with
    | Some e => (Throw e, store)
    | None => (Ok (redis_live key now store), store)
    end.

End RedisManager.

(** Redis answers every command. *)
Definition redis_up : RedisOp -> Z -> option Error := fun _ _ => None.

(** ** Responses and tokens *)

(** A [NextResponse] with a JSON body [{ success: false, message, ... }]. *)
Record Response := {
  response_status : Z;
  response_message : string;
  response_retryAfter : option Z;
  response_headers : list (string * string) }.

Definition json_response (status : Z) (message : string) : Response :=
  {| response_status := status; response_message := message;
     response_retryAfter := None;
     response_headers := [("Content-Type", "application/json")] |}.

Inductive UserType := PLAYER | DEVELOPER.

Record JWTPayload := {
  jwt_userId : string;
  jwt_email : string;
  jwt_userType : UserType }.

(** ** CSRF protection *)

Section CSRFMiddleware.

(** [verifyAccessToken], given the token or undefined: the payload of a
    token that verifies, null otherwise. *)
Variable verifyAccessToken : option string -> option JWTPayload.
Variable down : RedisOp -> Z -> option Error.

Definition getSessionId (request : Request) : option string :=
  (* Try to extract session ID from various sources *)
  let authHeader := headers_get request "authorization" in
  if truthy authHeader then
    let token := split_at Ascii.Space (default "" authHeader) !! 1%nat in
    match verifyAccessToken token with
    | Some payload =>
        if String.eqb (jwt_userId payload) "" then None
        else Some (jwt_userId payload)
    | None => None
    end
  else
    let sessionHeader := headers_get request "x-session-id" in
    if truthy sessionHeader then sessionHeader else None.

(** The middleware of [CSRFMiddleware.createMiddleware]: null lets the
    request through. *)
Definition csrfMiddleware (request : Request) (now : Z)
  : ST (gmap string (RedisEntry string)) (option Response) :=
  (* Skip CSRF for GET requests *)
  if String.eqb (method request) "GET" then ret None
  else
    match getSessionId request with
    | None => ret (Some (json_response 400 "Session ID required"))
    | Some sessionId =>
        let providedToken := headers_get request "x-csrf-token" in
        if negb (truthy providedToken) then
          ret (Some (json_response 403 "CSRF token required"))
        else
          let key := "csrf:" +:+ sessionId in
          do storedToken <- redis_get down key now;
          if negb (truthy storedToken)
             || negb (String.eqb (default "" storedToken) (default "" providedToken))
          then ret (Some (json_response 403 "Invalid CSRF token"))
          else ret None (* Allow request *)
    end.

End CSRFMiddleware.

(** ** The rate limiter on Redis *)

(** [try { m } catch (error) { console.error(...); return fallback }] *)
Definition try_or {S A} (m : ST S A) (fallback : A) : ST S A :=
  fun s => match m s with
           | (Throw _, s') => (Ok fallback, s')
           | r => r
           end.

(** [Math.ceil(ms / 1000)] on a whole number of milliseconds *)
Definition ceil_seconds (ms : Z) : Z := - ((- ms) / 1000).

Section ClientId.

Variable verifyAccessToken : option string -> option JWTPayload.

(** [getClientId], the same in the rate limiter and in fraud detection. *)
Definition getClientId (request : Request) : string :=
  (* Fallback to IP address *)
  let fallback :=
    or_string (ip request)
      (or_string (headers_get request "x-forwarded-for")
         (or_string (headers_get request "x-real-ip") "unknown")) in
  (* Try to get authenticated user ID first *)
  let authHeader := headers_get request "authorization" in
  if truthy authHeader then
    let token := split_at Ascii.Space (default "" authHeader) !! 1%nat in
    match verifyAccessToken token with
    | Some payload => "user_" +:+ jwt_userId payload
    | None => fallback
    end
  else fallback.

End ClientId.

Section RateLimiterMiddleware.

Variable verifyAccessToken : option string -> option JWTPayload.
Variable down : RedisOp -> Z -> option Error.

Definition rate_limit_key (request : Request) : string :=
  "rate_limit:" +:+ pathname request +:+ ":" +:+ getClientId verifyAccessToken request.

(** The answer to a request over the limit. *)
Definition too_many_requests (config : RateLimitConfig) (current : RateRecord)
    (now : Z) : Response :=
  {| response_status := 429;
     response_message :=
       if String.eqb (limit_message config) "" then "Too many requests"
       else limit_message config;
     response_retryAfter := Some (ceil_seconds (resetTime current - now));
     response_headers :=
       [("Content-Type", "application/json");
        ("Retry-After", show_Z (ceil_seconds (resetTime current - now)));
        ("X-RateLimit-Limit", show_Z (maxRequests config));
        ("X-RateLimit-Remaining", "0");
        ("X-RateLimit-Reset", show_Z (ceil_seconds (resetTime current)))] |}.

(** The middleware of [RateLimiter.createMiddleware]; [addRateLimitHeaders]
    returns the null it is given. *)
Definition rateLimitMiddleware (config : RateLimitConfig) (request : Request)
    (now : Z) : ST (gmap string (RedisEntry RateRecord)) (option Response) :=
  let key := rate_limit_key request in
  let first_or_expired :=
    run redis_set down key {| count := 1; resetTime := now + windowMs config |}
          (Some (ceil_seconds (windowMs config))) now;
    ret None in
  try_or
    ((* Get current count *)
     do current <- redis_get down key now;
     match current with
     | None => first_or_expired
     | Some current =>
         if resetTime current <? now then first_or_expired
         else if maxRequests config <=? count current then
           (* Rate limit exceeded *)
           ret (Some (too_many_requests config current now))
         else
           (* Increment counter *)
           run redis_set down key
                 {| count := count current + 1; resetTime := resetTime current |}
                 (Some (ceil_seconds (resetTime current - now))) now;
           ret None
     end)
    None (* Allow request if rate limiter fails *).

End RateLimiterMiddleware.

(** ** The fraud detection middleware *)

Record ActivityAlert := {
  alert_clientId : string;
  alert_suspiciousScore : Z;
  alert_url : string;
  alert_method : string;
  alert_userAgent : option string;
  alert_ip : option string;
  alert_timestamp : Z }.

(** The two families of keys, [fraud:<client>] and
    [fraud_alert:<client>:<time>], differ in their sixth character: they
    are kept apart. *)
Record FraudStore := {
  fraud_metrics : gmap string (RedisEntry FraudMetrics);
  fraud_alerts : gmap string (RedisEntry ActivityAlert) }.

Definition on_metrics {A} (m : ST (gmap string (RedisEntry FraudMetrics)) A)
  : ST FraudStore A :=
  fun store =>
    let (r, metrics') := m (fraud_metrics store) in
    (r, {| fraud_metrics := metrics'; fraud_alerts := fraud_alerts store |}).

Definition on_alerts {A} (m : ST (gmap string (RedisEntry ActivityAlert)) A)
  : ST FraudStore A :=
  fun store =>
    let (r, alerts') := m (fraud_alerts store) in
    (r, {| fraud_metrics := fraud_metrics store; fraud_alerts := alerts' |}).

Record FraudConfig := {
  maxRequestsPerMinute : Z;
  maxFailedAttempts : Z;
  suspiciousThreshold : Z }.

Section FraudDetectionMiddleware.

Variable verifyAccessToken : option string -> option JWTPayload.
Variable down : RedisOp -> Z -> option Error.

Definition fraud_alert (clientId : string) (score : Z) (request : Request)
    (now : Z) : ActivityAlert :=
  {| alert_clientId := clientId;
     alert_suspiciousScore := score;
     alert_url := url request;
     alert_method := method request;
     alert_userAgent := headers_get request "user-agent";
     alert_ip := if truthy (ip request) then ip request
                 else headers_get request "x-forwarded-for";
     alert_timestamp := now |}.

(** [flagSuspiciousActivity] of the middleware *)
Definition flagSuspiciousRequest (clientId : string) (score : Z)
    (request : Request) (now : Z) : ST FraudStore unit :=
  let alertKey := "fraud_alert:" +:+ clientId +:+ ":" +:+ show_Z now in
  on_alerts (redis_set down alertKey (fraud_alert clientId score request now)
               (Some 86400) now) (* 24 hours *).

(** The metrics of a request at [now], from what Redis held. *)
Definition updated_metrics (found : option FraudMetrics) (now : Z) : FraudMetrics :=
  let metrics :=
    default {| requestCount := 0; failedAttempts := 0; metrics_patterns := [];
               lastActivity := now |} found in
  (* Reset counters if enough time has passed *)
  let metrics :=
    if 60000 <? now - lastActivity metrics then
      {| requestCount := 0; failedAttempts := 0;
         metrics_patterns := metrics_patterns metrics;
         lastActivity := lastActivity metrics |}
    else metrics in
  (* Increment request count *)
  {| requestCount := requestCount metrics + 1;
     failedAttempts := failedAttempts metrics;
     metrics_patterns := metrics_patterns metrics;
     lastActivity := now |}.

Definition request_blocked : Response :=
  json_response 429 "Request blocked due to suspicious activity".

(** The middleware of [FraudDetectionMiddleware.createMiddleware]. *)
Definition fraudMiddleware (config : FraudConfig) (request : Request) (now : Z)
  : ST FraudStore (option Response) :=
  let clientId := getClientId verifyAccessToken request in
  let metricsKey := "fraud:" +:+ clientId in
  try_or
    (do found <- on_metrics (redis_get down metricsKey now);
     let metrics := updated_metrics found now in
     (* Check for suspicious patterns *)
     let suspiciousScore := calculateSuspiciousScore request metrics in
     (* Block if too suspicious *)
     if suspiciousThreshold config <? suspiciousScore then
       run flagSuspiciousRequest clientId suspiciousScore request now;
       ret (Some request_blocked)
     else
       (* Update metrics *)
       run on_metrics (redis_set down metricsKey metrics (Some 3600) now);
       ret None (* Allow request *))
    None (* Allow request if fraud detection fails *).

End FraudDetectionMiddleware.

(** ** Authentication *)

(** The [name] of an error *)
Definition error_name (e : Error) : string :=
  match e with
  | ZodError _ => "ZodError"
  | TypeError _ => "TypeError"
  | Error_ _ | Wrapped _ _ => "Error"
  end.

Record AuthOptions := {
  required : bool;
  userTypes : option (list UserType) }.

Record AuthResult := {
  auth_user : option JWTPayload;
  auth_error : option Response }.

Definition UserType_eqb (a b : UserType) : bool :=
  match a, b with
  | PLAYER, PLAYER | DEVELOPER, DEVELOPER => true
  | _, _ => false
  end.

Section AuthMiddleware.

(** The stored sessions are objects, whose content is not read. *)
Context {Session : Type}.
Variable verifyAccessToken : option string -> option JWTPayload.
(** The first sixteen hexadecimal digits of the SHA-256 of a token. *)
Variable token_digest : string -> string.
Variable down : RedisOp -> Z -> option Error.
(** The message zod gives to its issues. *)
Variable issues_message : list string -> string.

(** [error.message] *)
Fixpoint error_message (e : Error) : string :=
  match e with
  | ZodError issues => issues_message issues
  | Error_ message => message
  | TypeError message => message
  | Wrapped prefix cause =>
      prefix +:+ error_name cause +:+ ": " +:+ error_message cause
  end.

Definition session_key (userId token : string) : string :=
  "session:" +:+ userId +:+ ":" +:+ token_digest token.

(** A [SecurityError] is thrown for its message; its code is not read. *)
Definition validateUserSession (userId token : string) (now : Z)
  : ST (gmap string (RedisEntry Session)) unit :=
  do session <- redis_get down (session_key userId token) now;
  match session with
  | None => throw (Error_ "Session not found or expired")
  | Some _ => ret tt
  end.

Definition authenticate (request : Request) (now : Z)
  : ST (gmap string (RedisEntry Session)) JWTPayload :=
  let authHeader := headers_get request "authorization" in
  if negb (truthy authHeader) || negb (startsWith (default "" authHeader) "Bearer ")
  then throw (Error_ "Missing or invalid authorization header")
  else
    let token := split_at Ascii.Space (default "" authHeader) !! 1%nat in
    match verifyAccessToken token with
    | None => throw (Error_ "Invalid or expired token")
    | Some payload =>
        (* Additional security checks *)
        run validateUserSession (jwt_userId payload) (default "" token) now;
        ret payload
    end.

Definition insufficient_permissions : Response :=
  json_response 403 "Insufficient permissions".

(** The middleware of [AuthMiddleware.createMiddleware]. *)
Definition authMiddleware (options : AuthOptions) (request : Request) (now : Z)
  : ST (gmap string (RedisEntry Session)) AuthResult :=
  fun store =>
    match authenticate request now store with
    | (Ok user, store') =>
        (* Check user type if specified *)
        match userTypes options with
        | Some allowed =>
            if negb (existsb (UserType_eqb (jwt_userType user)) allowed) then
              (Ok {| auth_user := None;
                     auth_error := Some insufficient_permissions |}, store')
            else (Ok {| auth_user := Some user; auth_error := None |}, store')
        | None => (Ok {| auth_user := Some user; auth_error := None |}, store')
        end
    | (Throw error, store') =>
        if required options then
          (Ok {| auth_user := None;
                 auth_error := Some (json_response 401 (error_message error)) |},
           store')
        else
          (* Allow request without authentication *)
          (Ok {| auth_user := None; auth_error := None |}, store')
    end.

End AuthMiddleware.

(** ** The security stack *)

(** One Redis serves the stack; the keys of its middlewares start with
    [rate_limit:], [fraud:], [fraud_alert:], [csrf:] and [session:], so
    each family is kept in a map of its own. *)
Record StackStore (Session : Type) := {
  stack_rate : gmap string (RedisEntry RateRecord);
  stack_fraud : FraudStore;
  stack_csrf : gmap string (RedisEntry string);
  stack_sessions : gmap string (RedisEntry Session) }.
Arguments stack_rate {Session} _.
Arguments stack_fraud {Session} _.
Arguments stack_csrf {Session} _.
Arguments stack_sessions {Session} _.

(** The stack without request logging and without a validation schema. *)
Record StackConfig := {
  config_rateLimit : option RateLimitConfig;
  config_auth : option AuthOptions;
  config_csrf : bool;
  config_fraudDetection : bool }.

(** What the stack returns: a response, or the user for the handler. *)
Inductive StackResult :=
| Refused (response : Response)
| Passed (user : option JWTPayload).

Section SecurityMiddlewareStack.

Context {Session : Type}.
Variable verifyAccessToken : option string -> option JWTPayload.
Variable token_digest : string -> string.
Variable down : RedisOp -> Z -> option Error.
Variable issues_message : list string -> string.

Definition on_rate {A} (m : ST (gmap string (RedisEntry RateRecord)) A)
  : ST (StackStore Session) A :=
  fun store =>
    let (r, rate') := m (stack_rate store) in
    (r, {| stack_rate := rate'; stack_fraud := stack_fraud store;
           stack_csrf := stack_csrf store;
           stack_sessions := stack_sessions store |}).

Definition on_fraud {A} (m : ST FraudStore A) : ST (StackStore Session) A :=
  fun store =>
    let (r, fraud') := m (stack_fraud store) in
    (r, {| stack_rate := stack_rate store; stack_fraud := fraud';
           stack_csrf := stack_csrf store;
           stack_sessions := stack_sessions store |}).

Definition on_csrf {A} (m : ST (gmap string (RedisEntry string)) A)
  : ST (StackStore Session) A :=
  fun store =>
    let (r, csrf') := m (stack_csrf store) in
    (r, {| stack_rate := stack_rate store; stack_fraud := stack_fraud store;
           stack_csrf := csrf';
           stack_sessions := stack_sessions store |}).

Definition on_sessions {A} (m : ST (gmap string (RedisEntry Session)) A)
  : ST (StackStore Session) A :=
  fun store =>
    let (r, sessions') := m (stack_sessions store) in
    (r, {| stack_rate := stack_rate store; stack_fraud := stack_fraud store;
           stack_csrf := stack_csrf store;
           stack_sessions := sessions' |}).

Definition security_check_failed : Response :=
  json_response 500 "Security check failed".

(** The checks of [createStack], in their order. *)
Definition stack_checks (config : StackConfig) (request : Request) (now : Z)
  : ST (StackStore Session) StackResult :=
  (* 2. Rate Limiting *)
  do rateLimitResult <-
    match config_rateLimit config with
    | Some rateLimit =>
        on_rate (rateLimitMiddleware verifyAccessToken down rateLimit request now)
    | None => ret None
    end;
  match rateLimitResult with
  | Some response => ret (Refused response)
  | None =>
      (* 3. Fraud Detection *)
      do fraudResult <-
        if config_fraudDetection config then
          on_fraud (fraudMiddleware verifyAccessToken down
                      {| maxRequestsPerMinute := 100; maxFailedAttempts := 10;
                         suspiciousThreshold := 70 |} request now)
        else ret None;
      match fraudResult with
      | Some response => ret (Refused response)
      | None =>
          (* 4. CSRF Protection *)
          do csrfResult <-
            if config_csrf config then
              on_csrf (csrfMiddleware verifyAccessToken down request now)
            else ret None;
          match csrfResult with
          | Some response => ret (Refused response)
          | None =>
              (* 5. Authentication *)
              match config_auth config with
              | Some options =>
                  do authResult <-
                    on_sessions (authMiddleware verifyAccessToken token_digest down
                                   issues_message options request now);
                  match auth_error authResult with
                  | Some response => ret (Refused response)
                  | None => ret (Passed (auth_user authResult))
                  end
              | None => ret (Passed None)
              end
          end
      end
  end.

(** The function that [createStack] returns. *)
Definition createStack (config : StackConfig) (request : Request) (now : Z)
  : ST (StackStore Session) StackResult :=
  try_or (stack_checks config request now) (Refused security_check_failed).

End SecurityMiddlewareStack.

(** * Vocabulary of the statements, and a worked scenario *)

(** ** Stake validation *)




(** ** Coin assignment *)

Definition nine_white : list string :=
  ["white_1"; "white_2"; "white_3"; "white_4"; "white_5";
   "white_6"; "white_7"; "white_8"; "white_9"].
Definition nine_black : list string :=
  ["black_1"; "black_2"; "black_3"; "black_4"; "black_5";
   "black_6"; "black_7"; "black_8"; "black_9"].

Definition sample_player (uid : string) : GamePlayer :=
  createGamePlayer
    {| now := 0; random_game := "g"; random_room := "r"; random_move := "m" |}
    uid "PLAYER".

(** ** The timing component of the fraud score *)

Definition move_at (t : Date) : GameMove :=
  {| move_id := "move"; gameId := "game"; playerId := "player";
     moveNumber := 1; move_type := STRIKE;
     data := {| strikerPosition := {| pt_x := 250; pt_y := 400 |};
                targetCoins := []; force := 50; angle := 90;
                result := SUCCESS |};
     timestamp := t |}.

(** ** Flagging suspicious activity *)

Definition high_alert (userId : string) (fraudScore : number) (gameId : string)
  : FraudAlert :=
  {| alert_userId := userId; alert_gameId := gameId; fraudScore := fraudScore;
     severity := HIGH; action := INVESTIGATE;
     description := "Suspicious gameplay patterns detected" |}.

Definition medium_alert (userId : string) (fraudScore : number) (gameId : string)
  : FraudAlert :=
  {| alert_userId := userId; alert_gameId := gameId; fraudScore := fraudScore;
     severity := MEDIUM; action := MONITOR;
     description := "Unusual gameplay patterns detected" |}.

Definition flagged (w : FraudWorld) (new_calls : list FraudCall) : FraudWorld :=
  {| games := games w; fraud_calls := fraud_calls w ++ new_calls |}.

(** ** The operations, step by step *)

(** The game object [createGame] builds, host included. *)
Definition new_game (env : Env) (data : GameData) : Game :=
  {| game_id := generateGameId env; roomId := generateRoomId env;
     gameMode := gd_gameMode data;
     players := [createGamePlayer env (hostId data) "HOST"];
     stakeAmount := gd_stakeAmount data;
     prizePool := calculatePrizePool (gd_stakeAmount data) (maxPlayers data);
     status := WAITING;
     gameState := createInitialGameState env;
     startTime := None; endTime := None; winner := None;
     moves := [];
     createdAt := now env |}.

(** The game object after [game.players.push(player)]. *)
Definition joined (env : Env) (playerId : string) (game : Game) : Game :=
  set_players (players game ++ [createGamePlayer env playerId "PLAYER"]) game.

(** The game object [startGame] saves. *)
Definition started (env : Env) (game : Game) (first : string) : Game :=
  {| game_id := game_id game; roomId := roomId game; gameMode := gameMode game;
     players := assignCoinsToPlayers (players game);
     stakeAmount := stakeAmount game; prizePool := prizePool game;
     status := IN_PROGRESS;
     gameState := set_currentPlayer first
                    (set_board setupInitialBoard (createInitialGameState env));
     startTime := Some (now env); endTime := endTime game;
     winner := winner game; moves := moves game; createdAt := createdAt game |}.

(** The move record [processMove] creates. *)
Definition the_move (env : Env) (gameId playerId : string) (moveData : MoveInput)
    (game : Game) : GameMove :=
  {| move_id := generateMoveId env; gameId := gameId; playerId := playerId;
     moveNumber := Z.of_nat (length (moves game)) + 1;
     move_type := STRIKE;
     data := {| strikerPosition := mi_strikerPosition moveData;
                targetCoins := default [] (mi_targetCoins moveData);
                force := mi_force moveData; angle := mi_angle moveData;
                result := SUCCESS |};
     timestamp := now env |}.

(** The game object [processMove] saves. *)
Definition moved (env : Env) (gameId playerId : string) (moveData : MoveInput)
    (game : Game) (next : string) : Game :=
  set_gameState (set_currentPlayer next (gameState game))
    (set_moves (moves game ++ [the_move env gameId playerId moveData game]) game).

(** The invocations of one settlement, in order. *)
Definition settlement_calls (game : Game) : list Call :=
  [ TransferPrize (default "" (winner game))
                  (Math_floor (prizePool game * 0.9)) (game_id game);
    ReleaseAllStakes (game_id game);
    UpdatePlayerStats game;
    RecordGameCompletion game ].

Definition record_calls (cs : list Call) (w : World) : World :=
  fold_left (fun w c => record_call c w) cs w.

(** ** What an operation writes to storage *)

(** Fetch the game, run the body on it, rethrow under a prefix: the shape
    shared by [joinGame], [startGame] and [processMove]. *)
Definition fetched {A} (fault : Call -> World -> option Error) (prefix : string)
    (gameId : string) (body : ST Frame A) : ST World A :=
  try_catch prefix (
    do found <- getGameById fault gameId;
    match found with
    | None => throw (Error_ "Game not found")
    | Some game => with_object game body
    end).

(** The game an operation may save, given the world it starts in. *)
Inductive writes (env : Env) (w : World) : Op -> Game -> Prop :=
| writes_create data :
    validateGameCreation data = Ok data ->
    writes env w (OpCreateGame data) (new_game env data)
| writes_join gameId playerId game :
    db w !! gameId = Some game ->
    writes env w (OpJoinGame gameId playerId) (joined env playerId game)
| writes_start gameId game first :
    db w !! gameId = Some game ->
    canStartGame game = true ->
    players game !! 0%nat = Some first ->
    writes env w (OpStartGame gameId) (started env game (userId first))
| writes_move gameId playerId moveData game next :
    db w !! gameId = Some game ->
    getNextPlayer (players game) playerId = Ok next ->
    writes env w (OpProcessMove gameId playerId moveData)
           (moved env gameId playerId moveData game next).

Definition saved (game : Game) (w w' : World) : Prop :=
  db w' = <[game_id game := game]> (db w).

(** ** Invariants of the reachable worlds *)

(** A move log numbered 1, 2, 3, ... *)
Definition numbered (log : list GameMove) : Prop :=
  forall i move, log !! i = Some move -> moveNumber move = Z.of_nat i + 1.

(** Every game is stored under its own id, with a numbered move log. *)
Definition consistent (w : World) : Prop :=
  forall gameId game,
    db w !! gameId = Some game -> game_id game = gameId /\ numbered (moves game).

(** ** A worked scenario *)

Definition env_at (t : Date) : Env :=
  {| now := t; random_game := "k3x9q2m1z"; random_room := "A1B2C3";
     random_move := "m0v3m0v3x" |}.

Definition table_for (capacity : number) : GameData :=
  {| hostId := "alice"; gd_gameMode := CLASSIC; gd_stakeAmount := 100;
     isPrivate := false; maxPlayers := capacity; timeLimit := 10 |}.

Definition the_game : string := "game_1000_k3x9q2m1z".

Definition strike : MoveInput :=
  {| mi_strikerPosition := {| pt_x := 250; pt_y := 400 |};
     mi_force := 50; mi_angle := 90; mi_targetCoins := None |}.

Definition created (capacity : number) : World :=
  exec no_fault (env_at 1000) (OpCreateGame (table_for capacity)) empty_world.
Definition joined_by_bob (capacity : number) : World :=
  exec no_fault (env_at 2000) (OpJoinGame the_game "bob") (created capacity).
Definition running (capacity : number) : World :=
  exec no_fault (env_at 5000) (OpStartGame the_game) (joined_by_bob capacity).
Definition after_first_move (capacity : number) : World :=
  exec no_fault (env_at 6000) (OpProcessMove the_game "alice" strike) (running capacity).


(** The game of the scenario as each step leaves it. *)
Definition game_created (capacity : number) : Game :=
  new_game (env_at 1000) (table_for capacity).
Definition game_joined (capacity : number) : Game :=
  joined (env_at 2000) "bob" (game_created capacity).
Definition game_running (capacity : number) : Game :=
  started (env_at 5000) (game_joined capacity) "alice".

(** ** The prize pool *)

(** The stakes locked for a game so far, in order. *)
Definition locked_stakes (gameId : string) (log : list Call) : list number :=
  omap (fun c => match c with
                 | LockPlayerStake _ g stake =>
                     if String.eqb g gameId then Some stake else None
                 | _ => None
                 end) log.

(** A total less the 5% server fee, as [calculatePrizePool] takes it. *)
Definition less_fee (total : number) : number :=
  Math_floor (total - total * 0.05)%float.

Definition sum_numbers (l : list number) : number :=
  fold_left (fun a b => a + b)%float l 0%float.

(** The whole stakes the validation admits, and the capacities. *)
Definition whole_stakes : list Z := map Z.of_nat (seq 10 1991).
Definition capacities : list Z := [2; 3; 4].

(** On binary64 the pool is the exact floor of 95% of the total. *)
Definition pool_is_exact (stake capacity : Z) : bool :=
  PrimFloat.Leibniz.eqb (calculatePrizePool (of_Z stake) (of_Z capacity))
                        (of_Z (stake * capacity * 95 / 100)).

(** ** Joining *)

(** The wallet refuses to lock the stake of one player. *)
Definition lock_refused_for (player : string) : Call -> World -> option Error :=
  fun c _ =>
    match c with
    | LockPlayerStake p _ _ =>
        if String.eqb p player then Some (Error_ "Insufficient funds") else None
    | _ => None
    end.

(** ** Settlement *)

(** The payouts requested for a game, and the releases of its stakes. *)
Definition payouts (gameId : string) (log : list Call) : list (string * number) :=
  omap (fun c => match c with
                 | TransferPrize p a g =>
                     if String.eqb g gameId then Some (p, a) else None
                 | _ => None
                 end) log.
Definition releases (gameId : string) (log : list Call) : list string :=
  omap (fun c => match c with
                 | ReleaseAllStakes g =>
                     if String.eqb g gameId then Some g else None
                 | _ => None
                 end) log.

(** The game of the scenario, won by alice. *)
Definition game_finished : Game :=
  set_endTime (Some 9000)
    (set_winner (Some "alice") (set_status FINISHED (game_running 2))).

(** ** Game service: error paths, invariants and composition *)

(** What every stored game of a reachable world satisfies: it waits or is
    in progress (then with two participants at least), has no winner and
    no end time, and has a participant. *)
Definition unsettled (game : Game) : Prop :=
  (status game = WAITING \/
   status game = IN_PROGRESS /\ (2 <= length (players game))%nat) /\
  winner game = None /\ endTime game = None /\ players game <> [].

(** The wallet refuses to release the stakes. *)
Definition release_refused : Call -> World -> option Error :=
  fun c _ =>
    match c with
    | ReleaseAllStakes _ => Some (Error_ "Wallet unavailable")
    | _ => None
    end.


(** A bound of the creation schema, read on binary64 values. *)
Definition within (lo hi x : number) : Prop :=
  (lo <=? x)%float = true /\ (x <=? hi)%float = true.

(** A game with a given prize pool, won by a given player. *)
Definition won_game (pool : number) (player : string) : Game :=
  {| game_id := "game"; roomId := "room"; gameMode := CLASSIC; players := [];
     stakeAmount := 0; prizePool := pool; status := FINISHED;
     gameState := createInitialGameState (env_at 0);
     startTime := None; endTime := None; winner := Some player;
     moves := []; createdAt := 0 |}.

(** On binary64 the winner's share of the pool of a whole stake and
    capacity is the exact floor of nine tenths of it. *)
Definition payout_is_exact (stake capacity : Z) : bool :=
  PrimFloat.Leibniz.eqb
    (Math_floor (calculatePrizePool (of_Z stake) (of_Z capacity) * 0.9)%float)
    (of_Z (stake * capacity * 95 / 100 * 9 / 10)).

(** ** Fraud score *)

(** The results the accuracy component looks at, and the successes among
    them. *)
Definition recent_results (history : list GameMove) : list GameMove :=
  slice_last 20 history.
Definition successes (history : list GameMove) : nat :=
  length (List.filter (fun m => is_success (result (data m))) (recent_results history)).

(** For [n] results with [k] successes the two thresholds, tested on the
    binary64 quotient, are the exact tests 20k > 19n and 20k > 17n. *)
Definition rate_tests_exact (n k : nat) : bool :=
  let rate := (of_Z (Z.of_nat k) / of_Z (Z.of_nat n))%float in
  Bool.eqb (0.95 <? rate)%float (19 * Z.of_nat n <? 20 * Z.of_nat k) &&
  Bool.eqb (0.85 <? rate)%float (17 * Z.of_nat n <? 20 * Z.of_nat k).

(** A component that contributes nothing. *)
Definition no_physics : GameMove -> number := fun _ => 0%float.
Definition no_behaviour : string -> list GameMove -> number := fun _ _ => 0%float.
Definition no_device : string -> number := fun _ => 0%float.

(** A move of a given result at a given time. *)
Definition move_with (r : MoveResult) (t : Date) : GameMove :=
  {| move_id := "move"; gameId := "game"; playerId := "player";
     moveNumber := 1; move_type := STRIKE;
     data := {| strikerPosition := {| pt_x := 250; pt_y := 400 |};
                targetCoins := []; force := 50; angle := 90; result := r |};
     timestamp := t |}.

(** Twelve successful moves, 300 ms apart. *)
Definition machine_play : list GameMove :=
  map (fun i => move_with SUCCESS (300 * Z.of_nat i)) (seq 0 12).

(** ** Rate limiting *)

(** Successive requests under one key, at the given instants. *)
Fixpoint checkLimits (key : string) (config : RateLimitConfig) (times : list Z)
    (requests : gmap string RateRecord)
  : list LimitResult * gmap string RateRecord :=
  match times with
  | [] => ([], requests)
  | now :: later =>
      let (result, requests') := checkLimit key config now requests in
      let (results, requests'') := checkLimits key config later requests' in
      (result :: results, requests'')
  end.

(** The key has no record, or one whose window is over at [now]. *)
Definition window_over (key : string) (now : Z) (requests : gmap string RateRecord)
  : Prop :=
  match requests !! key with
  | None => True
  | Some record => resetTime record < now
  end.

(** Five attempts in five minutes, the limit on authentication. *)
Definition authLimit : RateLimitConfig :=
  {| windowMs := 5 * 60 * 1000; maxRequests := 5;
     limit_message := "Too many authentication attempts" |}.

(** ** Suspicion score *)

(** A request with a user agent of ten characters at least, both accept
    headers, and a URL free of the suspicious patterns. *)
Definition plain_request (request : Request) : Prop :=
  (10 <= String.length (or_string (headers_get request "user-agent") ""))%nat /\
  truthy (headers_get request "accept-language") = true /\
  truthy (headers_get request "accept-encoding") = true /\
  Forall (fun pattern => includes (toLowerCase (url request)) pattern = false)
         suspiciousPatterns.

(** The patterns that decide: the other four contain "script". *)
Definition deciding_patterns : list string :=
  ["script"; "alert"; "data:"; "onload"; "onerror"; "onclick"].

Definition browser_request (target : string) : Request :=
  {| method := "GET"; url := target; pathname := "/api/games"; ip := Some "10.0.0.1";
     headers := {[ "user-agent" := "Mozilla/5.0 (X11; Linux x86_64)";
                   "accept-language" := "en-IN";
                   "accept-encoding" := "gzip" ]} |}.

(** ** Requests in a row *)

(** The handler at each of the given instants, in order. *)
Fixpoint requests_at {S A} (handler : Z -> ST S A) (times : list Z)
  : ST S (list A) :=
  match times with
  | [] => ret []
  | now :: later =>
      do a <- handler now;
      do rest <- requests_at handler later;
      ret (a :: rest)
  end.

(** A middleware lets the request through. *)
Definition passes (response : option Response) : bool :=
  match response with
  | None => true
  | Some _ => false
  end.

(** Redis holds no record, or one whose window is over at [now]. *)
Definition redis_window_over (key : string) (now : Z)
    (store : gmap string (RedisEntry RateRecord)) : Prop :=
  match redis_live key now store with
  | None => True
  | Some record => resetTime record < now
  end.

(** No token verifies. *)
Definition no_token : option string -> option JWTPayload := fun _ => None.

(** A login attempt from an address. *)
Definition login_request : Request :=
  {| method := "POST"; url := "https://carrom.example/api/auth/login";
     pathname := "/api/auth/login"; ip := Some "10.0.0.1"; headers := ∅ |}.

(** Redis fails every command. *)
Definition redis_lost : RedisOp -> Z -> option Error :=
  fun _ _ => Some (Error_ "Connection is closed.").

(** ** Fraud detection over time *)

Definition empty_fraud_store : FraudStore :=
  {| fraud_metrics := ∅; fraud_alerts := ∅ |}.

(** The stores that the middleware leaves, starting with an empty Redis,
    after any requests at any instants, whichever commands fail. *)
Inductive served (verifyAccessToken : option string -> option JWTPayload)
  : FraudStore -> Prop :=
| served_nothing : served verifyAccessToken empty_fraud_store
| served_request down config request now store :
    served verifyAccessToken store ->
    served verifyAccessToken
      (snd (fraudMiddleware verifyAccessToken down config request now store)).

(** The metrics on which a request at [now] is assessed. *)
Definition assessed (verifyAccessToken : option string -> option JWTPayload)
    (request : Request) (now : Z) (store : FraudStore) : FraudMetrics :=
  updated_metrics
    (redis_live ("fraud:" +:+ getClientId verifyAccessToken request) now
       (fraud_metrics store)) now.

(** The configuration that [SecurityMiddlewareStack] passes. *)
Definition stackFraudConfig : FraudConfig :=
  {| maxRequestsPerMinute := 100; maxFailedAttempts := 10;
     suspiciousThreshold := 70 |}.

(** A request without headers for a URL that holds a suspicious pattern. *)
Definition bare_request : Request :=
  {| method := "GET"; url := "https://carrom.example/api/games?q=<script>";
     pathname := "/api/games"; ip := Some "10.0.0.9"; headers := ∅ |}.

(** Redis fails the writes only. *)
Definition redis_read_only : RedisOp -> Z -> option Error :=
  fun op _ =>
    match op with
    | RedisGet _ => None
    | RedisSet _ => Some (Error_ "READONLY You can't write against a read only replica.")
    end.

(** ** Authentication *)

(** The token of a [Bearer] authorization header. *)
Definition bearer_token (request : Request) : option string :=
  let authHeader := headers_get request "authorization" in
  if truthy authHeader && startsWith (default "" authHeader) "Bearer "
  then split_at Ascii.Space (default "" authHeader) !! 1%nat
  else None.

(** The user type is among those the options ask for, if they ask. *)
Definition type_allowed (options : AuthOptions) (user : JWTPayload) : bool :=
  match userTypes options with
  | Some allowed => existsb (UserType_eqb (jwt_userType user)) allowed
  | None => true
  end.

Definition alice : JWTPayload :=
  {| jwt_userId := "alice"; jwt_email := "alice@example.com";
     jwt_userType := PLAYER |}.

(** Only the token [t0k3n] verifies, as Alice's. *)
Definition alice_token : option string -> option JWTPayload :=
  fun token =>
    match token with
    | Some t => if String.eqb t "t0k3n" then Some alice else None
    | None => None
    end.

Definition alice_request : Request :=
  {| method := "POST"; url := "https://carrom.example/api/admin/payouts";
     pathname := "/api/admin/payouts"; ip := Some "10.0.0.2";
     headers := {[ "authorization" := "Bearer t0k3n" ]} |}.

Definition developers_if_any : AuthOptions :=
  {| required := false; userTypes := Some [DEVELOPER] |}.

Definition digest16 : string -> string := fun _ => "9f86d081884c7d65".

Definition alice_session : gmap string (RedisEntry unit) :=
  {[ "session:alice:9f86d081884c7d65" :=
       {| entry_value := tt; expires_at := None |} ]}.

Definition plain_issues : list string -> string := fun _ => "Validation error".

(** ** A request through the stack *)

(** The session of a request holds its CSRF token. *)
Definition csrf_token_held (verifyAccessToken : option string -> option JWTPayload)
    (request : Request) (now : Z) (tokens : gmap string (RedisEntry string)) : Prop :=
  exists sessionId token,
    getSessionId verifyAccessToken request = Some sessionId /\
    headers_get request "x-csrf-token" = Some token /\ token <> "" /\
    redis_live ("csrf:" +:+ sessionId) now tokens = Some token.

(** The request carries a token that verifies as [user], Redis holds a
    live session for it, and the user's type is among those asked for. *)
Definition session_held {Session} (verifyAccessToken : option string -> option JWTPayload)
    (token_digest : string -> string) (options : AuthOptions) (request : Request)
    (now : Z) (sessions : gmap string (RedisEntry Session)) (user : JWTPayload)
  : Prop :=
  exists token,
    bearer_token request = Some token /\
    verifyAccessToken (Some token) = Some user /\
    redis_live (session_key token_digest (jwt_userId user) token) now sessions
      <> None /\
    type_allowed options user = true.

(** Every check on, players only. *)
Definition players_only : StackConfig :=
  {| config_rateLimit := Some authLimit;
     config_auth := Some {| required := true; userTypes := Some [PLAYER] |};
     config_csrf := true;
     config_fraudDetection := true |}.

Definition alice_move : Request :=
  {| method := "POST"; url := "https://carrom.example/api/games/7/moves";
     pathname := "/api/games/7/moves"; ip := Some "10.0.0.2";
     headers := {[ "authorization" := "Bearer t0k3n";
                   "x-csrf-token" := "c5rf";
                   "user-agent" := "Mozilla/5.0 (X11; Linux x86_64)";
                   "accept-language" := "en-IN";
                   "accept-encoding" := "gzip" ]} |}.

(** Redis with Alice's session and her CSRF token. *)
Definition alice_redis : StackStore unit :=
  {| stack_rate := ∅;
     stack_fraud := empty_fraud_store;
     stack_csrf := {[ "csrf:alice" := {| entry_value := "c5rf";
                                         expires_at := Some 3600000 |} ]};
     stack_sessions := alice_session |}.

(** * Properties *)

(** ** Evaluations *)

Example floor_examples :
  Math_floor 2.5%float = 2%float /\ Math_floor (-0.5)%float = (-1)%float /\
  Math_floor 171%float = 171%float /\ show_Z 42 = "42".
Proof. repeat split; reflexivity. Qed.

Example coins_expanded :
  whiteCoins = ["white_1"; "white_2"; "white_3"; "white_4"; "white_5";
                "white_6"; "white_7"; "white_8"; "white_9"] /\
  blackCoins = ["black_1"; "black_2"; "black_3"; "black_4"; "black_5";
                "black_6"; "black_7"; "black_8"; "black_9"].
Proof. split; reflexivity. Qed.

Example prize_pool_examples :
  calculatePrizePool 100 2 = 190%float /\ calculatePrizePool 100 4 = 380%float /\
  calculatePrizePool 10 2 = 19%float.
Proof. repeat split; reflexivity. Qed.

(** ** The order of binary64 values *)

Section FloatOrder.

Lemma SFcompare_antisym (x y : spec_float) :
  SFcompare y x = option_map CompOpp (SFcompare x y).
Proof.
  destruct x as [sx | sx | | sx mx ex], y as [sy | sy | | sy my ey];
    cbn; try reflexivity;
    try (destruct sx; reflexivity); try (destruct sy; reflexivity);
    try (destruct sx, sy; reflexivity).
  destruct sx, sy; cbn; try reflexivity;
    rewrite (Z.compare_antisym ex ey);
    destruct (ex ?= ey)%Z; cbn; try reflexivity;
    change (Pos.compare_cont Eq my mx) with (my ?= mx)%positive;
    change (Pos.compare_cont Eq mx my) with (mx ?= my)%positive;
    rewrite (Pos.compare_antisym mx my);
    destruct (mx ?= my)%positive; reflexivity.
Qed.

Lemma SFcompare_refl (x : spec_float) :
  x <> S754_nan -> SFcompare x x = Some Eq.
Proof.
  destruct x as [sx | sx | | sx mx ex]; cbn; intros Hx;
    try congruence; try (destruct sx; reflexivity).
  destruct sx; rewrite Z.compare_refl;
    change (Pos.compare_cont Eq mx mx) with (mx ?= mx)%positive;
    rewrite Pos.compare_refl; reflexivity.
Qed.

Lemma leb_not_gt (x y : number) :
  (x <=? y)%float = true -> (y <? x)%float = false.
Proof.
  rewrite FloatAxioms.leb_spec, FloatAxioms.ltb_spec. unfold SFleb, SFltb.
  rewrite (SFcompare_antisym (Prim2SF x) (Prim2SF y)).
  destruct (SFcompare (Prim2SF x) (Prim2SF y)) as [[ | | ] | ];
    cbn; congruence.
Qed.


Lemma leb_not_nan (x y : number) :
  (x <=? y)%float = true -> is_nan x = false /\ is_nan y = false.
Proof.
  unfold is_nan. rewrite FloatAxioms.leb_spec, !FloatAxioms.eqb_spec. unfold SFleb, SFeqb.
  intros H.
  assert (Hx : Prim2SF x <> S754_nan).
  { intros E. rewrite E in H. cbn in H. discriminate. }
  assert (Hy : Prim2SF y <> S754_nan).
  { intros E. rewrite E in H. destruct (Prim2SF x); cbn in H; discriminate. }
  rewrite (SFcompare_refl _ Hx), (SFcompare_refl _ Hy). split; reflexivity.
Qed.

End FloatOrder.

(** ** Stake validation *)





(** The four boundary amounts, evaluated. *)
Example stake_boundaries :
  map validateStakeAmount [10; 2000; 9; 2001]%float = [true; true; false; false] /\
  map (z_number_min_max 10 2000) [10; 2000; 9; 2001]%float
    = [true; true; false; false].
Proof. split; reflexivity. Qed.

(** ** Coin assignment *)

Lemma parity_test (index : nat) :
  (index mod 2 =? 0)%nat = Nat.even index.
Proof.
  destruct (Nat.even index) eqn:E.
  - apply Nat.eqb_eq. apply Nat.even_spec in E. destruct E as [k ->].
    rewrite Nat.mul_comm. apply Nat.Div0.mod_mul.
  - apply Nat.eqb_neq. intros H.
    assert (Hev : Nat.even index = true).
    { apply Nat.even_spec. exists (index / 2)%nat.
      pose proof (Nat.div_mod_eq index 2). lia. }
    congruence.
Qed.

Lemma assignCoinsToPlayers_lookup (players : list GamePlayer) (index : nat) :
  assignCoinsToPlayers players !! index =
    (fun player => set_coins (if Nat.even index then nine_white else nine_black) player)
      <$> players !! index.
Proof.
  unfold assignCoinsToPlayers. rewrite list_lookup_imap.
  destruct (players !! index) as [player | ]; [ | reflexivity ].
  cbn [fmap option_fmap option_map]. rewrite parity_test.
  change whiteCoins with nine_white. change blackCoins with nine_black.
  reflexivity.
Qed.

(** C9. Coin assignment depends on the join order alone: the player at an
    even index receives exactly white_1 to white_9, the player at an odd
    index exactly black_1 to black_9, nine coins each, every other field of
    the player kept; in a two-player game the host (index 0) holds white,
    the joiner (index 1) black, and the host moves first. *)
Theorem C9_coin_assignment (players : list GamePlayer) (index : nat)
    (player : GamePlayer) :
  players !! index = Some player ->
  length (assignCoinsToPlayers players) = length players /\
  (exists assigned,
     assignCoinsToPlayers players !! index = Some assigned /\
     assigned = set_coins (coins assigned) player /\
     coins assigned = (if Nat.even index then nine_white else nine_black) /\
     length (coins assigned) = 9%nat) /\
  (forall host joiner,
     players = [host; joiner] ->
     assignCoinsToPlayers players
       = [set_coins nine_white host; set_coins nine_black joiner] /\
     determineFirstPlayer (assignCoinsToPlayers players) = Ok (userId host)).
Proof.
  intros Hlookup. split; [ | split ].
  - unfold assignCoinsToPlayers. apply length_imap.
  - rewrite assignCoinsToPlayers_lookup, Hlookup. cbn.
    eexists. split; [ reflexivity | ]. cbn.
    split; [ reflexivity | ]. split; [ reflexivity | ].
    destruct (Nat.even index); reflexivity.
  - intros host joiner ->. split; reflexivity.
Qed.

Lemma C9_coin_assignment_witness :
  [sample_player "host"; sample_player "joiner"] !! 1%nat
    = Some (sample_player "joiner") /\
  exists assigned,
    assignCoinsToPlayers [sample_player "host"; sample_player "joiner"] !! 1%nat
      = Some assigned /\
    coins assigned = nine_black.
Proof.
  split; [ reflexivity | ].
  destruct (C9_coin_assignment
              [sample_player "host"; sample_player "joiner"] 1
              (sample_player "joiner") eq_refl)
    as (_ & (assigned & Hassigned & _ & Hcoins & _) & _).
  exists assigned. split; [ exact Hassigned | exact Hcoins ].
Defined.

(** ** Turn advancement *)

Lemma findIndex_from_none {A} (p : A -> bool) (l : list A) (i : Z) :
  (forall a, a ∈ l -> p a = false) -> findIndex_from p l i = -1.
Proof.
  revert i. induction l as [ | a l IH]; intros i Hall; cbn; [ reflexivity | ].
  rewrite (Hall a) by (left). apply IH. intros b Hb. apply Hall. right. exact Hb.
Qed.

Lemma findIndex_from_first {A} (p : A -> bool) (l : list A) (i : Z) (k : nat) (a : A) :
  l !! k = Some a -> p a = true ->
  (forall j b, (j < k)%nat -> l !! j = Some b -> p b = false) ->
  findIndex_from p l i = i + Z.of_nat k.
Proof.
  revert i k. induction l as [ | x l IH]; intros i k Hk Hp Hbefore.
  - discriminate.
  - destruct k as [ | k]; cbn in *.
    + injection Hk as ->. rewrite Hp. lia.
    + rewrite (Hbefore 0%nat x) by (lia || reflexivity).
      rewrite (IH (i + 1) k Hk Hp).
      * lia.
      * intros j b Hj Hb. apply (Hbefore (S j) b); [ lia | exact Hb ].
Qed.

Lemma next_index_in_range (n k : nat) :
  n <> 0%nat ->
  Z.to_nat (Z.rem (Z.of_nat k + 1) (Z.of_nat n)) = ((k + 1) mod n)%nat.
Proof.
  intros Hn. rewrite Z.rem_mod_nonneg by lia.
  replace (Z.of_nat k + 1) with (Z.of_nat (k + 1)) by lia.
  rewrite <- Nat2Z.inj_mod. apply Nat2Z.id.
Qed.

Lemma getNextPlayer_found (players : list GamePlayer) (currentPlayerId : string)
    (i : nat) (current : GamePlayer) :
  players !! i = Some current -> userId current = currentPlayerId ->
  (forall j q, (j < i)%nat -> players !! j = Some q ->
               userId q <> currentPlayerId) ->
  exists p, players !! ((i + 1) mod length players)%nat = Some p /\
            getNextPlayer players currentPlayerId = Ok (userId p).
Proof.
  intros Hi Hid Hfirst.
  assert (Hlen : length players <> 0%nat).
  { apply lookup_lt_Some in Hi. lia. }
  assert (Hlen0 : (Z.of_nat (length players) =? 0) = false) by (apply Z.eqb_neq; lia).
  destruct (lookup_lt_is_Some_2 players ((i + 1) mod length players)%nat) as [p Hp].
  { apply Nat.mod_upper_bound. exact Hlen. }
  exists p. split; [ exact Hp | ].
  unfold getNextPlayer, findIndex. rewrite Hlen0.
  rewrite (findIndex_from_first _ players 0 i current Hi).
  - rewrite Z.add_0_l, (next_index_in_range _ _ Hlen), Hp. reflexivity.
  - apply String.eqb_eq. exact Hid.
  - intros j q Hj Hq. apply String.eqb_neq. exact (Hfirst j q Hj Hq).
Qed.

Lemma getNextPlayer_absent (players : list GamePlayer) (currentPlayerId : string) :
  players <> [] ->
  (forall q, q ∈ players -> userId q <> currentPlayerId) ->
  exists p, players !! 0%nat = Some p /\
            getNextPlayer players currentPlayerId = Ok (userId p).
Proof.
  intros Hne Hnone. destruct players as [ | p rest]; [ congruence | ].
  exists p. split; [ reflexivity | ].
  unfold getNextPlayer, findIndex.
  replace (Z.of_nat (length (p :: rest)) =? 0) with false
    by (symmetry; apply Z.eqb_neq; cbn [length]; lia).
  rewrite findIndex_from_none.
  - change (-1 + 1) with 0. rewrite Z.rem_0_l by (cbn [length]; lia). reflexivity.
  - intros q Hq. apply String.eqb_neq. exact (Hnone q Hq).
Qed.

(** Either the id occurs, at a first index, or it does not occur. *)
Lemma first_occurrence (players : list GamePlayer) (currentPlayerId : string) :
  (forall q, q ∈ players -> userId q <> currentPlayerId) \/
  (exists i current, players !! i = Some current /\
      userId current = currentPlayerId /\
      forall j q, (j < i)%nat -> players !! j = Some q ->
                  userId q <> currentPlayerId).
Proof.
  induction players as [ | x l IH].
  - left. intros q Hq. inversion Hq.
  - destruct (String.eqb (userId x) currentPlayerId) eqn:E.
    + right. exists 0%nat, x. repeat split.
      * apply String.eqb_eq. exact E.
      * intros j q Hj. lia.
    + apply String.eqb_neq in E. destruct IH as [IH | (i & c & Hi & Hc & Hfirst)].
      * left. intros q Hq. apply list_elem_of_In in Hq. destruct Hq as [<- | Hq].
        -- exact E.
        -- apply IH. apply list_elem_of_In. exact Hq.
      * right. exists (S i), c. repeat split; try assumption.
        intros j q Hj Hq. destruct j as [ | j].
        -- cbn in Hq. injection Hq as <-. exact E.
        -- apply (Hfirst j q); [ lia | exact Hq ].
Qed.

Lemma getNextPlayer_nonempty (players : list GamePlayer) (currentPlayerId : string) :
  players <> [] ->
  exists p, p ∈ players /\ getNextPlayer players currentPlayerId = Ok (userId p).
Proof.
  intros Hne.
  destruct (first_occurrence players currentPlayerId)
    as [Hnone | (i & current & Hi & Hid & Hfirst)].
  - destruct (getNextPlayer_absent _ _ Hne Hnone) as (p & Hp & Hres).
    exists p. split; [ | exact Hres ].
    apply list_elem_of_lookup. exists 0%nat. exact Hp.
  - destruct (getNextPlayer_found _ _ _ _ Hi Hid Hfirst) as (p & Hp & Hres).
    exists p. split; [ | exact Hres ].
    apply list_elem_of_lookup. eexists. exact Hp.
Qed.

(** C10. On a non-empty participant list [getNextPlayer] always returns a
    participant: the one at the next index modulo the length when the
    current player is in the list (at its first occurrence), and the first
    participant when the current player's id is not in the list. *)
Theorem C10_getNextPlayer_total (players : list GamePlayer)
    (currentPlayerId : string) :
  players <> [] ->
  (exists p, p ∈ players /\
             getNextPlayer players currentPlayerId = Ok (userId p)) /\
  (forall i current,
     players !! i = Some current -> userId current = currentPlayerId ->
     (forall j q, (j < i)%nat -> players !! j = Some q ->
                  userId q <> currentPlayerId) ->
     exists p, players !! ((i + 1) mod length players)%nat = Some p /\
               getNextPlayer players currentPlayerId = Ok (userId p)) /\
  ((forall q, q ∈ players -> userId q <> currentPlayerId) ->
   exists p, players !! 0%nat = Some p /\
             getNextPlayer players currentPlayerId = Ok (userId p)).
Proof.
  intros Hne. split; [ | split ].
  - apply getNextPlayer_nonempty. exact Hne.
  - intros i current. apply getNextPlayer_found.
  - apply getNextPlayer_absent. exact Hne.
Qed.

Lemma C10_getNextPlayer_total_witness :
  [sample_player "host"; sample_player "joiner"] <> [] /\
  getNextPlayer [sample_player "host"; sample_player "joiner"] "stranger"
    = Ok "host" /\
  exists p, getNextPlayer [sample_player "host"; sample_player "joiner"] "joiner"
            = Ok (userId p).
Proof.
  split; [ discriminate | ]. split; [ reflexivity | ].
  destruct (C10_getNextPlayer_total
              [sample_player "host"; sample_player "joiner"] "joiner")
    as ((p & _ & Hp) & _); [ discriminate | ].
  exists p. exact Hp.
Defined.

(** ** The timing component of the fraud score *)

Lemma slice_last_length {A} (n : nat) (l : list A) :
  length (slice_last n l) = Nat.min n (length l).
Proof. unfold slice_last. rewrite length_drop. lia. Qed.

Lemma intervals_of_length (recentMoves : list GameMove) :
  length (intervals_of recentMoves) = (length recentMoves - 1)%nat.
Proof.
  induction recentMoves as [ | previous rest IH]; [ reflexivity | ].
  destruct rest as [ | current rest]; [ reflexivity | ].
  change (intervals_of (previous :: current :: rest))
    with ((getTime (timestamp current) - getTime (timestamp previous))%float
            :: intervals_of (current :: rest)).
  cbn [length] in *. rewrite IH. lia.
Qed.

Lemma Prim2SF_thresholds :
  Prim2SF 500 = S754_finite false 8796093022208000 (-44) /\
  Prim2SF 2000 = S754_finite false 8796093022208000 (-42) /\
  Prim2SF 50 = S754_finite false 7036874417766400 (-47) /\
  Prim2SF 75 = S754_finite false 5277655813324800 (-46).
Proof. repeat split; vm_compute; reflexivity. Qed.

(** Below 500 is below 2000: the two thresholds have the same mantissa and
    exponents two apart. *)
Lemma ltb_500_2000 (x : number) :
  (x <? 500)%float = true -> (x <? 2000)%float = true.
Proof.
  rewrite !FloatAxioms.ltb_spec. unfold SFltb.
  destruct Prim2SF_thresholds as (-> & -> & _).
  destruct (Prim2SF x) as [s | s | | s m e]; cbn [SFcompare];
    try (destruct s; congruence); try congruence.
  destruct s; [ reflexivity | ].
  destruct (Z.compare_spec e (-44)) as [-> | Hlt | Hgt]; try discriminate.
  - intros _. reflexivity.
  - intros _. destruct (Z.compare_spec e (-42)) as [-> | _ | Hgt];
      [ lia | reflexivity | lia ].
Qed.


(** C7 (as the code has it). The timing component looks at the last ten
    moves of the history. With fewer than three moves there (fewer than two
    intervals) it is 0. Otherwise it is 40 when the variance of the
    intervals is below 100 and their mean is below 2000 ms, and this test
    comes first: a mean below 500 ms with a variance below 100 yields 40.
    Only when the 40-point test fails does a mean below 500 ms yield 60,
    and anything else 0. *)
Theorem C7_timing_component (move : GameMove) (history : list GameMove) :
  let recentMoves := slice_last 10 history in
  let intervals := intervals_of recentMoves in
  let avgInterval := avgInterval_of intervals in
  let variance := variance_of intervals in
  let contribution := analyzeTimingPatterns move history in
  length recentMoves = Nat.min 10 (length history) /\
  length intervals = (length recentMoves - 1)%nat /\
  ((length recentMoves < 3)%nat -> contribution = 0%float) /\
  ((3 <= length recentMoves)%nat ->
     ((variance <? 100)%float = true -> (avgInterval <? 2000)%float = true ->
      contribution = 40%float) /\
     ((variance <? 100)%float = true -> (avgInterval <? 500)%float = true ->
      contribution = 40%float) /\
     ((variance <? 100)%float = false -> (avgInterval <? 500)%float = true ->
      contribution = 60%float) /\
     ((variance <? 100)%float && (avgInterval <? 2000)%float = false ->
      (avgInterval <? 500)%float = false ->
      contribution = 0%float)).
Proof.
  cbn zeta. split; [ apply slice_last_length | ].
  split; [ apply intervals_of_length | ].
  unfold analyzeTimingPatterns. split.
  - intros Hfew. apply Nat.ltb_lt in Hfew. rewrite Hfew. reflexivity.
  - intros Henough. apply Nat.ltb_ge in Henough. rewrite Henough.
    repeat split.
    + intros -> ->. reflexivity.
    + intros -> Hfast. rewrite (ltb_500_2000 _ Hfast). reflexivity.
    + intros -> ->. reflexivity.
    + intros -> ->. reflexivity.
Qed.

(** Three moves 300 ms apart give two intervals, and the component is 40,
    not 0; four moves 300 ms apart give three intervals of mean 300 ms,
    below 500 ms, and the component is 40, not 60. *)
Lemma C7_counterexample :
  let three := map move_at [0; 300; 600] in
  let four := map move_at [0; 300; 600; 900] in
  (length (intervals_of (slice_last 10 three)) = 2%nat /\
   analyzeTimingPatterns (move_at 600) three = 40%float) /\
  (length (intervals_of (slice_last 10 four)) = 3%nat /\
   avgInterval_of (intervals_of (slice_last 10 four)) = 300%float /\
   (300 <? 500)%float = true /\
   analyzeTimingPatterns (move_at 900) four = 40%float /\
   (40 =? 60)%float = false).
Proof. repeat split; reflexivity. Qed.

(** ** Flagging suspicious activity *)


(** ** The operations, step by step *)

Ltac service_simpl :=
  cbn -[record_call calculatePrizePool assignCoinsToPlayers getNextPlayer
        generateGameId generateRoomId generateMoveId Math_floor
        isGameReadyToStart canStartGame].

Ltac unfold_service :=
  unfold createGame, joinGame, joinGame_body, startGame, startGame_body,
    processMove, processMove_body, distributePrizes, getGameById, storeGame,
    updateGame, lockPlayerStake, releaseAllStakes, transferPrize,
    updatePlayerStats, recordGameCompletion, logGameMove, startGameTimer,
    notifyGameStarted, initiateGameStart, with_object, try_catch, bind, this,
    assign, lift, throw, ret, get, modify, of_res, call;
  service_simpl; unfold bind, ret; service_simpl.

Lemma joinGame_body_spec (fault : Call -> World -> option Error) (env : Env)
    (gameId playerId : string) (game : Game) (w : World) :
  joinGame_body fault env gameId playerId (game, w) =
    let game' := joined env playerId game in
    let lock := LockPlayerStake playerId gameId (stakeAmount game) in
    match fault lock w with
    | Some e => (Throw e, (game', w))
    | None =>
        let w1 := record_call lock w in
        match fault (UpdateGame game') w1 with
        | Some e => (Throw e, (game', w1))
        | None =>
            let w2 := record_call (UpdateGame game') w1 in
            (Ok {| join_success := true; join_game := game' |},
             (game',
              if isGameReadyToStart game'
              then record_call (SetTimeout_startGame (game_id game) 3000) w2
              else w2))
        end
    end.
Proof.
  unfold_service.
  destruct (fault _ w); [ reflexivity | ]. service_simpl.
  destruct (fault _ _); [ reflexivity | ]. service_simpl.
  fold (joined env playerId game).
  destruct (isGameReadyToStart _); reflexivity.
Qed.

Lemma startGame_body_spec (fault : Call -> World -> option Error) (env : Env)
    (gameId : string) (game : Game) (w : World) :
  canStartGame game = true ->
  exists first,
    players game !! 0%nat = Some first /\
    let game' := started env game (userId first) in
    startGame_body fault env gameId (game, w) =
      match fault (UpdateGame game') w with
      | Some e => (Throw e, (game', w))
      | None =>
          let w1 := record_call (UpdateGame game') w in
          match fault (StartGameTimer gameId) w1 with
          | Some e => (Throw e, (game', w1))
          | None =>
              let w2 := record_call (StartGameTimer gameId) w1 in
              match fault (NotifyGameStarted game') w2 with
              | Some e => (Throw e, (game', w2))
              | None => (Ok game', (game', record_call (NotifyGameStarted game') w2))
              end
          end
      end.
Proof.
  intros Hcan.
  assert (Hlen : (0 < length (players game))%nat).
  { unfold canStartGame in Hcan. apply andb_prop in Hcan as [_ H].
    apply Nat.leb_le in H. lia. }
  destruct (lookup_lt_is_Some_2 (players game) 0 Hlen) as [first Hfirst].
  exists first. split; [ exact Hfirst | ].
  unfold_service. rewrite Hcan. service_simpl.
  unfold determineFirstPlayer.
  rewrite assignCoinsToPlayers_lookup, Hfirst. service_simpl.
  change (set_gameState _ (set_startTime _ (set_status _ (set_gameState _
            (set_gameState _ (set_players _ game))))))
    with (started env game (userId first)).
  destruct (fault _ w); [ reflexivity | ]. service_simpl.
  destruct (fault _ _); [ reflexivity | ]. service_simpl.
  destruct (fault _ _); reflexivity.
Qed.

Lemma startGame_body_refused (fault : Call -> World -> option Error) (env : Env)
    (gameId : string) (game : Game) (w : World) :
  canStartGame game = false ->
  startGame_body fault env gameId (game, w)
    = (Throw (Error_ "Game cannot be started"), (game, w)).
Proof. intros Hcan. unfold_service. rewrite Hcan. reflexivity. Qed.

Lemma processMove_body_spec (fault : Call -> World -> option Error) (env : Env)
    (gameId playerId : string) (moveData : MoveInput) (game : Game) (w : World) :
  processMove_body fault env gameId playerId moveData (game, w) =
    match getNextPlayer (players game) playerId with
    | Throw e => (Throw e, (game, w))
    | Ok next =>
        let game' := moved env gameId playerId moveData game next in
        let move := the_move env gameId playerId moveData game in
        match fault (UpdateGame game') w with
        | Some e => (Throw e, (game', w))
        | None =>
            let w1 := record_call (UpdateGame game') w in
            match fault (LogGameMove move (gameState game')) w1 with
            | Some e => (Throw e, (game', w1))
            | None =>
                (Ok {| move_success := true; move_result := SUCCESS;
                       newState := gameState game' |},
                 (game', record_call (LogGameMove move (gameState game')) w1))
            end
        end
    end.
Proof.
  unfold_service.
  destruct (getNextPlayer (players game) playerId) as [next | e];
    [ | reflexivity ].
  service_simpl.
  change (set_gameState _ (set_moves _ (set_gameState _ game)))
    with (moved env gameId playerId moveData game next).
  fold (the_move env gameId playerId moveData game).
  destruct (fault _ w); [ reflexivity | ]. service_simpl.
  destruct (fault _ _); reflexivity.
Qed.

Lemma validateGameCreation_cases (data : GameData) :
  validateGameCreation data = Ok data \/
  exists issues, validateGameCreation data = Throw (ZodError issues).
Proof.
  unfold validateGameCreation.
  destruct (_ ++ _)%list; [ left; reflexivity | right; eexists; reflexivity ].
Qed.

Lemma createGame_spec (fault : Call -> World -> option Error) (env : Env)
    (data : GameData) (w : World) :
  validateGameCreation data = Ok data ->
  createGame fault env data w =
    let game := new_game env data in
    let lock := LockPlayerStake (hostId data) (generateGameId env)
                                (gd_stakeAmount data) in
    match fault (StoreGame game) w with
    | Some e => (Throw (Wrapped "Game creation failed: " e), w)
    | None =>
        let w1 := record_call (StoreGame game) w in
        match fault lock w1 with
        | Some e => (Throw (Wrapped "Game creation failed: " e), w1)
        | None => (Ok game, record_call lock w1)
        end
    end.
Proof.
  intros Hvalid. unfold_service. rewrite Hvalid. service_simpl.
  fold (new_game env data).
  destruct (fault _ w); [ reflexivity | ]. service_simpl.
  destruct (fault _ _); reflexivity.
Qed.

Lemma createGame_invalid (fault : Call -> World -> option Error) (env : Env)
    (data : GameData) (w : World) (issues : list string) :
  validateGameCreation data = Throw (ZodError issues) ->
  createGame fault env data w
    = (Throw (Wrapped "Game creation failed: " (ZodError issues)), w).
Proof. intros Hinvalid. unfold_service. rewrite Hinvalid. reflexivity. Qed.

Lemma distributePrizes_no_winner (fault : Call -> World -> option Error)
    (game : Game) (w : World) :
  no_winner game = true ->
  distributePrizes fault game w =
    (Throw (Wrapped "Failed to distribute prizes: " (Error_ "No winner determined")),
     w).
Proof. intros Hnone. unfold_service. rewrite Hnone. reflexivity. Qed.

Lemma distributePrizes_spec (fault : Call -> World -> option Error)
    (game : Game) (w : World) :
  no_winner game = false ->
  (forall c w', c ∈ settlement_calls game -> fault c w' = None) ->
  distributePrizes fault game w = (Ok tt, record_calls (settlement_calls game) w).
Proof.
  intros Hwinner Hquiet. unfold_service. rewrite Hwinner. service_simpl.
  rewrite Hquiet by (unfold settlement_calls; set_solver). service_simpl.
  rewrite Hquiet by (unfold settlement_calls; set_solver). service_simpl.
  rewrite Hquiet by (unfold settlement_calls; set_solver). service_simpl.
  rewrite Hquiet by (unfold settlement_calls; set_solver).
  reflexivity.
Qed.

(** ** What an operation writes to storage *)

Lemma fetched_spec {A} (fault : Call -> World -> option Error) (prefix : string)
    (gameId : string) (body : ST Frame A) (w : World) :
  fetched fault prefix gameId body w =
    match fault (GetGameById gameId) w with
    | Some e => (Throw (Wrapped prefix e), w)
    | None =>
        let w0 := record_call (GetGameById gameId) w in
        match db w !! gameId with
        | None => (Throw (Wrapped prefix (Error_ "Game not found")), w0)
        | Some game =>
            match body (game, w0) with
            | (Ok a, s) => (Ok a, snd s)
            | (Throw e, s) => (Throw (Wrapped prefix e), snd s)
            end
        end
    end.
Proof.
  unfold fetched, try_catch, getGameById, call, get, ret, throw, with_object, bind.
  destruct (fault (GetGameById gameId) w); [ reflexivity | ].
  cbn [db record_call]. destruct (db w !! gameId); [ | reflexivity ].
  destruct (body _) as [[a | e] s]; reflexivity.
Qed.

Lemma joinGame_fetched fault env gameId playerId :
  joinGame fault env gameId playerId =
    fetched fault "Failed to join game: " gameId
            (joinGame_body fault env gameId playerId).
Proof. reflexivity. Qed.

Lemma startGame_fetched fault env gameId :
  startGame fault env gameId =
    fetched fault "Failed to start game: " gameId (startGame_body fault env gameId).
Proof. reflexivity. Qed.

Lemma processMove_fetched fault env gameId playerId moveData :
  processMove fault env gameId playerId moveData =
    fetched fault "Failed to process move: " gameId
            (processMove_body fault env gameId playerId moveData).
Proof. reflexivity. Qed.

(** Every operation leaves storage as it was or saves one game. *)
Lemma exec_db (fault : Call -> World -> option Error) (env : Env) (op : Op)
    (w : World) :
  db (exec fault env op w) = db w \/
  exists game, writes env w op game /\ saved game w (exec fault env op w).
Proof.
  unfold saved. destruct op as [data | gameId playerId | gameId
                               | gameId playerId moveData | game]; cbn [exec].
  - destruct (validateGameCreation_cases data) as [Hvalid | [issues Hinvalid]].
    + rewrite (createGame_spec _ _ _ _ Hvalid). cbn zeta.
      destruct (fault _ w); [ left; reflexivity | ].
      right. exists (new_game env data). split; [ constructor; exact Hvalid | ].
      destruct (fault _ _); reflexivity.
    + rewrite (createGame_invalid _ _ _ _ _ Hinvalid). left. reflexivity.
  - rewrite joinGame_fetched, fetched_spec.
    destruct (fault _ w); [ left; reflexivity | ]. cbn zeta.
    destruct (db w !! gameId) as [game | ] eqn:Hgame; [ | left; reflexivity ].
    rewrite joinGame_body_spec. cbn zeta.
    destruct (fault _ _); [ left; reflexivity | ].
    destruct (fault _ _); [ left; reflexivity | ].
    right. exists (joined env playerId game).
    split; [ constructor; exact Hgame | ].
    cbn [snd]. destruct (isGameReadyToStart _); reflexivity.
  - rewrite startGame_fetched, fetched_spec.
    destruct (fault _ w); [ left; reflexivity | ]. cbn zeta.
    destruct (db w !! gameId) as [game | ] eqn:Hgame; [ | left; reflexivity ].
    destruct (canStartGame game) eqn:Hcan.
    + destruct (startGame_body_spec fault env gameId game
                  (record_call (GetGameById gameId) w) Hcan)
        as (first & Hfirst & ->).
      cbn zeta.
      destruct (fault _ _); [ left; reflexivity | ].
      right. exists (started env game (userId first)).
      split; [ econstructor; eassumption | ].
      destruct (fault _ _); [ reflexivity | ].
      destruct (fault _ _); reflexivity.
    + rewrite (startGame_body_refused _ _ _ _ _ Hcan). left. reflexivity.
  - rewrite processMove_fetched, fetched_spec.
    destruct (fault _ w); [ left; reflexivity | ]. cbn zeta.
    destruct (db w !! gameId) as [game | ] eqn:Hgame; [ | left; reflexivity ].
    rewrite processMove_body_spec.
    destruct (getNextPlayer (players game) playerId) as [next | e] eqn:Hnext;
      [ | left; reflexivity ].
    cbn zeta.
    destruct (fault _ _); [ left; reflexivity | ].
    right. exists (moved env gameId playerId moveData game next).
    split; [ econstructor; eassumption | ].
    destruct (fault _ _); reflexivity.
  - left. unfold_service.
    destruct (no_winner game); [ reflexivity | ]. service_simpl.
    repeat (destruct (fault _ _); [ reflexivity | service_simpl ]).
    reflexivity.
Qed.

(** ** Invariants of the reachable worlds *)

Lemma numbered_nil : numbered [].
Proof. intros i move H. rewrite lookup_nil in H. discriminate. Qed.

Lemma numbered_snoc (log : list GameMove) (move : GameMove) :
  numbered log -> moveNumber move = Z.of_nat (length log) + 1 ->
  numbered (log ++ [move]).
Proof.
  intros Hlog Hmove i m Hi.
  destruct (decide (i < length log)%nat) as [Hlt | Hge].
  - rewrite lookup_app_l in Hi by exact Hlt. exact (Hlog i m Hi).
  - rewrite lookup_app_r in Hi by lia.
    destruct (i - length log)%nat as [ | k] eqn:Hk; cbn in Hi; [ | discriminate ].
    injection Hi as <-. rewrite Hmove. f_equal. lia.
Qed.

(** What a saved game has in common with the stored game it came from. *)
Lemma writes_from (env : Env) (w : World) (op : Op) (game' : Game) :
  consistent w -> writes env w op game' ->
  numbered (moves game') /\
  ((exists data, op = OpCreateGame data /\ game' = new_game env data) \/
   (exists game,
      db w !! game_id game' = Some game /\
      prizePool game' = prizePool game /\
      stakeAmount game' = stakeAmount game /\
      (status game' = status game \/
       op = OpStartGame (game_id game') /\ status game = WAITING /\
       status game' = IN_PROGRESS /\ (2 <= length (players game))%nat /\
       length (players game') = length (players game)))).
Proof.
  intros Hw Hwrites.
  destruct Hwrites as [data Hvalid | gameId playerId game Hgame
                      | gameId game first Hgame Hcan Hfirst
                      | gameId playerId moveData game next Hgame Hnext].
  - split; [ apply numbered_nil | left; eauto ].
  - destruct (Hw _ _ Hgame) as [Hid Hlog]. split; [ exact Hlog | ].
    right. exists game. cbn. rewrite Hid. repeat split; auto.
  - destruct (Hw _ _ Hgame) as [Hid Hlog]. split; [ exact Hlog | ].
    right. exists game. cbn. rewrite Hid.
    split; [ exact Hgame | ]. split; [ reflexivity | ]. split; [ reflexivity | ].
    right. unfold canStartGame in Hcan. apply andb_prop in Hcan as [Hst Hlen].
    apply Nat.leb_le in Hlen.
    repeat split; auto.
    + destruct (status game); cbn in Hst; congruence.
    + unfold assignCoinsToPlayers. apply length_imap.
  - destruct (Hw _ _ Hgame) as [Hid Hlog]. split.
    + cbn. apply numbered_snoc; [ exact Hlog | reflexivity ].
    + right. exists game. cbn. rewrite Hid. repeat split; auto.
Qed.

Lemma exec_consistent (fault : Call -> World -> option Error) (env : Env)
    (op : Op) (w : World) :
  consistent w -> consistent (exec fault env op w).
Proof.
  intros Hw gameId game Hlookup.
  destruct (exec_db fault env op w) as [Hsame | (game' & Hwrites & Hsaved)].
  - rewrite Hsame in Hlookup. exact (Hw _ _ Hlookup).
  - unfold saved in Hsaved. rewrite Hsaved in Hlookup.
    destruct (decide (game_id game' = gameId)) as [<- | Hne].
    + rewrite lookup_insert_eq in Hlookup. injection Hlookup as <-.
      split; [ reflexivity | ].
      exact (proj1 (writes_from _ _ _ _ Hw Hwrites)).
    + rewrite lookup_insert_ne in Hlookup by exact Hne. exact (Hw _ _ Hlookup).
Qed.

Lemma reachable_consistent (w : World) : reachable w -> consistent w.
Proof.
  induction 1 as [ | w fault env op _ IH].
  - intros gameId game H. cbn in H. rewrite lookup_empty in H. discriminate.
  - apply exec_consistent. exact IH.
Qed.

(** How one operation changes one stored game. *)
Lemma exec_game (fault : Call -> World -> option Error) (env : Env) (op : Op)
    (w : World) (gameId : string) (game game' : Game) :
  consistent w ->
  db w !! gameId = Some game ->
  db (exec fault env op w) !! gameId = Some game' ->
  game' = game \/
  (exists data, op = OpCreateGame data /\ generateGameId env = gameId /\
                game' = new_game env data) \/
  (prizePool game' = prizePool game /\
   stakeAmount game' = stakeAmount game /\
   (status game' = status game \/
    op = OpStartGame gameId /\ status game = WAITING /\
    status game' = IN_PROGRESS /\ (2 <= length (players game))%nat /\
    length (players game') = length (players game))).
Proof.
  intros Hw Hgame Hgame'.
  destruct (exec_db fault env op w) as [Hsame | (saved_game & Hwrites & Hsaved)].
  - left. rewrite Hsame in Hgame'. congruence.
  - unfold saved in Hsaved. rewrite Hsaved in Hgame'.
    destruct (decide (game_id saved_game = gameId)) as [Hid | Hne].
    + subst gameId. rewrite lookup_insert_eq in Hgame'. injection Hgame' as <-.
      destruct (writes_from _ _ _ _ Hw Hwrites)
        as [_ [(data & -> & ->) | (base & Hbase & Hrest)]].
      * right. left. exists data. repeat split; reflexivity.
      * right. right. rewrite Hgame in Hbase. injection Hbase as <-. exact Hrest.
    + left. rewrite lookup_insert_ne in Hgame' by exact Hne. congruence.
Qed.

(** ** A worked scenario *)

Lemma scenario_reachable (capacity : number) :
  reachable (created capacity) /\ reachable (joined_by_bob capacity) /\
  reachable (running capacity) /\ reachable (after_first_move capacity).
Proof.
  assert (H1 : reachable (created capacity)) by (apply reachable_step, reachable_init).
  assert (H2 : reachable (joined_by_bob capacity)) by (apply reachable_step, H1).
  assert (H3 : reachable (running capacity)) by (apply reachable_step, H2).
  repeat split; try assumption. apply reachable_step, H3.
Defined.

Lemma scenario_games :
  db (created 4) !! the_game = Some (game_created 4) /\
  db (joined_by_bob 4) !! the_game = Some (game_joined 4) /\
  db (running 4) !! the_game = Some (game_running 4) /\
  db (running 2) !! the_game = Some (game_running 2).
Proof. repeat split; vm_compute; reflexivity. Qed.

(** ** Leaving the waiting state *)




(** ** The move log *)




(** ** The prize pool *)

Lemma pool_exact_table :
  forallb (fun stake => forallb (pool_is_exact stake) capacities) whole_stakes
    = true.
Proof. vm_compute. reflexivity. Qed.

(** For a whole stake and a whole capacity within the validated bounds,
    rounding in binary64 never shows: the pool is the total less the fee,
    rounded down. *)
Lemma calculatePrizePool_whole (stake capacity : Z) :
  10 <= stake <= 2000 -> 2 <= capacity <= 4 ->
  calculatePrizePool (of_Z stake) (of_Z capacity)
    = of_Z (stake * capacity * 95 / 100).
Proof.
  intros Hstake Hcapacity.
  pose proof pool_exact_table as Htable.
  rewrite forallb_forall in Htable.
  assert (Hin : In stake whole_stakes).
  { unfold whole_stakes. apply in_map_iff. exists (Z.to_nat stake).
    split; [ lia | apply in_seq; lia ]. }
  specialize (Htable stake Hin). rewrite forallb_forall in Htable.
  assert (Hc : In capacity capacities) by (unfold capacities; cbn; lia).
  apply FloatAxioms.Leibniz.eqb_spec. exact (Htable capacity Hc).
Qed.

(** C2 (as the code has it). The prize pool is computed once, when the game
    is created, from the stake and the capacity asked for:
    floor(stake * maxPlayers - 5%), which for whole stakes and capacities
    is exactly the floor of 95% of their product. At that moment only the
    host is in the game. No later operation changes the prize pool or the
    stake of a stored game (an operation can only replace them by creating
    a game under the same id). For a stake of 100 and a capacity of 2 the
    pool is 190, that is 200 less the fee of 10. *)
Theorem C2_prize_pool_set_at_creation (fault : Call -> World -> option Error)
    (env : Env) (op : Op) (w : World) (gameId : string) (game game' : Game) :
  reachable w ->
  db w !! gameId = Some game ->
  db (exec fault env op w) !! gameId = Some game' ->
  (forall data, op = OpCreateGame data -> generateGameId env <> gameId) ->
  (prizePool game' = prizePool game /\ stakeAmount game' = stakeAmount game) /\
  (forall fault0 env0 data w0 made w1,
     createGame fault0 env0 data w0 = (Ok made, w1) ->
     prizePool made = calculatePrizePool (gd_stakeAmount data) (maxPlayers data) /\
     stakeAmount made = gd_stakeAmount data /\
     map userId (players made) = [hostId data] /\
     status made = WAITING /\
     db w1 !! game_id made = Some made) /\
  (forall stake capacity : Z,
     10 <= stake <= 2000 -> 2 <= capacity <= 4 ->
     calculatePrizePool (of_Z stake) (of_Z capacity)
       = of_Z (stake * capacity * 95 / 100)) /\
  calculatePrizePool 100 2 = 190%float /\
  less_fee 200 = 190%float.
Proof.
  intros Hreach Hgame Hgame' Hfresh.
  split; [ | split; [ | split; [ exact calculatePrizePool_whole | ] ] ].
  - destruct (exec_game fault env op w gameId game game'
                (reachable_consistent _ Hreach) Hgame Hgame')
      as [-> | [(data & Hop & Hid & _) | (Hpool & Hstake & _)]].
    + split; reflexivity.
    + destruct (Hfresh data Hop Hid).
    + split; assumption.
  - intros fault0 env0 data w0 made w1 Hcreate.
    destruct (validateGameCreation_cases data) as [Hvalid | [issues Hinvalid]].
    + rewrite (createGame_spec _ _ _ _ Hvalid) in Hcreate. cbn zeta in Hcreate.
      destruct (fault0 _ w0); [ discriminate | ].
      destruct (fault0 _ _); [ discriminate | ].
      injection Hcreate as <- <-. repeat split.
      cbn [db record_call]. apply lookup_insert_eq.
    + rewrite (createGame_invalid _ _ _ _ _ Hinvalid) in Hcreate. discriminate.
  - split; reflexivity.
Qed.

Lemma C2_prize_pool_set_at_creation_witness :
  prizePool (game_running 4) = prizePool (game_joined 4) /\
  stakeAmount (game_running 4) = stakeAmount (game_joined 4).
Proof.
  destruct scenario_games as (_ & Hjoined & Hrunning & _).
  refine (proj1 (C2_prize_pool_set_at_creation no_fault (env_at 5000)
                   (OpStartGame the_game) (joined_by_bob 4) the_game
                   (game_joined 4) (game_running 4)
                   (proj1 (proj2 (scenario_reachable 4))) Hjoined Hrunning _)).
  intros data Hop. discriminate Hop.
Defined.

(** A game created for four players at a stake of 100 has a prize pool of
    380 from its creation on, when 100 is locked; it still has 380 when it
    runs with two participants and 200 locked, where the stakes locked less
    the fee would be 190. And a game for two has its pool of 190 before it
    fills, with the host's 100 alone locked. *)
Lemma C2_counterexample :
  (prizePool <$> db (created 4) !! the_game = Some 380%float /\
   locked_stakes the_game (calls (created 4)) = [100%float]) /\
  (status <$> db (running 4) !! the_game = Some IN_PROGRESS /\
   prizePool <$> db (running 4) !! the_game = Some 380%float /\
   locked_stakes the_game (calls (running 4)) = [100%float; 100%float] /\
   less_fee (sum_numbers (locked_stakes the_game (calls (running 4)))) = 190%float /\
   (380 =? 190)%float = false) /\
  (prizePool <$> db (created 2) !! the_game = Some 190%float /\
   (fun game => length (players game)) <$> db (created 2) !! the_game = Some 1%nat /\
   less_fee (sum_numbers (locked_stakes the_game (calls (created 2)))) = 95%float).
Proof. repeat split; vm_compute; reflexivity. Qed.

(** ** Joining *)



(** ** Settlement *)

Lemma record_calls_log (cs : list Call) (w : World) :
  calls (record_calls cs w) = calls w ++ cs /\ 
  (Forall (fun c => match c with StoreGame _ | UpdateGame _ => False | _ => True end) cs ->
   db (record_calls cs w) = db w).
Proof.
  revert w. induction cs as [ | c cs IH]; intros w.
  - cbn. rewrite app_nil_r. split; reflexivity.
  - cbn [record_calls fold_left]. destruct (IH (record_call c w)) as [Hcalls Hdb].
    unfold record_calls in *. rewrite Hcalls. cbn [calls record_call].
    rewrite <- app_assoc. split; [ reflexivity | ].
    intros Hall. inversion Hall as [ | ? ? Hc Hcs]; subst.
    rewrite (Hdb Hcs). destruct c; cbn in *; tauto.
Qed.

(** C1 (as the code has it). Settlement keeps no record of having run.
    Without a winner it throws and does nothing. With a winner, and the
    collaborators working, every invocation requests the same payout of
    floor(0.9 * prizePool) to the winner, then the release of the stakes,
    the statistics update and the completion record: invoked twice, it
    requests the payout twice and the release twice. *)
Theorem C1_settlement_repeats (fault : Call -> World -> option Error)
    (game : Game) (w : World) :
  let once := record_calls (settlement_calls game) w in
  let twice := record_calls (settlement_calls game) once in
  (no_winner game = true ->
   distributePrizes fault game w =
     (Throw (Wrapped "Failed to distribute prizes: "
                     (Error_ "No winner determined")), w)) /\
  (no_winner game = false ->
   (forall c w', c ∈ settlement_calls game -> fault c w' = None) ->
   distributePrizes fault game w = (Ok tt, once) /\
   distributePrizes fault game once = (Ok tt, twice) /\
   calls once = calls w ++ settlement_calls game /\
   calls twice = calls w ++ settlement_calls game ++ settlement_calls game /\
   db twice = db w).
Proof.
  cbn zeta. split.
  - apply distributePrizes_no_winner.
  - intros Hwinner Hquiet.
    rewrite !(distributePrizes_spec fault game _ Hwinner Hquiet).
    repeat split.
    + apply record_calls_log.
    + rewrite !(proj1 (record_calls_log _ _)), <- app_assoc. reflexivity.
Qed.

(** Settling the finished game twice requests two payouts of 171 to alice
    and two releases of the stakes. *)
Lemma C1_counterexample :
  let first := distributePrizes no_fault game_finished (running 2) in
  let second := distributePrizes no_fault game_finished (snd first) in
  status game_finished = FINISHED /\ winner game_finished = Some "alice" /\
  fst first = Ok tt /\
  payouts the_game (calls (snd first)) = [("alice", 171%float)] /\
  releases the_game (calls (snd first)) = [the_game] /\
  fst second = Ok tt /\
  payouts the_game (calls (snd second))
    = [("alice", 171%float); ("alice", 171%float)] /\
  releases the_game (calls (snd second)) = [the_game; the_game].
Proof. repeat split; vm_compute; reflexivity. Qed.

(** ** Flagging and the games *)


(** ** Game service: error paths *)

(** X1. When the game was stored and the lock of the host's stake then
    throws, [createGame] throws, yet the game stays stored, waiting, with
    the host as participant and no stake locked for it. *)
Theorem createGame_stored_without_lock (fault : Call -> World -> option Error)
    (env : Env) (data : GameData) (w : World) (e : Error) :
  validateGameCreation data = Ok data ->
  fault (StoreGame (new_game env data)) w = None ->
  fault (LockPlayerStake (hostId data) (generateGameId env) (gd_stakeAmount data))
        (record_call (StoreGame (new_game env data)) w) = Some e ->
  exists w',
    createGame fault env data w
      = (Throw (Wrapped "Game creation failed: " e), w') /\
    db w' !! generateGameId env = Some (new_game env data) /\
    status (new_game env data) = WAITING /\
    map userId (players (new_game env data)) = [hostId data] /\
    calls w' = calls w ++ [StoreGame (new_game env data)] /\
    locked_stakes (generateGameId env) (calls w')
      = locked_stakes (generateGameId env) (calls w).
Proof.
  intros Hvalid Hstore Hlock.
  rewrite (createGame_spec _ _ _ _ Hvalid). cbn zeta. rewrite Hstore, Hlock.
  eexists. split; [ reflexivity | ].
  cbn [db calls record_call]. split; [ apply lookup_insert_eq | ].
  repeat split.
  unfold locked_stakes. rewrite omap_app. cbn. apply app_nil_r.
Qed.

Lemma createGame_stored_without_lock_witness :
  exists w',
    fst (createGame (lock_refused_for "alice") (env_at 1000) (table_for 2)
                    empty_world)
      = Throw (Wrapped "Game creation failed: " (Error_ "Insufficient funds")) /\
    createGame (lock_refused_for "alice") (env_at 1000) (table_for 2) empty_world
      = (Throw (Wrapped "Game creation failed: " (Error_ "Insufficient funds")), w') /\
    db w' !! the_game = Some (game_created 2).
Proof.
  destruct (createGame_stored_without_lock (lock_refused_for "alice")
              (env_at 1000) (table_for 2) empty_world
              (Error_ "Insufficient funds") eq_refl eq_refl eq_refl)
    as (w' & Hthrow & Hdb & _).
  exists w'. rewrite Hthrow. repeat split. exact Hdb.
Defined.







(** ** Game service: invariants *)

Lemma writes_unsettled (env : Env) (w : World) (op : Op) (game' : Game) :
  (forall gameId game, db w !! gameId = Some game -> unsettled game) ->
  writes env w op game' -> unsettled game'.
Proof.
  intros Hw Hwrites.
  destruct Hwrites as [data Hvalid | gameId playerId game Hgame
                      | gameId game first Hgame Hcan Hfirst
                      | gameId playerId moveData game next Hgame Hnext].
  - repeat split; try (left; reflexivity). discriminate.
  - destruct (Hw _ _ Hgame) as (Hst & Hwin & Hend & Hne).
    repeat split; try assumption.
    + destruct Hst as [Hst | [Hst Hlen]]; [ left; exact Hst | right ].
      split; [ exact Hst | ]. cbn. rewrite length_app. lia.
    + cbn. destruct (players game); discriminate.
  - destruct (Hw _ _ Hgame) as (_ & Hwin & Hend & Hne).
    unfold canStartGame in Hcan. apply andb_prop in Hcan as [_ Hlen].
    apply Nat.leb_le in Hlen.
    repeat split; try assumption.
    + right. split; [ reflexivity | ]. cbn.
      unfold assignCoinsToPlayers. rewrite length_imap. exact Hlen.
    + cbn. intros Hnil. apply (f_equal length) in Hnil.
      unfold assignCoinsToPlayers in Hnil. rewrite length_imap in Hnil.
      cbn in Hnil. lia.
  - destruct (Hw _ _ Hgame) as (Hst & Hwin & Hend & Hne).
    repeat split; assumption.
Qed.

Lemma reachable_unsettled (w : World) :
  reachable w -> forall gameId game, db w !! gameId = Some game -> unsettled game.
Proof.
  induction 1 as [ | w fault env op _ IH]; intros gameId game Hlookup.
  - cbn in Hlookup. rewrite lookup_empty in Hlookup. discriminate.
  - destruct (exec_db fault env op w) as [Hsame | (game' & Hwrites & Hsaved)].
    + rewrite Hsame in Hlookup. exact (IH _ _ Hlookup).
    + unfold saved in Hsaved. rewrite Hsaved in Hlookup.
      destruct (decide (game_id game' = gameId)) as [<- | Hne].
      * rewrite lookup_insert_eq in Hlookup. injection Hlookup as <-.
        exact (writes_unsettled _ _ _ _ IH Hwrites).
      * rewrite lookup_insert_ne in Hlookup by exact Hne. exact (IH _ _ Hlookup).
Qed.

(** X5. No operation of the service ever finishes a game: in every
    reachable world a stored game is WAITING, or IN_PROGRESS with at least
    two participants, has a participant, no winner and no end time. So
    settling a stored game always throws 'No winner determined' and asks
    the wallet for nothing, and a move on it never fails for want of a
    next player. *)
Theorem stored_games_never_finish (w : World) (gameId : string) (game : Game) :
  reachable w ->
  db w !! gameId = Some game ->
  unsettled game /\
  (forall fault w0,
     distributePrizes fault game w0 =
       (Throw (Wrapped "Failed to distribute prizes: "
                       (Error_ "No winner determined")), w0)) /\
  (forall playerId, exists p,
     p ∈ players game /\ getNextPlayer (players game) playerId = Ok (userId p)).
Proof.
  intros Hreach Hgame.
  pose proof (reachable_unsettled _ Hreach _ _ Hgame) as Hlive.
  split; [ exact Hlive | ].
  destruct Hlive as (_ & Hwin & _ & Hne). split.
  - intros fault w0. apply distributePrizes_no_winner.
    unfold no_winner. rewrite Hwin. reflexivity.
  - intros playerId. apply getNextPlayer_nonempty. exact Hne.
Qed.

Lemma stored_games_never_finish_witness :
  unsettled (game_running 2) /\
  fst (distributePrizes no_fault (game_running 2) (after_first_move 2))
    = Throw (Wrapped "Failed to distribute prizes: "
                     (Error_ "No winner determined")).
Proof.
  destruct scenario_games as (_ & _ & _ & Hrunning).
  destruct (stored_games_never_finish (running 2) the_game (game_running 2)
              (proj1 (proj2 (proj2 (scenario_reachable 2)))) Hrunning)
    as (Hlive & Hsettle & _).
  split; [ exact Hlive | ]. rewrite Hsettle. reflexivity.
Defined.

(** ** Game service: turn rotation *)





(** ** Game service: settlement *)

(** X7. Settlement can stop half way: when the payout request went through
    and the release of the stakes then throws, [distributePrizes] throws
    with the payout logged and no release, no statistics and no completion
    record; nothing is undone. *)
Theorem settlement_stops_half_way (fault : Call -> World -> option Error)
    (game : Game) (w : World) (e : Error) :
  let payout := TransferPrize (default "" (winner game))
                  (Math_floor (prizePool game * 0.9)) (game_id game) in
  no_winner game = false ->
  fault payout w = None ->
  fault (ReleaseAllStakes (game_id game)) (record_call payout w) = Some e ->
  distributePrizes fault game w
    = (Throw (Wrapped "Failed to distribute prizes: " e), record_call payout w) /\
  calls (record_call payout w) = calls w ++ [payout] /\
  payouts (game_id game) (calls (record_call payout w))
    = payouts (game_id game) (calls w)
      ++ [(default "" (winner game), Math_floor (prizePool game * 0.9)%float)] /\
  releases (game_id game) (calls (record_call payout w))
    = releases (game_id game) (calls w).
Proof.
  cbn zeta. intros Hwinner Hpay Hrelease. split; [ | split; [ reflexivity | ] ].
  - unfold_service. rewrite Hwinner. service_simpl.
    rewrite Hpay. service_simpl. rewrite Hrelease. reflexivity.
  - cbn [calls record_call]. unfold payouts, releases. rewrite !omap_app. cbn.
    rewrite String.eqb_refl, app_nil_r. split; reflexivity.
Qed.

Lemma settlement_stops_half_way_witness :
  fst (distributePrizes release_refused game_finished (running 2))
    = Throw (Wrapped "Failed to distribute prizes: " (Error_ "Wallet unavailable")) /\
  payouts the_game
    (calls (snd (distributePrizes release_refused game_finished (running 2))))
    = [("alice", 171%float)].
Proof.
  destruct (settlement_stops_half_way release_refused game_finished (running 2)
              (Error_ "Wallet unavailable") eq_refl eq_refl eq_refl)
    as (Hthrow & _ & Hpaid & _).
  rewrite Hthrow. split; [ reflexivity | ]. cbn [snd]. exact Hpaid.
Defined.

Lemma payout_exact_table :
  forallb (fun stake => forallb (payout_is_exact stake) capacities) whole_stakes
    = true.
Proof. vm_compute. reflexivity. Qed.

(** X8. For a whole stake between 10 and 2000 and a capacity between 2 and
    4, settlement pays one prize, to the winner, of exactly the floor of
    nine tenths of the prize pool; it is positive, at most the pool, and
    the pool is less than the stakes of a full table: no value is
    created. *)
Theorem payout_below_stakes (stake capacity : Z) (player : string) :
  10 <= stake <= 2000 -> 2 <= capacity <= 4 ->
  let pool := stake * capacity * 95 / 100 in
  calculatePrizeDistribution
    (won_game (calculatePrizePool (of_Z stake) (of_Z capacity)) player)
    = [ {| prize_playerId := player; amount := of_Z (pool * 9 / 10) |} ] /\
  0 < pool * 9 / 10 <= pool /\ pool < stake * capacity.
Proof.
  intros Hstake Hcapacity. cbn zeta. split.
  - unfold calculatePrizeDistribution. cbn [won_game prizePool winner default].
    f_equal. f_equal.
    pose proof payout_exact_table as Htable.
    rewrite forallb_forall in Htable.
    assert (Hin : In stake whole_stakes).
    { unfold whole_stakes. apply in_map_iff. exists (Z.to_nat stake).
      split; [ lia | apply in_seq; lia ]. }
    specialize (Htable stake Hin). rewrite forallb_forall in Htable.
    assert (Hc : In capacity capacities) by (unfold capacities; cbn; lia).
    apply FloatAxioms.Leibniz.eqb_spec. exact (Htable capacity Hc).
  - assert (Htotal : 20 <= stake * capacity) by nia.
    pose proof (Z.div_mod (stake * capacity * 95) 100 ltac:(lia)) as Hpool.
    pose proof (Z.mod_pos_bound (stake * capacity * 95) 100 ltac:(lia)) as Hrem.
    set (pool := stake * capacity * 95 / 100) in *.
    pose proof (Z.div_mod (pool * 9) 10 ltac:(lia)) as Hpay.
    pose proof (Z.mod_pos_bound (pool * 9) 10 ltac:(lia)) as Hrem'.
    lia.
Qed.

Lemma payout_below_stakes_witness :
  calculatePrizeDistribution (won_game (calculatePrizePool 100 2) "alice")
    = [ {| prize_playerId := "alice"; amount := 171 |} ] /\
  0 < 171 <= 190 /\ 190 < 200.
Proof.
  exact (payout_below_stakes 100 2 "alice" ltac:(lia) ltac:(lia)).
Defined.

(** ** Game service: coin assignment and creation data *)

(** X9. Coin assignment touches the coins only, and assigning twice is
    assigning once: stripped of their coins the participants are the same,
    in the same order, before and after. *)
Theorem assignCoins_only_coins (participants : list GamePlayer) :
  map (set_coins []) (assignCoinsToPlayers participants)
    = map (set_coins []) participants /\
  map userId (assignCoinsToPlayers participants) = map userId participants /\
  assignCoinsToPlayers (assignCoinsToPlayers participants)
    = assignCoinsToPlayers participants.
Proof.
  repeat split; apply list_eq; intros i;
    rewrite ?list_lookup_fmap, !assignCoinsToPlayers_lookup;
    destruct (participants !! i) as [p | ]; reflexivity.
Qed.

Lemma not_nan_spec (x : number) :
  is_nan x = false -> Prim2SF x <> S754_nan.
Proof.
  unfold is_nan. rewrite FloatAxioms.eqb_spec. unfold SFeqb.
  intros H E. rewrite E in H. cbn in H. discriminate.
Qed.

Lemma SFcompare_total (x y : spec_float) :
  x <> S754_nan -> y <> S754_nan -> exists c, SFcompare x y = Some c.
Proof.
  destruct x, y; cbn; intros Hx Hy; try congruence; eauto.
Qed.

(** Of two numbers, the first is below the second or the second is at most
    the first. *)
Lemma not_ltb_leb (x y : number) :
  is_nan x = false -> is_nan y = false ->
  (x <? y)%float = false -> (y <=? x)%float = true.
Proof.
  intros Hx Hy. rewrite FloatAxioms.ltb_spec, FloatAxioms.leb_spec.
  unfold SFltb, SFleb.
  rewrite (SFcompare_antisym (Prim2SF x) (Prim2SF y)).
  destruct (SFcompare_total _ _ (not_nan_spec _ Hx) (not_nan_spec _ Hy))
    as [c ->].
  destruct c; cbn; congruence.
Qed.

Lemma z_number_min_max_within (lo hi x : number) :
  is_nan lo = false -> is_nan hi = false ->
  z_number_min_max lo hi x = true <-> within lo hi x.
Proof.
  intros Hlo Hhi. unfold z_number_min_max, within. split.
  - intros H. apply andb_prop in H as [H Hmax]. apply andb_prop in H as [Hnan Hmin].
    apply negb_true_iff in Hnan, Hmin, Hmax.
    split; apply not_ltb_leb; assumption.
  - intros [Hmin Hmax]. destruct (leb_not_nan _ _ Hmax) as [Hnan _].
    rewrite Hnan, (leb_not_gt _ _ Hmin), (leb_not_gt _ _ Hmax). reflexivity.
Qed.

Lemma issue_nil (path : string) (ok : bool) : issue path ok = [] <-> ok = true.
Proof. destruct ok; cbn; split; congruence. Qed.

(** X10. The creation schema accepts the data exactly when the host id is
    not empty, the stake is within [10, 2000], the capacity within [2, 4]
    and the time limit within [5, 30], as binary64 values: whole numbers
    are not asked for, so a capacity of 2.5 passes. Otherwise [createGame]
    throws the validation error, calls no collaborator and leaves the
    world as it was. *)
Theorem creation_data_accepted_iff (data : GameData) :
  (validateGameCreation data = Ok data <->
   hostId data <> "" /\ within 10 2000 (gd_stakeAmount data) /\
   within 2 4 (maxPlayers data) /\ within 5 30 (timeLimit data)) /\
  (validateGameCreation data <> Ok data ->
   exists issues,
     issues <> [] /\
     forall fault env w,
       createGame fault env data w =
         (Throw (Wrapped "Game creation failed: " (ZodError issues)), w)) /\
  within 2 4 2.5.
Proof.
  assert (Hhost : z_string_min 1 (hostId data) = true <-> hostId data <> "").
  { unfold z_string_min. destruct (hostId data); cbn; split; congruence. }
  assert (Hiff : validateGameCreation data = Ok data <->
                 hostId data <> "" /\ within 10 2000 (gd_stakeAmount data) /\
                 within 2 4 (maxPlayers data) /\ within 5 30 (timeLimit data)).
  { rewrite <- Hhost, <- !z_number_min_max_within by reflexivity.
    unfold validateGameCreation.
    destruct (z_string_min 1 (hostId data)),
             (z_number_min_max 10 2000 (gd_stakeAmount data)),
             (z_number_min_max 2 4 (maxPlayers data)),
             (z_number_min_max 5 30 (timeLimit data)); cbn;
      split; try reflexivity; try discriminate;
      try (intros (? & ? & ? & ?); discriminate); tauto. }
  split; [ exact Hiff | ]. split; [ | split; reflexivity ].
  intros Hinvalid.
  destruct (validateGameCreation_cases data) as [Hvalid | [issues Hissues]];
    [ congruence | ].
  exists issues. split.
  - unfold validateGameCreation in Hissues.
    destruct (_ ++ _)%list; [ discriminate | ]. injection Hissues as <-. discriminate.
  - intros fault env w. apply createGame_invalid. exact Hissues.
Qed.

(** ** Fraud score: the accuracy component *)

Lemma rate_tests_table :
  forallb (fun n => forallb (rate_tests_exact n) (seq 0 (S n))) (seq 10 11) = true.
Proof. vm_compute. reflexivity. Qed.

Lemma rate_tests (n k : nat) :
  (10 <= n <= 20)%nat -> (k <= n)%nat ->
  let rate := (of_Z (Z.of_nat k) / of_Z (Z.of_nat n))%float in
  (0.95 <? rate)%float = (19 * Z.of_nat n <? 20 * Z.of_nat k) /\
  (0.85 <? rate)%float = (17 * Z.of_nat n <? 20 * Z.of_nat k).
Proof.
  intros Hn Hk. cbn zeta.
  pose proof rate_tests_table as Htable. rewrite forallb_forall in Htable.
  specialize (Htable n ltac:(apply in_seq; lia)).
  rewrite forallb_forall in Htable.
  specialize (Htable k ltac:(apply in_seq; lia)).
  unfold rate_tests_exact in Htable. cbn zeta in Htable.
  apply andb_prop in Htable as [H1 H2].
  apply Bool.eqb_prop in H1, H2. split; assumption.
Qed.

Lemma filter_all {A} (l : list A) : List.filter (fun _ => true) l = l.
Proof. induction l as [ | a l IH]; cbn; congruence. Qed.

Lemma filter_length_le {A} (f : A -> bool) (l : list A) :
  (length (List.filter f l) <= length l)%nat.
Proof. induction l as [ | a l IH]; cbn; [ lia | destruct (f a); cbn; lia ]. Qed.

(** X11. The accuracy component looks at the last twenty moves of the
    history: with fewer than ten it is 0; otherwise it is 50 exactly when
    every one of them is a success, 30 when not all are but more than 85%
    are (20k > 17n for k successes among n), and 0 otherwise. *)
Theorem accuracy_component (move : GameMove) (history : list GameMove) :
  let n := length (recent_results history) in
  let k := successes history in
  let contribution := analyzeAccuracyPatterns move history in
  n = Nat.min 20 (length history) /\ (k <= n)%nat /\
  ((n < 10)%nat -> contribution = 0%float) /\
  ((10 <= n)%nat ->
     (k = n -> contribution = 50%float) /\
     ((k < n)%nat -> (17 * n < 20 * k)%nat -> contribution = 30%float) /\
     ((20 * k <= 17 * n)%nat -> contribution = 0%float)).
Proof.
  cbn zeta. unfold successes, recent_results.
  assert (Hn : length (slice_last 20 history) = Nat.min 20 (length history))
    by apply slice_last_length.
  pose proof (filter_length_le (fun m => is_success (result (data m)))
                (slice_last 20 history)) as Hk.
  split; [ exact Hn | ]. split; [ exact Hk | ].
  unfold analyzeAccuracyPatterns, truthy_result. rewrite filter_all.
  set (recent := slice_last 20 history) in *.
  set (k := length (List.filter _ recent)) in *.
  split.
  - intros Hfew. apply Nat.ltb_lt in Hfew. rewrite Hfew. reflexivity.
  - intros Henough.
    destruct (rate_tests (length recent) k ltac:(lia) Hk) as [H95 H85].
    cbn zeta in H95, H85. apply Nat.ltb_ge in Henough as Htest. rewrite Htest.
    rewrite H95, H85. repeat split.
    + intros Hall. replace (19 * Z.of_nat (length recent) <? 20 * Z.of_nat k)
        with true by (symmetry; apply Z.ltb_lt; lia). reflexivity.
    + intros Hsome Hmost.
      replace (19 * Z.of_nat (length recent) <? 20 * Z.of_nat k)
        with false by (symmetry; apply Z.ltb_ge; lia).
      replace (17 * Z.of_nat (length recent) <? 20 * Z.of_nat k)
        with true by (symmetry; apply Z.ltb_lt; lia). reflexivity.
    + intros Hfewer.
      replace (19 * Z.of_nat (length recent) <? 20 * Z.of_nat k)
        with false by (symmetry; apply Z.ltb_ge; lia).
      replace (17 * Z.of_nat (length recent) <? 20 * Z.of_nat k)
        with false by (symmetry; apply Z.ltb_ge; lia). reflexivity.
Qed.

(** ** Fraud score: the total *)

Lemma ltb_asym (x y : number) :
  (x <? y)%float = true -> (y <? x)%float = false.
Proof.
  rewrite !FloatAxioms.ltb_spec. unfold SFltb.
  rewrite (SFcompare_antisym (Prim2SF x) (Prim2SF y)).
  destruct (SFcompare (Prim2SF x) (Prim2SF y)) as [[ | | ] | ]; cbn; congruence.
Qed.

Lemma ltb_irrefl (x : number) : (x <? x)%float = false.
Proof.
  destruct (x <? x)%float eqn:E; [ | reflexivity ].
  rewrite (ltb_asym _ _ E) in E. discriminate.
Qed.

Lemma ltb_nan_r (x : number) : (x <? nan)%float = false.
Proof.
  rewrite FloatAxioms.ltb_spec. unfold SFltb.
  change (Prim2SF nan) with S754_nan.
  destruct (Prim2SF x); reflexivity.
Qed.

(** [Math.min(a, b)] is never above [b]. *)
Lemma Math_min_not_above (a b : number) : (b <? Math_min a b)%float = false.
Proof.
  unfold Math_min.
  destruct (is_nan a || is_nan b); [ apply ltb_nan_r | ].
  destruct (a <? b)%float eqn:Hab; [ apply ltb_asym; exact Hab | ].
  destruct (b <? a)%float eqn:Hba; [ apply ltb_irrefl | ].
  destruct (classify a); (exact Hba || apply ltb_irrefl).
Qed.

(** X12. Whatever the undefined components contribute, the fraud score of
    a move is never above 100. *)
Theorem fraud_score_capped (validatePhysicsRealism : GameMove -> number)
    (analyzeBehavioralPatterns : string -> list GameMove -> number)
    (checkDeviceConsistency : string -> number)
    (move : GameMove) (gameHistory : list GameMove) :
  (100 <? analyzeMoveForFraud validatePhysicsRealism analyzeBehavioralPatterns
            checkDeviceConsistency move gameHistory)%float = false.
Proof. unfold analyzeMoveForFraud. apply Math_min_not_above. Qed.

Lemma timing_values (move : GameMove) (history : list GameMove) :
  analyzeTimingPatterns move history = 0%float \/
  analyzeTimingPatterns move history = 40%float \/
  analyzeTimingPatterns move history = 60%float.
Proof.
  unfold analyzeTimingPatterns.
  destruct (_ <? 3)%nat; [ left; reflexivity | ].
  destruct (_ && _); [ right; left; reflexivity | ].
  destruct (_ <? 500)%float; [ right; right; reflexivity | left; reflexivity ].
Qed.

Lemma accuracy_values (move : GameMove) (history : list GameMove) :
  analyzeAccuracyPatterns move history = 0%float \/
  analyzeAccuracyPatterns move history = 30%float \/
  analyzeAccuracyPatterns move history = 50%float.
Proof.
  unfold analyzeAccuracyPatterns.
  destruct (_ <? 10)%nat; [ left; reflexivity | ].
  destruct (0.95 <? _)%float; [ right; right; reflexivity | ].
  destruct (0.85 <? _)%float; [ right; left; reflexivity | left; reflexivity ].
Qed.

Lemma flag_cases (userId gameId : string) (s : number) (w : FraudWorld) :
  flagSuspiciousActivity userId s gameId w =
    if (75 <? s)%float then
      (Ok tt, flagged w [CreateFraudAlert (high_alert userId s gameId);
                         TemporaryRestriction userId "SUSPECTED_FRAUD"])
    else if (50 <? s)%float then
      (Ok tt, flagged w [CreateFraudAlert (medium_alert userId s gameId)])
    else (Ok tt, w).
Proof.
  unfold flagSuspiciousActivity, flagged, fraud_call, bind, modify, ret.
  destruct (75 <? s)%float; [ cbn; rewrite <- app_assoc; reflexivity | ].
  destruct (50 <? s)%float; reflexivity.
Qed.

(** X13. When physics, behaviour and device contribute nothing, the score
    is the sum of timing and accuracy capped at 100, and flagging it
    restricts the user with a HIGH alert exactly for timing 40 with
    accuracy 50 and for timing 60 with accuracy 30 or 50; it raises a
    MEDIUM alert for timing 40 with accuracy 30 and for timing 60 with
    accuracy 0; and it raises nothing for timing 0 and for timing 40 with
    accuracy 0. Accuracy alone never raises an alert. *)
Theorem flag_from_timing_and_accuracy (move : GameMove)
    (history : list GameMove) (userId gameId : string) (w : FraudWorld) :
  let timing := analyzeTimingPatterns move history in
  let accuracy := analyzeAccuracyPatterns move history in
  let s := analyzeMoveForFraud no_physics no_behaviour no_device move history in
  let outcome := flagSuspiciousActivity userId s gameId w in
  s = Math_min (timing + accuracy) 100 /\
  (timing = 40%float /\ accuracy = 50%float \/
   timing = 60%float /\ (accuracy = 30%float \/ accuracy = 50%float) ->
   outcome = (Ok tt, flagged w [CreateFraudAlert (high_alert userId s gameId);
                                TemporaryRestriction userId "SUSPECTED_FRAUD"])) /\
  (timing = 40%float /\ accuracy = 30%float \/
   timing = 60%float /\ accuracy = 0%float ->
   outcome = (Ok tt, flagged w [CreateFraudAlert (medium_alert userId s gameId)])) /\
  (timing = 0%float \/ timing = 40%float /\ accuracy = 0%float ->
   outcome = (Ok tt, w)) /\
  (timing = 0%float \/ timing = 40%float \/ timing = 60%float) /\
  (accuracy = 0%float \/ accuracy = 30%float \/ accuracy = 50%float).
Proof.
  cbn zeta.
  pose proof (timing_values move history) as Ht.
  pose proof (accuracy_values move history) as Ha.
  unfold analyzeMoveForFraud, no_physics, no_behaviour, no_device.
  split; [ | split; [ | split; [ | split; [ | split; assumption ] ] ] ].
  - destruct Ht as [-> | [-> | ->]], Ha as [-> | [-> | ->]]; reflexivity.
  - intros [[-> ->] | [-> [-> | ->]]]; rewrite flag_cases; reflexivity.
  - intros [[-> ->] | [-> ->]]; rewrite flag_cases; reflexivity.
  - intros [-> | [-> ->]].
    + destruct Ha as [-> | [-> | ->]]; rewrite flag_cases; reflexivity.
    + rewrite flag_cases. reflexivity.
Qed.

(** Twelve successes 300 ms apart score 90. *)
Example machine_play_score :
  analyzeTimingPatterns (move_with SUCCESS 3300) machine_play = 40%float /\
  analyzeAccuracyPatterns (move_with SUCCESS 3300) machine_play = 50%float /\
  analyzeMoveForFraud no_physics no_behaviour no_device
                      (move_with SUCCESS 3300) machine_play = 90%float.
Proof. repeat split; vm_compute; reflexivity. Qed.

(** ** Rate limiting *)

Lemma checkLimits_live (key : string) (config : RateLimitConfig) (times : list Z)
    (requests : gmap string RateRecord) (record : RateRecord) :
  requests !! key = Some record ->
  Forall (fun now => now <= resetTime record) times ->
  let room := Z.to_nat (maxRequests config - count record) in
  map limit_allowed (fst (checkLimits key config times requests))
    = replicate (Nat.min (length times) room) true
      ++ replicate (length times - room) false.
Proof.
  revert requests record.
  induction times as [ | now later IH]; intros requests record Hrecord Hlive.
  - reflexivity.
  - inversion Hlive as [ | ? ? Hnow Hlater]; subst. cbn zeta.
    cbn [checkLimits]. unfold checkLimit. rewrite Hrecord.
    replace (resetTime record <? now) with false by (symmetry; apply Z.ltb_ge; lia).
    destruct (maxRequests config <=? count record) eqn:Hfull.
    + apply Z.leb_le in Hfull.
      specialize (IH requests record Hrecord Hlater). cbn zeta in IH.
      destruct (checkLimits key config later requests) as [results requests'].
      cbn [fst map limit_allowed] in *. rewrite IH.
      replace (Z.to_nat (maxRequests config - count record)) with 0%nat by lia.
      rewrite !Nat.min_0_r. cbn [length]. rewrite !Nat.sub_0_r. reflexivity.
    + apply Z.leb_gt in Hfull.
      set (record' := {| count := count record + 1; resetTime := resetTime record |}).
      specialize (IH (<[key := record']> requests) record'
                     (lookup_insert_eq _ _ _) Hlater).
      cbn zeta in IH.
      destruct (checkLimits key config later (<[key := record']> requests))
        as [results requests'].
      cbn [fst map limit_allowed] in *. rewrite IH. cbn [count record' length].
      replace (Z.to_nat (maxRequests config - count record))
        with (S (Z.to_nat (maxRequests config - (count record + 1)))) by lia.
      reflexivity.
Qed.

(** X14. Within one window the limiter lets through the first requests of
    a key and refuses the rest: when the key has no record or an expired
    one, a request at [start] followed by any requests up to
    [start + windowMs] are allowed up to [maxRequests] of them (the first
    one always) and refused after that. *)
Theorem window_allows_first_requests (key : string) (config : RateLimitConfig)
    (start : Z) (later : list Z) (requests : gmap string RateRecord) :
  window_over key start requests ->
  Forall (fun now => now <= start + windowMs config) later ->
  let room := Z.to_nat (Z.max 1 (maxRequests config)) in
  map limit_allowed (fst (checkLimits key config (start :: later) requests))
    = replicate (Nat.min (S (length later)) room) true
      ++ replicate (S (length later) - room) false.
Proof.
  intros Hover Hlive. cbn zeta. cbn [checkLimits].
  assert (Hfirst : checkLimit key config start requests =
            ({| limit_allowed := true; remaining := maxRequests config - 1 |},
             <[key := {| count := 1; resetTime := start + windowMs config |}]>
               requests)).
  { unfold checkLimit. unfold window_over in Hover.
    destruct (requests !! key) as [record | ]; [ | reflexivity ].
    replace (resetTime record <? start) with true
      by (symmetry; apply Z.ltb_lt; exact Hover). reflexivity. }
  rewrite Hfirst.
  pose proof (checkLimits_live key config later
                (<[key := {| count := 1; resetTime := start + windowMs config |}]>
                   requests)
                {| count := 1; resetTime := start + windowMs config |}
                (lookup_insert_eq _ _ _) Hlive) as Hrest.
  cbn zeta in Hrest.
  destruct (checkLimits key config later _) as [results requests'].
  cbn [fst map limit_allowed count] in *. rewrite Hrest.
  destruct (Z_le_gt_dec (maxRequests config) 1) as [Hsmall | Hlarge].
  - replace (Z.to_nat (maxRequests config - 1)) with 0%nat by lia.
    replace (Z.to_nat (Z.max 1 (maxRequests config))) with 1%nat by lia.
    cbn. rewrite ?Nat.min_0_r, ?Nat.sub_0_r. reflexivity.
  - replace (Z.to_nat (Z.max 1 (maxRequests config)))
      with (S (Z.to_nat (maxRequests config - 1))) by lia.
    reflexivity.
Qed.

Lemma window_allows_first_requests_witness :
  map limit_allowed
      (fst (checkLimits "10.0.0.1:/api/auth" authLimit
              [1000; 1001; 1002; 1003; 1004; 1005; 301000] ∅))
    = [true; true; true; true; true; false; false].
Proof.
  refine (window_allows_first_requests "10.0.0.1:/api/auth" authLimit 1000
            [1001; 1002; 1003; 1004; 1005; 301000] ∅ I _).
  repeat constructor; cbn; lia.
Defined.

(** X15. A request after the reset instant of the key's record is always
    allowed, whatever the count, and opens a window of [windowMs] from
    then on; a request at the reset instant itself still falls in the old
    window. A request changes no record but the one of its key. *)
Theorem window_renewal (key : string) (config : RateLimitConfig) (now : Z)
    (requests : gmap string RateRecord) (record : RateRecord) :
  requests !! key = Some record ->
  (resetTime record < now ->
   checkLimit key config now requests =
     ({| limit_allowed := true; remaining := maxRequests config - 1 |},
      <[key := {| count := 1; resetTime := now + windowMs config |}]> requests)) /\
  (now <= resetTime record ->
   limit_allowed (fst (checkLimit key config now requests))
     = (count record <? maxRequests config) /\
   resetTime <$> snd (checkLimit key config now requests) !! key
     = Some (resetTime record)) /\
  (forall other, other <> key ->
     snd (checkLimit key config now requests) !! other = requests !! other).
Proof.
  intros Hrecord. unfold checkLimit. rewrite Hrecord. split; [ | split ].
  - intros Hover. apply Z.ltb_lt in Hover. rewrite Hover. reflexivity.
  - intros Hlive.
    replace (resetTime record <? now) with false by (symmetry; apply Z.ltb_ge; lia).
    rewrite Z.ltb_antisym.
    destruct (maxRequests config <=? count record); cbn [fst snd limit_allowed negb].
    + rewrite Hrecord. split; reflexivity.
    + rewrite lookup_insert_eq. split; reflexivity.
  - intros other Hother.
    destruct (resetTime record <? now); [ apply lookup_insert_ne; congruence | ].
    destruct (maxRequests config <=? count record); cbn [snd];
      [ reflexivity | apply lookup_insert_ne; congruence ].
Qed.

Lemma window_renewal_witness :
  limit_allowed
    (fst (checkLimit "k" authLimit 301001
            {[ "k" := {| count := 5; resetTime := 301000 |} ]})) = true /\
  limit_allowed
    (fst (checkLimit "k" authLimit 301000
            {[ "k" := {| count := 5; resetTime := 301000 |} ]})) = false.
Proof.
  destruct (window_renewal "k" authLimit 301001
              {[ "k" := {| count := 5; resetTime := 301000 |} ]}
              {| count := 5; resetTime := 301000 |} (lookup_singleton_eq _ _))
    as (Hafter & _ & _).
  rewrite Hafter by (cbn; lia). split; reflexivity.
Defined.

(** ** Suspicion score *)

(** X16. The suspicion score of a request is a multiple of 5 between 0 and
    100. *)
Theorem suspicion_score_range (request : Request) (metrics : FraudMetrics) :
  0 <= calculateSuspiciousScore request metrics <= 100 /\
  calculateSuspiciousScore request metrics mod 5 = 0.
Proof.
  unfold calculateSuspiciousScore. cbn zeta.
  destruct (100 <? requestCount metrics), (50 <? requestCount metrics),
    (10 <? failedAttempts metrics), (5 <? failedAttempts metrics), (_ || _),
    (negb (truthy (headers_get request "accept-language"))),
    (negb (truthy (headers_get request "accept-encoding"))),
    (existsb _ _); cbn; split; (lia || reflexivity).
Qed.

(** X17. A plain request (a user agent of ten characters or more, both
    accept headers, no suspicious pattern in the URL) scores at most 70
    however many requests and failed attempts its client has made, so the
    threshold of 70 that the security stack sets never blocks it; with no
    more than five failed attempts it scores at most 30. *)
Theorem plain_request_not_blocked (request : Request) (metrics : FraudMetrics) :
  plain_request request ->
  calculateSuspiciousScore request metrics <= 70 /\
  (70 <? calculateSuspiciousScore request metrics) = false /\
  (failedAttempts metrics <= 5 ->
   calculateSuspiciousScore request metrics <= 30).
Proof.
  intros (Hagent & Hlanguage & Hencoding & Hclean).
  assert (Hpatterns :
    existsb (fun pattern => includes (toLowerCase (url request)) pattern)
            suspiciousPatterns = false).
  { apply not_true_is_false. intros H. apply existsb_exists in H as (p & Hp & Hin).
    rewrite Forall_forall in Hclean.
    rewrite (Hclean p) in Hin; [ discriminate | ].
    apply list_elem_of_In. exact Hp. }
  assert (Hua : String.eqb (or_string (headers_get request "user-agent") "") ""
                || (String.length (or_string (headers_get request "user-agent") "")
                    <? 10)%nat = false).
  { apply orb_false_iff. split.
    - destruct (or_string _ _); [ cbn in Hagent; lia | reflexivity ].
    - apply Nat.ltb_ge. exact Hagent. }
  unfold calculateSuspiciousScore. cbn zeta.
  rewrite Hpatterns, Hua, Hlanguage, Hencoding. cbn [negb].
  split; [ | split ].
  - destruct (100 <? requestCount metrics), (50 <? requestCount metrics),
      (10 <? failedAttempts metrics), (5 <? failedAttempts metrics); cbn; lia.
  - apply Z.ltb_ge.
    destruct (100 <? requestCount metrics), (50 <? requestCount metrics),
      (10 <? failedAttempts metrics), (5 <? failedAttempts metrics); cbn; lia.
  - intros Hfailed.
    replace (10 <? failedAttempts metrics) with false by (symmetry; apply Z.ltb_ge; lia).
    replace (5 <? failedAttempts metrics) with false by (symmetry; apply Z.ltb_ge; lia).
    destruct (100 <? requestCount metrics), (50 <? requestCount metrics);
      cbn; lia.
Qed.

Lemma plain_request_not_blocked_witness :
  calculateSuspiciousScore
    (browser_request "https://carrom.example/api/games?mode=CLASSIC")
    {| requestCount := 500; failedAttempts := 50; metrics_patterns := [];
       lastActivity := 0 |} <= 70.
Proof.
  refine (proj1 (plain_request_not_blocked _ _ _)).
  split; [ apply Nat.leb_le; vm_compute; reflexivity | ].
  split; [ vm_compute; reflexivity | ].
  split; [ vm_compute; reflexivity | ].
  repeat (constructor; [ vm_compute; reflexivity | ]). constructor.
Defined.

(** ** CSRF protection *)

(** X18. With Redis answering, the CSRF middleware lets a request through
    exactly when it is a GET, or it carries a session id, a non-empty
    [x-csrf-token], and that token is the one Redis holds for the session
    at that time. It never writes to Redis. When an authorization header
    is present and its token does not verify, there is no session,
    whatever [x-session-id] says, and a request that is not a GET is
    refused. *)
Theorem csrf_passes_iff (verifyAccessToken : option string -> option JWTPayload)
    (request : Request) (now : Z) (store : gmap string (RedisEntry string)) :
  (csrfMiddleware verifyAccessToken redis_up request now store = (Ok None, store) <->
   method request = "GET" \/
   exists sessionId token,
     getSessionId verifyAccessToken request = Some sessionId /\
     headers_get request "x-csrf-token" = Some token /\ token <> "" /\
     redis_live ("csrf:" +:+ sessionId) now store = Some token) /\
  snd (csrfMiddleware verifyAccessToken redis_up request now store) = store /\
  (truthy (headers_get request "authorization") = true ->
   verifyAccessToken
     (split_at Ascii.Space (default "" (headers_get request "authorization")) !! 1%nat)
     = None ->
   getSessionId verifyAccessToken request = None /\
   (method request <> "GET" ->
    csrfMiddleware verifyAccessToken redis_up request now store
      = (Ok (Some (json_response 400 "Session ID required")), store))).
Proof.
  unfold csrfMiddleware.
  split; [ | split ].
  - destruct (String.eqb_spec (method request) "GET") as [Hget | Hget].
    { split; [ intros _; left; exact Hget | reflexivity ]. }
    destruct (getSessionId verifyAccessToken request) as [sessionId | ].
    2: { split; [ discriminate | ].
         intros [H | (sid & tok & H & _)]; [ contradiction | discriminate ]. }
    destruct (headers_get request "x-csrf-token") as [token | ] eqn:Htoken.
    2: { cbn. split; [ discriminate | ].
         intros [H | (sid & tok & _ & H & _)]; [ contradiction | discriminate ]. }
    cbn [truthy]. destruct (String.eqb_spec token "") as [Hempty | Hfull].
    { cbn. split; [ discriminate | ].
      intros [H | (sid & tok & _ & H & Hne & _)]; [ contradiction | ].
      injection H as <-. contradiction. }
    cbn [negb]. unfold bind, redis_get, ret. cbn [redis_up].
    destruct (redis_live ("csrf:" +:+ sessionId) now store) as [stored | ] eqn:Hstored.
    2: { cbn. split; [ discriminate | ].
         intros [H | (sid & tok & Hsid & _ & _ & H)]; [ contradiction | ].
         injection Hsid as <-. rewrite Hstored in H. discriminate. }
    cbn [truthy default from_option]. unfold id.
    destruct (String.eqb_spec stored "") as [Hs | Hs].
    { cbn. split; [ discriminate | ].
      intros [H | (sid & tok & Hsid & Htok & Hne & H)]; [ contradiction | ].
      injection Hsid as <-. rewrite Hstored in H. congruence. }
    cbn [negb orb].
    destruct (String.eqb_spec stored token) as [Heq | Hneq]; cbn [negb].
    + split; [ | reflexivity ]. intros _. right.
      exists sessionId, token. subst stored. repeat split; assumption.
    + split; [ discriminate | ].
      intros [H | (sid & tok & Hsid & Htok & _ & H)]; [ contradiction | ].
      injection Hsid as <-. rewrite Hstored in H. congruence.
  - destruct (String.eqb (method request) "GET"); [ reflexivity | ].
    destruct (getSessionId verifyAccessToken request); [ | reflexivity ].
    destruct (negb (truthy (headers_get request "x-csrf-token"))); [ reflexivity | ].
    unfold bind, redis_get, ret. cbn [redis_up].
    destruct (_ || _); reflexivity.
  - intros Hauth Hverify.
    assert (Hnone : getSessionId verifyAccessToken request = None).
    { unfold getSessionId. rewrite Hauth, Hverify. reflexivity. }
    split; [ exact Hnone | ]. intros Hmethod.
    destruct (String.eqb_spec (method request) "GET"); [ contradiction | ].
    rewrite Hnone. reflexivity.
Qed.

(** ** The rate limiter on Redis *)

Lemma ceil_seconds_covers (ms : Z) :
  ms <= 1000 * ceil_seconds ms < ms + 1000.
Proof.
  unfold ceil_seconds.
  pose proof (Z.mul_div_le (- ms) 1000 ltac:(lia)).
  pose proof (Z.mul_succ_div_gt (- ms) 1000 ltac:(lia)).
  lia.
Qed.

Lemma rateLimit_live_step (verifyAccessToken : option string -> option JWTPayload)
    (config : RateLimitConfig) (request : Request) (now : Z)
    (store : gmap string (RedisEntry RateRecord)) (record : RateRecord)
    (expiry : option Z) :
  store !! rate_limit_key verifyAccessToken request
    = Some {| entry_value := record; expires_at := expiry |} ->
  match expiry with Some e => resetTime record <= e | None => True end ->
  now < resetTime record ->
  rateLimitMiddleware verifyAccessToken redis_up config request now store =
    if maxRequests config <=? count record
    then (Ok (Some (too_many_requests config record now)), store)
    else (Ok None,
          <[rate_limit_key verifyAccessToken request :=
              {| entry_value := {| count := count record + 1;
                                   resetTime := resetTime record |};
                 expires_at :=
                   Some (now + 1000 * ceil_seconds (resetTime record - now)) |}]>
            store).
Proof.
  intros Hentry Hexpiry Hnow.
  unfold rateLimitMiddleware, try_or, redis_get, redis_set, redis_up, bind, ret.
  unfold redis_live. rewrite Hentry. cbn [expires_at entry_value].
  assert (Hlive : match expiry with
                  | Some e => if e <? now then None else Some record
                  | None => Some record
                  end = Some record).
  { destruct expiry as [e | ]; [ | reflexivity ].
    replace (e <? now) with false by (symmetry; apply Z.ltb_ge; lia).
    reflexivity. }
  rewrite Hlive.
  replace (resetTime record <? now) with false by (symmetry; apply Z.ltb_ge; lia).
  destruct (maxRequests config <=? count record); [ reflexivity | ].
  pose proof (ceil_seconds_covers (resetTime record - now)) as Hceil.
  replace (ceil_seconds (resetTime record - now) =? 0) with false
    by (symmetry; apply Z.eqb_neq; lia).
  replace (ceil_seconds (resetTime record - now) <? 0) with false
    by (symmetry; apply Z.ltb_ge; lia).
  reflexivity.
Qed.

Lemma rateLimit_live (verifyAccessToken : option string -> option JWTPayload)
    (config : RateLimitConfig) (request : Request) (times : list Z)
    (store : gmap string (RedisEntry RateRecord)) (record : RateRecord)
    (expiry : option Z) :
  store !! rate_limit_key verifyAccessToken request
    = Some {| entry_value := record; expires_at := expiry |} ->
  match expiry with Some e => resetTime record <= e | None => True end ->
  Forall (fun now => now < resetTime record) times ->
  let room := Z.to_nat (maxRequests config - count record) in
  exists responses store',
    requests_at (rateLimitMiddleware verifyAccessToken redis_up config request)
      times store = (Ok responses, store') /\
    map passes responses
      = replicate (Nat.min (length times) room) true
        ++ replicate (length times - room) false /\
    Forall (fun response =>
              passes response = false -> response_status <$> response = Some 429)
           responses.
Proof.
  revert store record expiry.
  induction times as [ | now later IH]; intros store record expiry Hentry Hexpiry Hlive.
  - exists [], store. repeat split. constructor.
  - inversion Hlive as [ | ? ? Hnow Hlater]; subst. cbn zeta.
    cbn [requests_at]. unfold bind at 1.
    rewrite (rateLimit_live_step _ _ _ _ _ _ _ Hentry Hexpiry Hnow).
    destruct (maxRequests config <=? count record) eqn:Hfull.
    + apply Z.leb_le in Hfull.
      destruct (IH store record expiry Hentry Hexpiry Hlater)
        as (responses & store' & Hrun & Hpass & Hstatus).
      exists (Some (too_many_requests config record now) :: responses), store'.
      unfold bind, ret. rewrite Hrun. split; [ reflexivity | ].
      cbn zeta in Hpass. split.
      * cbn [map passes]. rewrite Hpass.
        replace (Z.to_nat (maxRequests config - count record)) with 0%nat by lia.
        rewrite !Nat.min_0_r. cbn [length]. rewrite !Nat.sub_0_r. reflexivity.
      * constructor; [ reflexivity | exact Hstatus ].
    + apply Z.leb_gt in Hfull.
      set (record' := {| count := count record + 1; resetTime := resetTime record |}).
      pose proof (ceil_seconds_covers (resetTime record - now)) as Hceil.
      edestruct (IH (<[rate_limit_key verifyAccessToken request :=
                         {| entry_value := record';
                            expires_at := Some (now + 1000 * ceil_seconds
                                                  (resetTime record - now)) |}]>
                       store) record' _ (lookup_insert_eq _ _ _))
        as (responses & store' & Hrun & Hpass & Hstatus).
      { cbn. lia. }
      { exact Hlater. }
      exists (None :: responses), store'.
      unfold bind, ret. fold record'. rewrite Hrun. split; [ reflexivity | ].
      cbn zeta in Hpass. split.
      * cbn [map passes]. rewrite Hpass. cbn [count record' length].
        replace (Z.to_nat (maxRequests config - count record))
          with (S (Z.to_nat (maxRequests config - (count record + 1)))) by lia.
        reflexivity.
      * constructor; [ discriminate | exact Hstatus ].
Qed.

(** X19. The limiter on Redis enforces the limit within a window: when
    Redis answers and holds no record for the client and path, or one
    whose window is over, a request at [start] followed by any requests
    before [start + windowMs] pass up to [maxRequests] of them (the first
    one always); the rest are answered 429. *)
Theorem redis_window_allows_first_requests
    (verifyAccessToken : option string -> option JWTPayload)
    (config : RateLimitConfig) (request : Request) (start : Z) (later : list Z)
    (store : gmap string (RedisEntry RateRecord)) :
  0 < windowMs config ->
  redis_window_over (rate_limit_key verifyAccessToken request) start store ->
  Forall (fun now => now < start + windowMs config) later ->
  let room := Z.to_nat (Z.max 1 (maxRequests config)) in
  exists responses store',
    requests_at (rateLimitMiddleware verifyAccessToken redis_up config request)
      (start :: later) store = (Ok responses, store') /\
    map passes responses
      = replicate (Nat.min (S (length later)) room) true
        ++ replicate (S (length later) - room) false /\
    Forall (fun response =>
              passes response = false -> response_status <$> response = Some 429)
           responses.
Proof.
  intros Hwindow Hover Hlive. cbn zeta.
  set (key := rate_limit_key verifyAccessToken request).
  set (first := {| count := 1; resetTime := start + windowMs config |}).
  set (entry := {| entry_value := first;
                   expires_at := Some (start + 1000 * ceil_seconds (windowMs config)) |}).
  pose proof (ceil_seconds_covers (windowMs config)) as Hceil.
  assert (Hfirst : rateLimitMiddleware verifyAccessToken redis_up config request
                     start store = (Ok None, <[key := entry]> store)).
  { unfold rateLimitMiddleware, try_or, redis_get, redis_set, redis_up, bind, ret.
    unfold redis_window_over in Hover. fold key in Hover |- *.
    replace (ceil_seconds (windowMs config) =? 0) with false
      by (symmetry; apply Z.eqb_neq; lia).
    replace (ceil_seconds (windowMs config) <? 0) with false
      by (symmetry; apply Z.ltb_ge; lia).
    destruct (redis_live key start store) as [record | ]; [ | reflexivity ].
    replace (resetTime record <? start) with true
      by (symmetry; apply Z.ltb_lt; exact Hover).
    reflexivity. }
  destruct (rateLimit_live verifyAccessToken config request later
              (<[key := entry]> store) first
              (Some (start + 1000 * ceil_seconds (windowMs config)))
              (lookup_insert_eq _ _ _)) as (responses & store' & Hrun & Hpass & Hstatus).
  { cbn. lia. }
  { exact Hlive. }
  exists (None :: responses), store'.
  cbn [requests_at]. unfold bind at 1. rewrite Hfirst.
  unfold bind, ret. rewrite Hrun. split; [ reflexivity | ].
  cbn zeta in Hpass. cbn [count first] in Hpass. split.
  - cbn [map passes]. rewrite Hpass.
    destruct (Z_le_gt_dec (maxRequests config) 1) as [Hsmall | Hlarge].
    + replace (Z.to_nat (maxRequests config - 1)) with 0%nat by lia.
      replace (Z.to_nat (Z.max 1 (maxRequests config))) with 1%nat by lia.
      cbn. rewrite ?Nat.min_0_r, ?Nat.sub_0_r. reflexivity.
    + replace (Z.to_nat (Z.max 1 (maxRequests config)))
        with (S (Z.to_nat (maxRequests config - 1))) by lia.
      reflexivity.
  - constructor; [ discriminate | exact Hstatus ].
Qed.

Lemma redis_window_allows_first_requests_witness :
  exists responses store',
    requests_at (rateLimitMiddleware no_token redis_up authLimit login_request)
      [1000; 1001; 1002; 1003; 1004; 1005; 300999] ∅ = (Ok responses, store') /\
    map passes responses = [true; true; true; true; true; false; false] /\
    Forall (fun response =>
              passes response = false -> response_status <$> response = Some 429)
           responses.
Proof.
  refine (redis_window_allows_first_requests no_token authLimit login_request 1000
            [1001; 1002; 1003; 1004; 1005; 300999] ∅ _ I _).
  - reflexivity.
  - repeat constructor.
Defined.

(** X20. The limiter on Redis fails open and never throws: whatever Redis
    does, a request gets an answer; when the read fails the request
    passes and nothing is stored; when the write fails nothing is stored,
    so that the passing requests are not counted. With Redis lost every
    request passes. *)
Theorem rate_limiter_fails_open
    (verifyAccessToken : option string -> option JWTPayload)
    (down : RedisOp -> Z -> option Error)
    (config : RateLimitConfig) (request : Request) (now : Z)
    (store : gmap string (RedisEntry RateRecord)) :
  let key := rate_limit_key verifyAccessToken request in
  let result := rateLimitMiddleware verifyAccessToken down config request now store in
  (exists response, fst result = Ok response) /\
  (down (RedisGet key) now <> None -> result = (Ok None, store)) /\
  (down (RedisSet key) now <> None -> snd result = store) /\
  rateLimitMiddleware verifyAccessToken redis_lost config request now store
    = (Ok None, store).
Proof.
  cbn zeta.
  unfold rateLimitMiddleware, try_or, redis_get, redis_set, redis_lost, bind, ret.
  set (key := rate_limit_key verifyAccessToken request).
  repeat split.
  - destruct (down (RedisGet key) now); [ eexists; reflexivity | ].
    destruct (redis_live key now store) as [record | ].
    + destruct (resetTime record <? now).
      * destruct (down (RedisSet key) now); [ eexists; reflexivity | ].
        destruct (_ =? 0); [ eexists; reflexivity | ].
        destruct (_ <? 0); eexists; reflexivity.
      * destruct (maxRequests config <=? count record); [ eexists; reflexivity | ].
        destruct (down (RedisSet key) now); [ eexists; reflexivity | ].
        destruct (_ =? 0); [ eexists; reflexivity | ].
        destruct (_ <? 0); eexists; reflexivity.
    + destruct (down (RedisSet key) now); [ eexists; reflexivity | ].
      destruct (_ =? 0); [ eexists; reflexivity | ].
      destruct (_ <? 0); eexists; reflexivity.
  - intros Hget. destruct (down (RedisGet key) now); [ reflexivity | contradiction ].
  - intros Hset. destruct (down (RedisGet key) now); [ reflexivity | ].
    destruct (down (RedisSet key) now) as [e | ]; [ | contradiction ].
    destruct (redis_live key now store) as [record | ]; [ | reflexivity ].
    destruct (resetTime record <? now); [ reflexivity | ].
    destruct (maxRequests config <=? count record); reflexivity.
Qed.

(** ** The fraud detection middleware *)

Lemma fraudMiddleware_spec (verifyAccessToken : option string -> option JWTPayload)
    (down : RedisOp -> Z -> option Error) (config : FraudConfig)
    (request : Request) (now : Z) (store : FraudStore) :
  let clientId := getClientId verifyAccessToken request in
  let metrics := assessed verifyAccessToken request now store in
  let score := calculateSuspiciousScore request metrics in
  let alertKey := "fraud_alert:" +:+ clientId +:+ ":" +:+ show_Z now in
  fraudMiddleware verifyAccessToken down config request now store =
    match down (RedisGet ("fraud:" +:+ clientId)) now with
    | Some _ => (Ok None, store)
    | None =>
        if suspiciousThreshold config <? score then
          match down (RedisSet alertKey) now with
          | Some _ => (Ok None, store)
          | None =>
              (Ok (Some request_blocked),
               {| fraud_metrics := fraud_metrics store;
                  fraud_alerts :=
                    <[alertKey :=
                        {| entry_value := fraud_alert clientId score request now;
                           expires_at := Some (now + 1000 * 86400) |}]>
                      (fraud_alerts store) |})
          end
        else
          match down (RedisSet ("fraud:" +:+ clientId)) now with
          | Some _ => (Ok None, store)
          | None =>
              (Ok None,
               {| fraud_metrics :=
                    <["fraud:" +:+ clientId :=
                        {| entry_value := metrics;
                           expires_at := Some (now + 1000 * 3600) |}]>
                      (fraud_metrics store);
                  fraud_alerts := fraud_alerts store |})
          end
    end.
Proof.
  cbn zeta. unfold assessed.
  unfold fraudMiddleware, try_or, bind, on_metrics, on_alerts,
    flagSuspiciousRequest, redis_get, redis_set, ret.
  set (clientId := getClientId verifyAccessToken request).
  destruct store as [metrics alerts]. cbn [fraud_metrics fraud_alerts].
  destruct (down (RedisGet ("fraud:" +:+ clientId)) now); [ reflexivity | ].
  destruct (suspiciousThreshold config <? _).
  - destruct (down (RedisSet _) now); reflexivity.
  - destruct (down (RedisSet _) now); reflexivity.
Qed.

Lemma updated_metrics_failures (found : option FraudMetrics) (now : Z) :
  (forall metrics, found = Some metrics ->
     failedAttempts metrics = 0 /\ metrics_patterns metrics = []) ->
  failedAttempts (updated_metrics found now) = 0 /\
  metrics_patterns (updated_metrics found now) = [].
Proof.
  intros Hfound. unfold updated_metrics.
  destruct found as [metrics | ]; cbn [default from_option]; unfold id.
  - destruct (Hfound metrics eq_refl) as [Hf Hp].
    destruct (60000 <? now - lastActivity metrics); cbn; auto.
  - cbn [lastActivity]. destruct (60000 <? now - now); cbn; auto.
Qed.

Lemma redis_live_entry {V} (key : string) (now : Z)
    (store : gmap string (RedisEntry V)) (value : V) :
  redis_live key now store = Some value ->
  exists entry, store !! key = Some entry /\ entry_value entry = value.
Proof.
  unfold redis_live. destruct (store !! key) as [entry | ]; [ | discriminate ].
  intros H. exists entry. split; [ reflexivity | ].
  destruct (expires_at entry) as [e | ]; [ destruct (e <? now) | ]; congruence.
Qed.

Lemma served_no_failures (verifyAccessToken : option string -> option JWTPayload)
    (store : FraudStore) :
  served verifyAccessToken store ->
  forall key entry, fraud_metrics store !! key = Some entry ->
    failedAttempts (entry_value entry) = 0 /\
    metrics_patterns (entry_value entry) = [].
Proof.
  induction 1 as [ | down config request now store Hserved IH].
  - intros key entry H. cbn in H. rewrite lookup_empty in H. discriminate.
  - intros key entry.
    pose proof (fraudMiddleware_spec verifyAccessToken down config request now store)
      as Hspec. cbn zeta in Hspec. rewrite Hspec. clear Hspec.
    destruct (down (RedisGet _) now); [ apply IH | ].
    destruct (suspiciousThreshold config <? _).
    + destruct (down (RedisSet _) now); apply IH.
    + destruct (down (RedisSet _) now); [ apply IH | ].
      cbn [snd fraud_metrics].
      destruct (decide (key = "fraud:" +:+ getClientId verifyAccessToken request))
        as [-> | Hother].
      * rewrite lookup_insert_eq. intros [= <-]. cbn [entry_value].
        unfold assessed.
        apply updated_metrics_failures.
        intros metrics Hlive.
        apply redis_live_entry in Hlive as (entry & Hentry & <-).
        exact (IH _ _ Hentry).
      * rewrite lookup_insert_ne by congruence. apply IH.
Qed.

Lemma assessed_no_failures (verifyAccessToken : option string -> option JWTPayload)
    (store : FraudStore) (request : Request) (now : Z) :
  served verifyAccessToken store ->
  failedAttempts (assessed verifyAccessToken request now store) = 0.
Proof.
  intros Hserved. unfold assessed.
  apply updated_metrics_failures.
  intros metrics Hlive.
  apply redis_live_entry in Hlive as (entry & Hentry & <-).
  exact (served_no_failures _ _ Hserved _ _ Hentry).
Qed.

Lemma score_without_failures (request : Request) (metrics : FraudMetrics) :
  failedAttempts metrics = 0 ->
  requestCount metrics <= 50 ->
  calculateSuspiciousScore request metrics <= 65.
Proof.
  intros Hfailed Hcount. unfold calculateSuspiciousScore. cbn zeta.
  rewrite Hfailed.
  replace (100 <? requestCount metrics) with false by (symmetry; apply Z.ltb_ge; lia).
  replace (50 <? requestCount metrics) with false by (symmetry; apply Z.ltb_ge; lia).
  cbn [Z.ltb Z.compare].
  destruct (_ || _),
    (negb (truthy (headers_get request "accept-language"))),
    (negb (truthy (headers_get request "accept-encoding"))),
    (existsb _ _); cbn; lia.
Qed.

(** X21. The fraud middleware never counts a failed attempt: starting
    with an empty Redis, after any requests and whichever Redis commands
    fail, every stored record of metrics has no failed attempts and no
    patterns, and every request is assessed with no failed attempts. *)
Theorem fraud_failures_never_counted
    (verifyAccessToken : option string -> option JWTPayload) (store : FraudStore) :
  served verifyAccessToken store ->
  (forall key entry, fraud_metrics store !! key = Some entry ->
     failedAttempts (entry_value entry) = 0 /\
     metrics_patterns (entry_value entry) = []) /\
  (forall request now,
     failedAttempts (assessed verifyAccessToken request now store) = 0).
Proof.
  intros Hserved. split.
  - exact (served_no_failures verifyAccessToken store Hserved).
  - intros request now. apply assessed_no_failures. exact Hserved.
Qed.

Lemma fraud_failures_never_counted_witness :
  let store :=
    snd (fraudMiddleware no_token redis_up stackFraudConfig login_request 1000
           empty_fraud_store) in
  served no_token store /\
  failedAttempts (assessed no_token login_request 2000 store) = 0.
Proof.
  cbn zeta.
  assert (Hserved : served no_token
            (snd (fraudMiddleware no_token redis_up stackFraudConfig login_request
                    1000 empty_fraud_store)))
    by (apply served_request, served_nothing).
  split; [ exact Hserved | ].
  exact (proj2 (fraud_failures_never_counted no_token _ Hserved) login_request 2000).
Defined.

(** X22. With a threshold of 65 or more (the security stack sets 70), and
    starting with an empty Redis, the fraud middleware lets through every
    request that is assessed at a count of fifty requests or fewer, its
    own included, whatever its headers and URL and whichever Redis
    commands fail: a client is blocked only after more than fifty counted
    requests less than a minute apart. *)
Theorem blocked_only_above_fifty
    (verifyAccessToken : option string -> option JWTPayload)
    (down : RedisOp -> Z -> option Error) (config : FraudConfig)
    (request : Request) (now : Z) (store : FraudStore) :
  served verifyAccessToken store ->
  65 <= suspiciousThreshold config ->
  requestCount (assessed verifyAccessToken request now store) <= 50 ->
  fst (fraudMiddleware verifyAccessToken down config request now store) = Ok None.
Proof.
  intros Hserved Hthreshold Hcount.
  pose proof (fraudMiddleware_spec verifyAccessToken down config request now store)
    as Hspec. cbn zeta in Hspec. rewrite Hspec. clear Hspec.
  destruct (down (RedisGet _) now); [ reflexivity | ].
  pose proof (score_without_failures request
                (assessed verifyAccessToken request now store)
                (assessed_no_failures _ _ _ _ Hserved) Hcount) as Hscore.
  replace (suspiciousThreshold config <? _) with false
    by (symmetry; apply Z.ltb_ge; lia).
  destruct (down (RedisSet _) now); reflexivity.
Qed.

Lemma blocked_only_above_fifty_witness :
  fst (fraudMiddleware no_token redis_up stackFraudConfig bare_request 1000
         empty_fraud_store) = Ok None.
Proof.
  apply (blocked_only_above_fifty no_token redis_up stackFraudConfig bare_request
           1000 empty_fraud_store (served_nothing no_token)).
  - vm_compute. discriminate.
  - vm_compute. discriminate.
Defined.

(** X23. A request that the fraud middleware blocks is not counted: with
    Redis answering, a request whose score is above the threshold is
    answered 429, the stored metrics stay as they were (neither the
    request count nor the last activity moves) and one alert is stored
    for twenty-four hours; any other request passes and its metrics are
    stored for an hour, no alert being written. *)
Theorem blocked_requests_not_counted
    (verifyAccessToken : option string -> option JWTPayload) (config : FraudConfig)
    (request : Request) (now : Z) (store : FraudStore) :
  let clientId := getClientId verifyAccessToken request in
  let metrics := assessed verifyAccessToken request now store in
  let score := calculateSuspiciousScore request metrics in
  let result := fraudMiddleware verifyAccessToken redis_up config request now store in
  (suspiciousThreshold config < score ->
   fst result = Ok (Some request_blocked) /\
   fraud_metrics (snd result) = fraud_metrics store /\
   fraud_alerts (snd result)
     = <["fraud_alert:" +:+ clientId +:+ ":" +:+ show_Z now :=
           {| entry_value := fraud_alert clientId score request now;
              expires_at := Some (now + 86400000) |}]> (fraud_alerts store)) /\
  (score <= suspiciousThreshold config ->
   fst result = Ok None /\
   fraud_metrics (snd result)
     = <["fraud:" +:+ clientId :=
           {| entry_value := metrics; expires_at := Some (now + 3600000) |}]>
         (fraud_metrics store) /\
   fraud_alerts (snd result) = fraud_alerts store).
Proof.
  cbn zeta.
  pose proof (fraudMiddleware_spec verifyAccessToken redis_up config request now store)
    as Hspec. cbn zeta in Hspec. rewrite Hspec. clear Hspec.
  unfold redis_up. split.
  - intros Habove. apply Z.ltb_lt in Habove. rewrite Habove.
    repeat split.
  - intros Hbelow.
    replace (suspiciousThreshold config <? _) with false
      by (symmetry; apply Z.ltb_ge; lia).
    repeat split.
Qed.

(** X24. The fraud middleware fails open and never throws: when the read
    of the metrics fails the request passes and Redis is left alone; a
    request whose score is above the threshold passes all the same when
    its alert cannot be written; a request that passes while its metrics
    cannot be written is not counted. So with a Redis that refuses
    writes, or one that is lost, every request passes. *)
Theorem fraud_detection_fails_open
    (verifyAccessToken : option string -> option JWTPayload)
    (down : RedisOp -> Z -> option Error) (config : FraudConfig)
    (request : Request) (now : Z) (store : FraudStore) :
  let clientId := getClientId verifyAccessToken request in
  let score :=
    calculateSuspiciousScore request
      (assessed verifyAccessToken request now store) in
  let result := fraudMiddleware verifyAccessToken down config request now store in
  (exists response, fst result = Ok response) /\
  (down (RedisGet ("fraud:" +:+ clientId)) now <> None ->
   result = (Ok None, store)) /\
  (down (RedisSet ("fraud_alert:" +:+ clientId +:+ ":" +:+ show_Z now)) now <> None ->
   suspiciousThreshold config < score ->
   result = (Ok None, store)) /\
  (down (RedisSet ("fraud:" +:+ clientId)) now <> None ->
   score <= suspiciousThreshold config ->
   result = (Ok None, store)) /\
  fraudMiddleware verifyAccessToken redis_read_only config request now store
    = (Ok None, store) /\
  fraudMiddleware verifyAccessToken redis_lost config request now store
    = (Ok None, store).
Proof.
  cbn zeta.
  rewrite !(fraudMiddleware_spec verifyAccessToken _ config request now store).
  cbn zeta. repeat split.
  - destruct (down (RedisGet _) now); [ eexists; reflexivity | ].
    destruct (suspiciousThreshold config <? _);
      destruct (down (RedisSet _) now); eexists; reflexivity.
  - intros Hget. destruct (down (RedisGet _) now); [ reflexivity | contradiction ].
  - intros Halert Habove. apply Z.ltb_lt in Habove. rewrite Habove.
    destruct (down (RedisGet _) now); [ reflexivity | ].
    destruct (down (RedisSet ("fraud_alert:" +:+ _)) now);
      [ reflexivity | contradiction ].
  - intros Hmetrics Hbelow.
    replace (suspiciousThreshold config <? _) with false
      by (symmetry; apply Z.ltb_ge; lia).
    destruct (down (RedisGet _) now); [ reflexivity | ].
    destruct (down (RedisSet ("fraud:" +:+ _)) now);
      [ reflexivity | contradiction ].
  - unfold redis_read_only. destruct (suspiciousThreshold config <? _); reflexivity.
Qed.

(** ** Authentication *)

Lemma split_at_cons (sep : Ascii.ascii) (s : string) :
  exists first others, split_at sep s = first :: others.
Proof.
  destruct s as [ | c s]; cbn [split_at]; [ eauto | ].
  destruct (Ascii.eqb c sep); [ eauto | ].
  destruct (split_at sep s); eauto.
Qed.

Lemma bearer_has_token (s : string) :
  startsWith s "Bearer " = true ->
  exists token, split_at Ascii.Space s !! 1%nat = Some token.
Proof.
  intros H.
  do 7 (destruct s as [ | c s]; [ discriminate | ];
        cbn [startsWith] in H; apply andb_prop in H as [Hc H];
        apply Ascii.eqb_eq in Hc; subst c).
  destruct (split_at_cons Ascii.Space s) as (first & others & Hs).
  cbn. rewrite Hs. eexists. reflexivity.
Qed.

Lemma authenticate_spec {Session} (verifyAccessToken : option string -> option JWTPayload)
    (token_digest : string -> string) (down : RedisOp -> Z -> option Error)
    (request : Request) (now : Z) (store : gmap string (RedisEntry Session)) :
  authenticate verifyAccessToken token_digest down request now store =
    match bearer_token request with
    | None =>
        if truthy (headers_get request "authorization")
           && startsWith (default "" (headers_get request "authorization")) "Bearer "
        then (Throw (Error_ "Invalid or expired token"), store)
        else (Throw (Error_ "Missing or invalid authorization header"), store)
    | Some token =>
        match verifyAccessToken (Some token) with
        | None => (Throw (Error_ "Invalid or expired token"), store)
        | Some payload =>
            match down (RedisGet (session_key token_digest (jwt_userId payload) token))
                       now with
            | Some e => (Throw e, store)
            | None =>
                match redis_live (session_key token_digest (jwt_userId payload) token)
                                 now store with
                | Some _ => (Ok payload, store)
                | None => (Throw (Error_ "Session not found or expired"), store)
                end
            end
        end
    end.
Proof.
  unfold authenticate, bearer_token, validateUserSession, bind, redis_get, throw, ret.
  destruct (truthy (headers_get request "authorization")); [ | reflexivity ].
  cbn [negb orb andb].
  destruct (startsWith _ "Bearer ") eqn:Hbearer; [ | reflexivity ].
  cbn [negb].
  destruct (split_at Ascii.Space _ !! 1%nat) as [token | ] eqn:Htoken.
  - destruct (verifyAccessToken (Some token)) as [payload | ]; [ | reflexivity ].
    cbn [default from_option]. unfold id.
    destruct (down _ now); [ reflexivity | ].
    destruct (redis_live _ now store); reflexivity.
  - apply bearer_has_token in Hbearer as (token & Hsome). congruence.
Qed.

(** X25. With Redis answering, the authentication middleware yields a
    user exactly when the authorization header starts with [Bearer ], its
    token verifies as that user, Redis holds a live session for the user
    and the digest of the token, and the user's type is among those asked
    for, if any. *)
Theorem authenticated_iff {Session}
    (verifyAccessToken : option string -> option JWTPayload)
    (token_digest : string -> string) (issues_message : list string -> string)
    (options : AuthOptions) (request : Request) (now : Z)
    (store : gmap string (RedisEntry Session)) (user : JWTPayload) :
  authMiddleware verifyAccessToken token_digest redis_up issues_message options
    request now store
    = (Ok {| auth_user := Some user; auth_error := None |}, store) <->
  exists token,
    bearer_token request = Some token /\
    verifyAccessToken (Some token) = Some user /\
    redis_live (session_key token_digest (jwt_userId user) token) now store <> None /\
    type_allowed options user = true.
Proof.
  unfold authMiddleware. rewrite authenticate_spec. unfold redis_up, type_allowed.
  destruct (bearer_token request) as [token | ].
  2: { split.
       - destruct (_ && _), (required options); discriminate.
       - intros (token & H & _). discriminate. }
  destruct (verifyAccessToken (Some token)) as [payload | ] eqn:Hverify.
  2: { split.
       - destruct (required options); discriminate.
       - intros (token' & [= <-] & H & _). congruence. }
  destruct (redis_live (session_key token_digest (jwt_userId payload) token) now store)
    as [session | ] eqn:Hsession.
  2: { split.
       - destruct (required options); discriminate.
       - intros (token' & [= <-] & H & Hlive & _).
         rewrite Hverify in H. injection H as <-. congruence. }
  destruct (userTypes options) as [allowed | ].
  - destruct (existsb (UserType_eqb (jwt_userType payload)) allowed) eqn:Hallowed;
      cbn [negb].
    + split.
      * intros [= <-]. exists token. rewrite Hsession, Hallowed.
        repeat split; [ exact Hverify | discriminate ].
      * intros (token' & [= <-] & H & _). rewrite Hverify in H.
        injection H as <-. reflexivity.
    + split; [ discriminate | ].
      intros (token' & [= <-] & H & _ & Htype). rewrite Hverify in H.
      injection H as <-. congruence.
  - split.
    + intros [= <-]. exists token. rewrite Hsession.
      repeat split; [ exact Hverify | discriminate ].
    + intros (token' & [= <-] & H & _). rewrite Hverify in H.
      injection H as <-. reflexivity.
Qed.

(** X26. The authentication middleware never throws and never writes to
    Redis. When authentication is optional its only refusal is the 403
    given to a user who did authenticate but whose type is not asked for:
    a request with no token, a bad token, no session, or while Redis
    fails, passes without a user. When authentication is required every
    request without a user is refused, with 401 or 403. *)
Theorem auth_refusals {Session}
    (verifyAccessToken : option string -> option JWTPayload)
    (token_digest : string -> string) (down : RedisOp -> Z -> option Error)
    (issues_message : list string -> string)
    (options : AuthOptions) (request : Request) (now : Z)
    (store : gmap string (RedisEntry Session)) :
  exists result,
    authMiddleware verifyAccessToken token_digest down issues_message options
      request now store = (Ok result, store) /\
    (auth_user result <> None -> auth_error result = None) /\
    (required options = false ->
     forall response, auth_error result = Some response ->
       response = insufficient_permissions /\
       exists token user,
         bearer_token request = Some token /\
         verifyAccessToken (Some token) = Some user /\
         redis_live (session_key token_digest (jwt_userId user) token) now store
           <> None /\
         type_allowed options user = false) /\
    (required options = true ->
     auth_user result = None ->
     exists response,
       auth_error result = Some response /\
       (response_status response = 401 \/ response_status response = 403)).
Proof.
  unfold authMiddleware. rewrite authenticate_spec. unfold type_allowed.
  destruct (bearer_token request) as [token | ].
  2: { destruct (_ && _), (required options); eexists; (split; [ reflexivity | ]);
         cbn; repeat split; try discriminate; try congruence; eauto. }
  destruct (verifyAccessToken (Some token)) as [payload | ] eqn:Hverify.
  2: { destruct (required options); eexists; (split; [ reflexivity | ]);
         cbn; repeat split; try discriminate; try congruence; eauto. }
  destruct (down _ now) as [e | ].
  { destruct (required options); eexists; (split; [ reflexivity | ]);
      cbn; repeat split; try discriminate; try congruence; eauto. }
  destruct (redis_live (session_key token_digest (jwt_userId payload) token) now store)
    as [session | ] eqn:Hsession.
  2: { destruct (required options); eexists; (split; [ reflexivity | ]);
         cbn; repeat split; try discriminate; try congruence; eauto. }
  destruct (userTypes options) as [allowed | ].
  - destruct (existsb (UserType_eqb (jwt_userType payload)) allowed) eqn:Hallowed;
      cbn [negb]; eexists; (split; [ reflexivity | ]); cbn;
      (split; [ | split ]); try discriminate; try congruence; eauto.
    intros _ response [= <-]. split; [ reflexivity | ].
    exists token, payload. rewrite Hsession.
    repeat split; [ exact Hverify | discriminate | exact Hallowed ].
  - eexists; (split; [ reflexivity | ]); cbn;
      repeat split; try discriminate; try congruence; eauto.
Qed.

Example optional_auth_refuses_alice :
  authMiddleware alice_token digest16 redis_up plain_issues developers_if_any
    alice_request 1000 alice_session
    = (Ok {| auth_user := None; auth_error := Some insufficient_permissions |},
       alice_session) /\
  authMiddleware alice_token digest16 redis_up plain_issues developers_if_any
    login_request 1000 alice_session
    = (Ok {| auth_user := None; auth_error := None |}, alice_session).
Proof.
  split; vm_compute; reflexivity.
Qed.

(** ** The suspicious patterns *)

Lemma append_cons (x : Ascii.ascii) (a b : string) :
  String x a +:+ b = String x (a +:+ b).
Proof. reflexivity. Qed.

Lemma append_assoc (a b c : string) : (a +:+ b) +:+ c = a +:+ (b +:+ c).
Proof.
  induction a as [ | x a IH]; [ reflexivity | ].
  rewrite !append_cons, IH. reflexivity.
Qed.

Lemma startsWith_spec (s p : string) :
  startsWith s p = true <-> exists post, s = p +:+ post.
Proof.
  revert s. induction p as [ | c p IH]; intros s.
  - destruct s; cbn [startsWith]; split; eauto.
  - destruct s as [ | d s]; cbn [startsWith].
    + split; [ discriminate | ]. intros (post & H).
      rewrite append_cons in H. discriminate.
    + rewrite andb_true_iff, IH. split.
      * intros (Hc & post & ->). apply Ascii.eqb_eq in Hc as ->.
        exists post. reflexivity.
      * intros (post & H). rewrite append_cons in H. injection H as -> ->.
        split; [ apply Ascii.eqb_refl | eauto ].
Qed.

Lemma includes_spec (s p : string) :
  includes s p = true <-> exists pre post, s = pre +:+ (p +:+ post).
Proof.
  induction s as [ | d s IH].
  - cbn [includes]. rewrite orb_false_r, startsWith_spec. split.
    + intros (post & ->). exists "", post. reflexivity.
    + intros ([ | x pre] & post & H);
        [ | rewrite append_cons in H; discriminate ].
      exists post. exact H.
  - cbn [includes]. rewrite orb_true_iff, startsWith_spec, IH. split.
    + intros [(post & ->) | (pre & post & ->)].
      * exists "", post. reflexivity.
      * exists (String d pre), post. reflexivity.
    + intros ([ | x pre] & post & H).
      * left. exists post. exact H.
      * right. rewrite append_cons in H. injection H as -> ->.
        exists pre, post. reflexivity.
Qed.

Lemma includes_part (s a b c : string) :
  includes s (a +:+ (b +:+ c)) = true -> includes s b = true.
Proof.
  rewrite !includes_spec. intros (pre & post & ->).
  exists (pre +:+ a), (c +:+ post).
  rewrite !append_assoc. reflexivity.
Qed.

(** X27. Four of the ten suspicious patterns never decide: a URL that
    holds [javascript:], [vbscript:], [<script] or [</script] holds
    [script], so the URL adds to the score exactly when, in lower case,
    it holds one of [script], [alert], [data:], [onload], [onerror] and
    [onclick]; a URL that holds [script] anywhere, as in a path of
    subscriptions, adds 25. *)
Theorem script_patterns_decide (request : Request) (metrics : FraudMetrics) :
  existsb (fun pattern => includes (toLowerCase (url request)) pattern)
          suspiciousPatterns
    = existsb (fun pattern => includes (toLowerCase (url request)) pattern)
              deciding_patterns /\
  (includes (toLowerCase (url request)) "script" = true ->
   25 <= calculateSuspiciousScore request metrics).
Proof.
  set (lower := toLowerCase (url request)).
  assert (Hjs : includes lower "javascript:" = true -> includes lower "script" = true)
    by exact (includes_part lower "java" "script" ":").
  assert (Hvb : includes lower "vbscript:" = true -> includes lower "script" = true)
    by exact (includes_part lower "vb" "script" ":").
  assert (Hopen : includes lower "<script" = true -> includes lower "script" = true)
    by exact (includes_part lower "<" "script" "").
  assert (Hclose : includes lower "</script" = true -> includes lower "script" = true)
    by exact (includes_part lower "</" "script" "").
  split.
  - cbn [existsb suspiciousPatterns deciding_patterns].
    destruct (includes lower "script"); [ reflexivity | ].
    destruct (includes lower "javascript:"); [ discriminate (Hjs eq_refl) | ].
    destruct (includes lower "vbscript:"); [ discriminate (Hvb eq_refl) | ].
    destruct (includes lower "<script"); [ discriminate (Hopen eq_refl) | ].
    destruct (includes lower "</script"); [ discriminate (Hclose eq_refl) | ].
    cbn [orb].
    destruct (includes lower "alert"), (includes lower "data:"),
      (includes lower "onload"), (includes lower "onerror"),
      (includes lower "onclick"); reflexivity.
  - intros Hscript. unfold calculateSuspiciousScore. cbn zeta. fold lower.
    replace (existsb (fun pattern => includes lower pattern) suspiciousPatterns)
      with true by (symmetry; cbn [existsb suspiciousPatterns]; rewrite Hscript;
                    reflexivity).
    destruct (100 <? requestCount metrics), (50 <? requestCount metrics),
      (10 <? failedAttempts metrics), (5 <? failedAttempts metrics), (_ || _),
      (negb (truthy (headers_get request "accept-language"))),
      (negb (truthy (headers_get request "accept-encoding"))); cbn; lia.
Qed.

Lemma script_patterns_decide_witness :
  let request := browser_request "https://carrom.example/api/Subscriptions" in
  includes (toLowerCase (url request)) "script" = true /\
  25 <= calculateSuspiciousScore request
          {| requestCount := 1; failedAttempts := 0; metrics_patterns := [];
             lastActivity := 0 |}.
Proof.
  cbn zeta. split; [ reflexivity | ].
  exact (proj2 (script_patterns_decide
                  (browser_request "https://carrom.example/api/Subscriptions")
                  {| requestCount := 1; failedAttempts := 0; metrics_patterns := [];
                     lastActivity := 0 |}) eq_refl).
Defined.

(** ** The security stack *)

Lemma csrfMiddleware_passes (verifyAccessToken : option string -> option JWTPayload)
    (down : RedisOp -> Z -> option Error) (request : Request) (now : Z)
    (store store' : gmap string (RedisEntry string)) (r : Res (option Response)) :
  csrfMiddleware verifyAccessToken down request now store = (r, store') ->
  store' = store /\
  (r = Ok None ->
   method request = "GET" \/ csrf_token_held verifyAccessToken request now store).
Proof.
  unfold csrfMiddleware, csrf_token_held.
  destruct (String.eqb_spec (method request) "GET") as [Hget | Hget].
  { intros [= <- <-]. auto. }
  destruct (getSessionId verifyAccessToken request) as [sessionId | ].
  2: { intros [= <- <-]. split; [ reflexivity | discriminate ]. }
  destruct (headers_get request "x-csrf-token") as [token | ].
  2: { intros [= <- <-]. split; [ reflexivity | discriminate ]. }
  cbn [truthy]. destruct (String.eqb_spec token "") as [Hempty | Hfull].
  { intros [= <- <-]. split; [ reflexivity | discriminate ]. }
  cbn [negb]. unfold bind, redis_get, ret.
  destruct (down _ now).
  { intros [= <- <-]. split; [ reflexivity | discriminate ]. }
  destruct (redis_live ("csrf:" +:+ sessionId) now store) as [stored | ] eqn:Hstored.
  2: { intros [= <- <-]. split; [ reflexivity | discriminate ]. }
  cbn [truthy default from_option]. unfold id.
  destruct (String.eqb_spec stored "").
  { intros [= <- <-]. split; [ reflexivity | discriminate ]. }
  cbn [negb orb].
  destruct (String.eqb_spec stored token) as [-> | Hneq]; cbn [negb].
  - intros [= <- <-]. split; [ reflexivity | ]. intros _. right.
    exists sessionId, token. repeat split; assumption.
  - intros [= <- <-]. split; [ reflexivity | discriminate ].
Qed.

Lemma authMiddleware_result {Session}
    (verifyAccessToken : option string -> option JWTPayload)
    (token_digest : string -> string) (down : RedisOp -> Z -> option Error)
    (issues_message : list string -> string)
    (options : AuthOptions) (request : Request) (now : Z)
    (store : gmap string (RedisEntry Session)) :
  exists result,
    authMiddleware verifyAccessToken token_digest down issues_message options
      request now store = (Ok result, store) /\
    (forall user, auth_user result = Some user ->
       session_held verifyAccessToken token_digest options request now store user) /\
    (required options = true -> auth_error result = None ->
     auth_user result <> None).
Proof.
  unfold authMiddleware, session_held. rewrite authenticate_spec. unfold type_allowed.
  destruct (bearer_token request) as [token | ].
  2: { destruct (_ && _), (required options); eexists; (split; [ reflexivity | ]);
         cbn; split; try discriminate; congruence. }
  destruct (verifyAccessToken (Some token)) as [payload | ] eqn:Hverify.
  2: { destruct (required options); eexists; (split; [ reflexivity | ]);
         cbn; split; try discriminate; congruence. }
  destruct (down _ now) as [e | ].
  { destruct (required options); eexists; (split; [ reflexivity | ]);
      cbn; split; try discriminate; congruence. }
  destruct (redis_live (session_key token_digest (jwt_userId payload) token) now store)
    as [session | ] eqn:Hsession.
  2: { destruct (required options); eexists; (split; [ reflexivity | ]);
         cbn; split; try discriminate; congruence. }
  destruct (userTypes options) as [allowed | ].
  - destruct (existsb (UserType_eqb (jwt_userType payload)) allowed) eqn:Hallowed;
      cbn [negb]; eexists; (split; [ reflexivity | ]); cbn; split;
      try discriminate; try congruence.
    intros user [= <-]. exists token. rewrite Hsession.
    repeat split; [ exact Hverify | discriminate | exact Hallowed ].
  - eexists; (split; [ reflexivity | ]); cbn; split; try discriminate; try congruence.
    intros user [= <-]. exists token. rewrite Hsession.
    repeat split; [ exact Hverify | discriminate ].
Qed.

Ltac stack_reduce :=
  cbn beta iota zeta delta [stack_rate stack_fraud stack_csrf stack_sessions].

(** X28. What a pass of the security stack guarantees, whichever Redis
    commands fail: when CSRF protection is on, the request is a GET or its
    session holds the CSRF token it carries; a user handed on has a
    verified token, a live session and a type that is asked for; when
    authentication is required a user is handed on. The stack writes
    neither CSRF tokens nor sessions. *)
Theorem stack_pass_guarantees {Session}
    (verifyAccessToken : option string -> option JWTPayload)
    (token_digest : string -> string) (down : RedisOp -> Z -> option Error)
    (issues_message : list string -> string)
    (config : StackConfig) (request : Request) (now : Z)
    (store store' : StackStore Session) (handed : option JWTPayload) :
  createStack verifyAccessToken token_digest down issues_message config request
    now store = (Ok (Passed handed), store') ->
  (config_csrf config = true ->
   method request = "GET" \/
   csrf_token_held verifyAccessToken request now (stack_csrf store)) /\
  (forall user, handed = Some user ->
     exists options,
       config_auth config = Some options /\
       session_held verifyAccessToken token_digest options request now
         (stack_sessions store) user) /\
  (forall options, config_auth config = Some options ->
     required options = true -> handed <> None) /\
  stack_csrf store' = stack_csrf store /\
  stack_sessions store' = stack_sessions store.
Proof.
  destruct store as [rate fraud csrf sessions].
  unfold createStack, try_or, stack_checks, bind, on_rate, on_fraud, on_csrf,
    on_sessions, ret.
  (* 2. Rate Limiting *)
  destruct (config_rateLimit config) as [rateLimit | ]; stack_reduce;
    [ destruct (rateLimitMiddleware verifyAccessToken down rateLimit request now rate)
        as [[[response | ] | e] rate'] | ];
    stack_reduce; try (intros Hrefused; discriminate Hrefused).
  (* 3. Fraud Detection *)
  all: destruct (config_fraudDetection config); stack_reduce;
    [ destruct (fraudMiddleware verifyAccessToken down _ request now fraud)
        as [[[response | ] | e] fraud'] | ];
    stack_reduce; try (intros Hrefused; discriminate Hrefused).
  (* 4. CSRF Protection *)
  all: destruct (config_csrf config); stack_reduce;
    [ destruct (csrfMiddleware verifyAccessToken down request now csrf)
        as [[[response | ] | e] csrf'] eqn:Hcsrf;
      apply csrfMiddleware_passes in Hcsrf as [-> Hheld] | ];
    stack_reduce; try (intros Hrefused; discriminate Hrefused).
  (* 5. Authentication *)
  all: destruct (config_auth config) as [options | ]; stack_reduce;
    [ destruct (authMiddleware_result verifyAccessToken token_digest down
                  issues_message options request now sessions)
        as (result & Hrun & Huser & Hrequired);
      rewrite Hrun; stack_reduce;
      destruct (auth_error result);
        [ intros Hrefused; discriminate Hrefused | ] | ];
    intros [= <- <-]; cbn [stack_csrf stack_sessions];
    repeat split; try discriminate; try (intros _; exact (Hheld eq_refl)).
  all: try (intros user Huser'; exists options; split;
            [ reflexivity | exact (Huser user Huser') ]).
  all: try (intros options' [= <-] Hreq; exact (Hrequired Hreq eq_refl)).
Qed.

Lemma stack_pass_guarantees_witness :
  let result :=
    createStack alice_token digest16 redis_up plain_issues players_only alice_move
      1000 alice_redis in
  fst result = Ok (Passed (Some alice)) /\
  (method alice_move = "GET" \/
   csrf_token_held alice_token alice_move 1000 (stack_csrf alice_redis)) /\
  exists options,
    config_auth players_only = Some options /\
    session_held alice_token digest16 options alice_move 1000
      (stack_sessions alice_redis) alice.
Proof.
  cbn zeta.
  assert (Hrun : createStack alice_token digest16 redis_up plain_issues players_only
                   alice_move 1000 alice_redis
                 = (Ok (Passed (Some alice)),
                    snd (createStack alice_token digest16 redis_up plain_issues
                           players_only alice_move 1000 alice_redis))).
  { apply injective_projections; [ vm_compute; reflexivity | reflexivity ]. }
  destruct (stack_pass_guarantees _ _ _ _ _ _ _ _ _ _ Hrun)
    as (Hcsrf & Huser & _).
  split; [ rewrite Hrun; reflexivity | ].
  split; [ exact (Hcsrf eq_refl) | exact (Huser alice eq_refl) ].
Defined.

Lemma rateLimitMiddleware_lost
    (verifyAccessToken : option string -> option JWTPayload)
    (config : RateLimitConfig) (request : Request) (now : Z)
    (store : gmap string (RedisEntry RateRecord)) :
  rateLimitMiddleware verifyAccessToken redis_lost config request now store
    = (Ok None, store).
Proof. reflexivity. Qed.

Lemma fraudMiddleware_lost
    (verifyAccessToken : option string -> option JWTPayload)
    (config : FraudConfig) (request : Request) (now : Z) (store : FraudStore) :
  fraudMiddleware verifyAccessToken redis_lost config request now store
    = (Ok None, store).
Proof.
  rewrite (fraudMiddleware_spec verifyAccessToken redis_lost config request now store).
  reflexivity.
Qed.

Lemma csrfMiddleware_lost (verifyAccessToken : option string -> option JWTPayload)
    (request : Request) (now : Z) (store : gmap string (RedisEntry string)) :
  csrfMiddleware verifyAccessToken redis_lost request now store =
    if String.eqb (method request) "GET" then (Ok None, store)
    else match getSessionId verifyAccessToken request with
         | None => (Ok (Some (json_response 400 "Session ID required")), store)
         | Some _ =>
             if truthy (headers_get request "x-csrf-token")
             then (Throw (Error_ "Connection is closed."), store)
             else (Ok (Some (json_response 403 "CSRF token required")), store)
         end.
Proof.
  unfold csrfMiddleware.
  destruct (String.eqb (method request) "GET"); [ reflexivity | ].
  destruct (getSessionId verifyAccessToken request); [ | reflexivity ].
  destruct (truthy (headers_get request "x-csrf-token")); reflexivity.
Qed.

Lemma authMiddleware_lost {Session}
    (verifyAccessToken : option string -> option JWTPayload)
    (token_digest : string -> string) (issues_message : list string -> string)
    (options : AuthOptions) (request : Request) (now : Z)
    (store : gmap string (RedisEntry Session)) :
  exists message,
    authMiddleware verifyAccessToken token_digest redis_lost issues_message options
      request now store
      = (Ok (if required options
             then {| auth_user := None;
                     auth_error := Some (json_response 401 message) |}
             else {| auth_user := None; auth_error := None |}), store) /\
    forall token user,
      bearer_token request = Some token ->
      verifyAccessToken (Some token) = Some user ->
      message = "Connection is closed.".
Proof.
  unfold authMiddleware. rewrite authenticate_spec. unfold redis_lost.
  destruct (bearer_token request) as [token | ].
  2: { destruct (_ && _), (required options);
         [ eexists | exists "" | eexists | exists "" ];
         (split; [ reflexivity | discriminate ]). }
  destruct (verifyAccessToken (Some token)) as [payload | ] eqn:Hverify.
  - exists "Connection is closed.".
    split; [ destruct (required options); reflexivity | reflexivity ].
  - destruct (required options); [ eexists | exists "" ];
      (split; [ reflexivity | intros t u [= <-]; congruence ]).
Qed.

(** X29. The security stack while Redis is lost. Rate limiting and fraud
    detection let everything through. With CSRF protection on, a request
    other than a GET that carries a session and a CSRF token is answered
    500. Where CSRF protection does not apply, a request passes without a
    user when authentication is absent or optional; when it is required a
    request with a token that verifies is answered 401 with the message
    of the Redis error. Nothing is written. *)
Theorem stack_without_redis {Session}
    (verifyAccessToken : option string -> option JWTPayload)
    (token_digest : string -> string) (issues_message : list string -> string)
    (config : StackConfig) (request : Request) (now : Z)
    (store : StackStore Session) :
  let result :=
    createStack verifyAccessToken token_digest redis_lost issues_message config
      request now store in
  snd result = store /\
  (config_csrf config = true -> method request <> "GET" ->
   getSessionId verifyAccessToken request <> None ->
   truthy (headers_get request "x-csrf-token") = true ->
   fst result = Ok (Refused security_check_failed)) /\
  (config_csrf config = false \/ method request = "GET" ->
   match config_auth config with
   | None => fst result = Ok (Passed None)
   | Some options =>
       if required options then
         forall token user,
           bearer_token request = Some token ->
           verifyAccessToken (Some token) = Some user ->
           fst result = Ok (Refused (json_response 401 "Connection is closed."))
       else fst result = Ok (Passed None)
   end).
Proof.
  cbn zeta. destruct store as [rate fraud csrf sessions].
  unfold createStack, try_or, stack_checks, bind, on_rate, on_fraud, on_csrf,
    on_sessions, ret.
  destruct (config_rateLimit config) as [rateLimit | ]; stack_reduce;
    rewrite ?rateLimitMiddleware_lost; stack_reduce.
  all: destruct (config_fraudDetection config); stack_reduce;
    rewrite ?fraudMiddleware_lost; stack_reduce.
  all: destruct (config_csrf config); stack_reduce;
    rewrite ?csrfMiddleware_lost.
  all: destruct (String.eqb_spec (method request) "GET") as [Hget | Hget];
    stack_reduce.
  all: try (destruct (getSessionId verifyAccessToken request) as [sessionId | ];
            [ destruct (truthy (headers_get request "x-csrf-token")) | ];
            stack_reduce;
            (split; [ reflexivity | ]);
            (split; [ intros; (reflexivity || discriminate || congruence)
                    | intros [H | H]; (discriminate || contradiction) ])).
  all: destruct (config_auth config) as [options | ]; stack_reduce;
    [ destruct (authMiddleware_lost verifyAccessToken token_digest issues_message
                  options request now sessions) as (message & -> & Hmessage);
      destruct (required options); stack_reduce;
      cbn [auth_error auth_user fst snd] | ].
  all: (split; [ reflexivity | ]).
  all: (split; [ intros; (discriminate || contradiction) | intros _ ]).
  all: try reflexivity.
  all: intros token user Htoken Hverify;
    rewrite (Hmessage token user Htoken Hverify); reflexivity.
Qed.
